(** * Conversation history service: a shallow embedding and its properties

    The development follows the layering of the backend:

    - [JsVal]: the JavaScript values that cross the HTTP boundary and
      live in the document store;
    - the in-memory document store used by the test-suite
      (tests/__mocks__/firestore.js): documents, looked up by id on a
      plain object and so through its prototype, the chainable query
      builder, atomic array-union;
    - the repository (models/ConversationHistory.js);
    - the service (services/historyService.js);
    - the HTTP controller (controllers/historyController.js) and the
      error middleware;
    - the agent proxy (services/agentService.js).

    Asynchronous functions are modelled as state transformers over the
    store that may throw: an [await] is a sequencing point. *)

From Stdlib Require Import List String Ascii ZArith Lia Bool Arith.
From Stdlib Require Import Sorted Permutation DecimalString.
From Stdlib Require Import DecimalNat DecimalFacts.
Import ListNotations.

Local Open Scope string_scope.
Local Open Scope list_scope.

(** ** JavaScript values *)

(** Values that can come out of [JSON.parse], plus [undefined].
    Numbers are carried through the code opaquely (only their being
    zero is ever inspected), so integers stand for them.  An object is
    its list of own properties in insertion order. *)
#[local] Set Warnings "-register-all".
Inductive JsVal : Type :=
| JUndefined
| JNull
| JBool (b : bool)
| JNum (n : Z)
| JStr (s : string)
| JArr (elems : list JsVal)
| JObj (props : list (string * JsVal)).

Section JsVal_induction.
Variable P : JsVal -> Prop.
Hypothesis Hundef : P JUndefined.
Hypothesis Hnull : P JNull.
Hypothesis Hbool : forall b, P (JBool b).
Hypothesis Hnum : forall n, P (JNum n).
Hypothesis Hstr : forall s, P (JStr s).
Hypothesis Harr : forall l, Forall P l -> P (JArr l).
Hypothesis Hobj : forall ps, Forall (fun kv => P (snd kv)) ps -> P (JObj ps).

Fixpoint JsVal_nested_ind (v : JsVal) : P v :=
  match v with
  | JUndefined => Hundef
  | JNull => Hnull
  | JBool b => Hbool b
  | JNum n => Hnum n
  | JStr s => Hstr s
  | JArr l =>
      Harr l ((fix all (l : list JsVal) : Forall P l :=
                 match l with
                 | [] => Forall_nil _
                 | x :: r => Forall_cons x (JsVal_nested_ind x) (all r)
                 end) l)
  | JObj ps =>
      Hobj ps ((fix all (ps : list (string * JsVal))
                  : Forall (fun kv => P (snd kv)) ps :=
                  match ps with
                  | [] => Forall_nil _
                  | kv :: r =>
                      Forall_cons kv (JsVal_nested_ind (snd kv)) (all r)
                  end) ps)
  end.
End JsVal_induction.

(** [!v] is [negb (truthy v)]. *)
Definition truthy (v : JsVal) : bool :=
  match v with
  | JUndefined | JNull => false
  | JBool b => b
  | JNum n => negb (n =? 0)%Z
  | JStr s => negb (s =? "")
  | JArr _ | JObj _ => true
  end.

(** [a || b] and [a && b]. *)
Definition jsOr (a b : JsVal) : JsVal := if truthy a then a else b.
Definition jsAnd (a b : JsVal) : JsVal := if truthy a then b else a.

Definition isNullish (v : JsVal) : bool :=
  match v with
  | JUndefined | JNull => true
  | _ => false
  end.

Definition isArray (v : JsVal) : bool :=
  match v with
  | JArr _ => true
  | _ => false
  end.

Fixpoint lookupProp (k : string) (ps : list (string * JsVal)) : JsVal :=
  match ps with
  | [] => JUndefined
  | (k', v) :: r => if k =? k' then v else lookupProp k r
  end.

(** [v.k] for a receiver that is neither [null] nor [undefined].  The
    property names read by the code (sessionId, userId, messages,
    metadata, source, agentModel, role, content, timestamp, error,
    message, createdAt, updatedAt) are not defined on the prototypes of
    strings, numbers, booleans or arrays, so such receivers answer
    [undefined]. *)
Definition getField (v : JsVal) (k : string) : JsVal :=
  match v with
  | JObj ps => lookupProp k ps
  | _ => JUndefined
  end.

(** [v?.k]. *)
Definition optField (v : JsVal) (k : string) : JsVal :=
  if isNullish v then JUndefined else getField v k.

(** [o[k] = v] on the property list: an existing key keeps its place. *)
Fixpoint assignProp (k : string) (v : JsVal) (ps : list (string * JsVal))
  : list (string * JsVal) :=
  match ps with
  | [] => [(k, v)]
  | (k', v') :: r =>
      if k =? k' then (k, v) :: r else (k', v') :: assignProp k v r
  end.

Definition setField (o : JsVal) (k : string) (v : JsVal) : JsVal :=
  match o with
  | JObj ps => JObj (assignProp k v ps)
  | _ => o
  end.

(** [Object.keys(v)]. *)
Definition objectKeys (v : JsVal) : list string :=
  match v with
  | JObj ps => map fst ps
  | _ => []
  end.

(** [{ id: id, ...v }]. *)
Definition withId (id : string) (v : JsVal) : JsVal :=
  match v with
  | JObj ps =>
      JObj (fold_left (fun acc kv => assignProp (fst kv) (snd kv) acc)
                      ps [("id", JStr id)])
  | _ => JObj [("id", JStr id)]
  end.

(** [JSON.parse(JSON.stringify(v))]: a deep copy in which a property
    whose value is [undefined] disappears and an [undefined] array
    element becomes [null].  The code applies it to objects only. *)
Fixpoint jsonClone (v : JsVal) : JsVal :=
  match v with
  | JArr l =>
      JArr (map (fun x => match x with
                          | JUndefined => JNull
                          | _ => jsonClone x
                          end) l)
  | JObj ps =>
      JObj ((fix props (ps : list (string * JsVal)) :=
               match ps with
               | [] => []
               | (k, x) :: r =>
                   match x with
                   | JUndefined => props r
                   | _ => (k, jsonClone x) :: props r
                   end
               end) ps)
  | _ => v
  end.

(** [a === b] between a stored value and a value of the current
    request.  Arrays and objects are compared by reference, and the
    store only keeps copies ([jsonClone]), so they are never equal. *)
Definition strictEq (a b : JsVal) : bool :=
  match a, b with
  | JUndefined, JUndefined => true
  | JNull, JNull => true
  | JBool x, JBool y => Bool.eqb x y
  | JNum x, JNum y => (x =? y)%Z
  | JStr x, JStr y => (x =? y)
  | _, _ => false
  end.

(** *** Inherited properties *)

(** What every object inherits from [Object.prototype]: the accessor
    [__proto__], which answers [Object.prototype] itself, and eleven
    functions.  A function is known here by the name it prints under. *)
Inductive Builtin : Type :=
| ObjectPrototype
| NativeFunction (name : string).

Definition inherited (k : string) : option Builtin :=
  if k =? "__proto__" then Some ObjectPrototype
  else if k =? "constructor" then Some (NativeFunction "Object")
  else if existsb (String.eqb k)
            ["hasOwnProperty"; "isPrototypeOf"; "propertyIsEnumerable";
             "toLocaleString"; "toString"; "valueOf";
             "__defineGetter__"; "__defineSetter__";
             "__lookupGetter__"; "__lookupSetter__"]
       then Some (NativeFunction k)
  else None.

(** What [o[k]] evaluates to when the key is chosen by the caller: a
    value of the data, or a built-in that [o] inherits. *)
Inductive Slot : Type :=
| Value (v : JsVal)
| Inherited (b : Builtin).

Definition hasOwn (k : string) (ps : list (string * JsVal)) : bool :=
  existsb (String.eqb k) (map fst ps).

(** [o[k]] on a document.  The store holds objects only ([add] keeps
    the copy of an object literal); an own property comes first. *)
Definition getProp (o : JsVal) (k : string) : Slot :=
  match o with
  | JObj ps =>
      if hasOwn k ps then Value (lookupProp k ps)
      else match inherited k with
           | Some b => Inherited b
           | None => Value JUndefined
           end
  | _ => Value (getField o k)
  end.

(** [a === b] for what was read from a document and a value of the
    request: a built-in is equal to itself only. *)
Definition slotEq (a : Slot) (b : JsVal) : bool :=
  match a with
  | Value v => strictEq v b
  | Inherited _ => false
  end.

(** The operand of a relational comparison.  [Object.prototype] prints
    as ["[object Object]"] and a native function as its source text. *)
Definition primitive (a : Slot) : JsVal :=
  match a with
  | Value v => v
  | Inherited ObjectPrototype => JStr "[object Object]"
  | Inherited (NativeFunction name) =>
      JStr ("function " ++ name ++ "() { [native code] }")
  end.

(** The numeric reading of a value in a relational comparison; [None]
    is NaN.  Strings compared with non-strings, arrays and objects go
    through string-to-number parsing, which lies outside the modelled
    fragment: they are read as NaN here.  The fields the code orders
    by ([updatedAt]) always hold strings. *)
Definition toNumber (v : JsVal) : option Z :=
  match v with
  | JNull => Some 0%Z
  | JBool b => Some (if b then 1 else 0)%Z
  | JNum n => Some n
  | _ => None
  end.

(** [a < b]: [None] when the comparison is undefined (a NaN operand).
    Two strings are compared lexicographically by code unit, which on
    ISO-8601 timestamps is the byte order of [String.ltb]. *)
Definition jsLess (a b : JsVal) : option bool :=
  match a, b with
  | JStr x, JStr y => Some (String.ltb x y)
  | _, _ =>
      match toNumber a, toNumber b with
      | Some x, Some y => Some (x <? y)%Z
      | _, _ => None
      end
  end.

Definition jsLt (a b : JsVal) : bool :=
  match jsLess a b with Some true => true | _ => false end.
Definition jsGt (a b : JsVal) : bool := jsLt b a.
Definition jsLe (a b : JsVal) : bool :=
  match jsLess b a with Some false => true | _ => false end.
Definition jsGe (a b : JsVal) : bool :=
  match jsLess a b with Some false => true | _ => false end.

(** ** Errors and results *)

(** Modelled from the spec: utils/ApiError.js is not part of the
    sources at hand.  Its callers construct it as
    [new ApiError(statusCode, message)], and the error middleware and
    the tests read back [statusCode] and [message]. *)
Record ApiError : Type := mkApiError {
  statusCode : Z;
  message : JsVal
}.

Inductive JsError : Type :=
| TypeError
| SyntaxError
| Error (msg : string)
| ApiErr (e : ApiError).

Inductive Result (A : Type) : Type :=
| Ok (a : A)
| Throw (e : JsError).
Arguments Ok {A} a.
Arguments Throw {A} e.

Definition resBind {A B} (r : Result A) (k : A -> Result B) : Result B :=
  match r with
  | Ok a => k a
  | Throw e => Throw e
  end.

(** [arr.map(f)] for a callback that may throw. *)
Fixpoint mapM {A B} (f : A -> Result B) (l : list A) : Result (list B) :=
  match l with
  | [] => Ok []
  | x :: r =>
      resBind (f x) (fun y => resBind (mapM f r) (fun ys => Ok (y :: ys)))
  end.

(** [v.map(f)]: only arrays have a [map] method. *)
Definition arrayMap (f : JsVal -> Result JsVal) (v : JsVal)
  : Result (list JsVal) :=
  match v with
  | JArr l => mapM f l
  | _ => Throw TypeError
  end.

(** [[...v]] in [[...(existing[key] || []), ...elements]].  A string
    spreads into its characters (here: its bytes). *)
Definition spread (v : JsVal) : Result (list JsVal) :=
  match v with
  | JArr l => Ok l
  | JStr s => Ok (map (fun c => JStr (String c EmptyString))
                      (list_ascii_of_string s))
  | _ => Throw TypeError
  end.

(** The decimal writing of an array index. *)
Definition indexKey (i : nat) : string :=
  NilEmpty.string_of_uint (Nat.to_uint i).

Fixpoint entriesFrom (i : nat) (l : list JsVal) : list (string * JsVal) :=
  match l with
  | [] => []
  | x :: r => (indexKey i, x) :: entriesFrom (S i) r
  end.

(** [Object.entries(v)]: the own enumerable properties.  An array has
    its elements under their indices, a string its characters (here:
    its bytes), a number or a boolean none. *)
Definition objectEntries (v : JsVal) : Result (list (string * JsVal)) :=
  match v with
  | JUndefined | JNull => Throw TypeError
  | JObj ps => Ok ps
  | JArr l => Ok (entriesFrom 0 l)
  | JStr s => Ok (entriesFrom 0 (map (fun c => JStr (String c EmptyString))
                                     (list_ascii_of_string s)))
  | JBool _ | JNum _ => Ok []
  end.

(** ** The document store (tests/__mocks__/firestore.js) *)

Module MockFirestore.

(** [`mock-id-${idCounter}`]. *)
Definition mockId (n : nat) : string :=
  "mock-id-" ++ NilEmpty.string_of_uint (Nat.to_uint n).

(** The module state of the mock: [store] holds the collection
    ['conversations'] (the only one the repository opens), absent until
    the first document is added; its entries are in insertion order, the
    order in which [Object.entries] enumerates the keys [mock-id-N].
    [tick] counts the readings of the system clock taken so far. *)
Record World : Type := mkWorld {
  store : option (list (string * JsVal));
  idCounter : nat;
  tick : nat
}.

(** [store[collection] || {}]. *)
Definition collection (w : World) : list (string * JsVal) :=
  match store w with
  | Some c => c
  | None => []
  end.

Fixpoint lookupDoc (id : string) (c : list (string * JsVal)) : option JsVal :=
  match c with
  | [] => None
  | (id', d) :: r => if id =? id' then Some d else lookupDoc id r
  end.

Fixpoint replaceDoc (id : string) (d : JsVal) (c : list (string * JsVal))
  : list (string * JsVal) :=
  match c with
  | [] => []
  | (id', d') :: r =>
      if id =? id' then (id', d) :: r else (id', d') :: replaceDoc id d r
  end.

Fixpoint removeDoc (id : string) (c : list (string * JsVal))
  : list (string * JsVal) :=
  match c with
  | [] => []
  | (id', d') :: r =>
      if id =? id' then r else (id', d') :: removeDoc id r
  end.

(** An asynchronous function: it runs on the module state, and returns
    or throws; what it did to the state before throwing stays done. *)
Definition M (A : Type) : Type := World -> Result A * World.

Definition ret {A} (a : A) : M A := fun w => (Ok a, w).
Definition throw {A} (e : JsError) : M A := fun w => (Throw e, w).
Definition bind {A B} (m : M A) (k : A -> M B) : M B :=
  fun w =>
    match m w with
    | (Ok a, w') => k a w'
    | (Throw e, w') => (Throw e, w')
    end.
Definition lift {A} (r : Result A) : M A := fun w => (r, w).

Declare Scope js_scope.
Delimit Scope js_scope with js.
Notation "x <- m ;; k" := (bind m (fun x => k))
  (at level 61, m at next level, right associativity) : js_scope.
Notation "m ;;; k" := (bind m (fun _ => k))
  (at level 61, right associativity) : js_scope.
Local Open Scope js_scope.

(** [MockDocSnapshot]: [_data] is [None] for [undefined]. *)
Record MockDocSnapshot : Type := mkSnapshot {
  snapId : string;
  snapData : option Slot
}.

Definition snapExists (s : MockDocSnapshot) : bool :=
  match snapData s with
  | Some _ => true
  | None => false
  end.

(** [data()]: a copy of the document, or [undefined].  Of
    [Object.prototype] the copy is the empty object, as it has no
    enumerable property of its own; of a function [JSON.stringify]
    gives [undefined], which [JSON.parse] refuses. *)
Definition data (s : MockDocSnapshot) : Result JsVal :=
  match snapData s with
  | Some (Value d) => Ok (if truthy d then jsonClone d else JUndefined)
  | Some (Inherited ObjectPrototype) => Ok (JObj [])
  | Some (Inherited (NativeFunction _)) => Throw SyntaxError
  | None => Ok JUndefined
  end.

(** What [FieldValue.arrayUnion(...elements)] builds, and any other
    value given to [update]. *)
Inductive UpdateValue : Type :=
  | ArrayUnion (elements : list JsVal)
  | Plain (v : JsVal).

(** [store[collection] && store[collection][id]]: a document of the
    collection or, once the collection exists, what the collection
    object inherits under that name. *)
Definition entry (id : string) (w : World) : option Slot :=
  match store w with
  | None => None
  | Some c =>
      match lookupDoc id c with
      | Some d => Some (Value d)
      | None => option_map Inherited (inherited id)
      end
  end.

(** [MockDocRef.get]. *)
Definition docGet (id : string) : M MockDocSnapshot :=
  fun w => (Ok (mkSnapshot id (entry id w)), w).

(** One round of the loop of [MockDocRef.update] on the stored object. *)
Definition updateField (existing : JsVal) (kv : string * UpdateValue)
  : Result JsVal :=
  match snd kv with
  | ArrayUnion elements =>
      resBind (spread (jsOr (getField existing (fst kv)) (JArr [])))
              (fun old => Ok (setField existing (fst kv)
                                       (JArr (old ++ elements))))
  | Plain v => Ok (setField existing (fst kv) v)
  end.

Fixpoint updateFields (existing : JsVal) (kvs : list (string * UpdateValue))
  : JsVal * option JsError :=
  match kvs with
  | [] => (existing, None)
  | kv :: r =>
      match updateField existing kv with
      | Ok existing' => updateFields existing' r
      | Throw e => (existing, Some e)
      end
  end.

(** [MockDocRef.update]: the stored object is changed in place, field
    by field.  Under an inherited name the object that is changed is a
    built-in of the engine, which the collection only inherits: the
    fields the repository updates ([messages], [updatedAt]) are
    assigned to it without an error, and nothing in the store is
    written.  On a function such fields are never read again.  On
    [Object.prototype] they would be inherited by every object from
    then on; [World] holds the store, not the built-ins of the engine,
    so the histories considered stay clear of that one call (see
    [reachable]). *)
Definition docUpdate (id : string) (kvs : list (string * UpdateValue))
  : M unit :=
  fun w =>
    match entry id w with
    | None => (Throw (Error "Document not found"), w)
    | Some (Value existing) =>
        if truthy existing then
          let (existing', err) := updateFields existing kvs in
          let w' := mkWorld (Some (replaceDoc id existing' (collection w)))
                            (idCounter w) (tick w) in
          match err with
          | None => (Ok tt, w')
          | Some e => (Throw e, w')
          end
        else (Throw (Error "Document not found"), w)
    | Some (Inherited _) => (Ok tt, w)
    end.

(** [MockDocRef.delete]. *)
Definition docDelete (id : string) : M unit :=
  fun w =>
    match store w with
    | Some c => (Ok tt, mkWorld (Some (removeDoc id c)) (idCounter w) (tick w))
    | None => (Ok tt, w)
    end.

(** [MockCollectionRef.add]: returns the generated id. *)
Definition add (doc : JsVal) : M string :=
  fun w =>
    let n := S (idCounter w) in
    let id := mockId n in
    (Ok id,
     mkWorld (Some (assignProp id (jsonClone doc) (collection w))) n (tick w)).

(** *** The query builder *)

Record Filter : Type := mkFilter {
  field : string;
  op : string;
  value : JsVal
}.

Record MockQuery : Type := mkQuery {
  filters : list Filter;
  orderByField : option string;
  orderByDir : string;
  offsetVal : Z;
  limitVal : option Z   (* [None] is [Infinity] *)
}.

Definition collectionRef : MockQuery := mkQuery [] None "asc" 0 None.

Definition where_ (q : MockQuery) (f o : string) (v : JsVal) : MockQuery :=
  mkQuery (filters q ++ [mkFilter f o v]) (orderByField q) (orderByDir q)
          (offsetVal q) (limitVal q).

Definition orderBy (q : MockQuery) (f dir : string) : MockQuery :=
  mkQuery (filters q) (Some f) dir (offsetVal q) (limitVal q).

Definition offset (q : MockQuery) (n : Z) : MockQuery :=
  mkQuery (filters q) (orderByField q) (orderByDir q) n (limitVal q).

Definition limit (q : MockQuery) (n : Z) : MockQuery :=
  mkQuery (filters q) (orderByField q) (orderByDir q) (offsetVal q) (Some n).

(** The callback of [docs.filter] in [_getFilteredDocs]. *)
Definition matches (f : Filter) (d : string * JsVal) : bool :=
  let val := getProp (snd d) (field f) in
  if op f =? "==" then slotEq val (value f)
  else if op f =? "!=" then negb (slotEq val (value f))
  else if op f =? ">" then jsGt (primitive val) (value f)
  else if op f =? ">=" then jsGe (primitive val) (value f)
  else if op f =? "<" then jsLt (primitive val) (value f)
  else if op f =? "<=" then jsLe (primitive val) (value f)
  else true.

Definition getFilteredDocs (q : MockQuery) (w : World)
  : list (string * JsVal) :=
  fold_left (fun docs f => filter (matches f) docs) (filters q) (collection w).

(** The comparator given to [docs.sort]. *)
Definition compareDocs (fld dir : string) (a b : string * JsVal) : Z :=
  let aVal := primitive (getProp (snd a) fld) in
  let bVal := primitive (getProp (snd b) fld) in
  if jsLt aVal bVal then (if dir =? "asc" then (-1)%Z else 1%Z)
  else if jsGt aVal bVal then (if dir =? "asc" then 1%Z else (-1)%Z)
  else 0%Z.

(** [Array.prototype.sort]: a stable sort, here by insertion. *)
Fixpoint insertSorted {A} (cmp : A -> A -> Z) (x : A) (l : list A) : list A :=
  match l with
  | [] => [x]
  | y :: r =>
      if (cmp x y <=? 0)%Z then x :: y :: r else y :: insertSorted cmp x r
  end.

Definition sort {A} (cmp : A -> A -> Z) (l : list A) : list A :=
  fold_right (insertSorted cmp) [] l.

(** [arr.slice(start, end)], [end] possibly [Infinity]. *)
Definition slice {A} (l : list A) (start : Z) (end_ : option Z) : list A :=
  let len := Z.of_nat (List.length l) in
  let clamp := fun i => if (i <? 0)%Z then Z.max (len + i) 0 else Z.min i len in
  let k := clamp start in
  let final :=
    match end_ with
    | Some e => clamp e
    | None => len
    end in
  firstn (Z.to_nat (final - k)) (skipn (Z.to_nat k) l).

(** [MockQuery.get]. *)
Definition queryGet (q : MockQuery) (w : World) : list MockDocSnapshot :=
  let docs := getFilteredDocs q w in
  let docs :=
    match orderByField q with
    | Some f =>
        if negb (f =? "") then sort (compareDocs f (orderByDir q)) docs
        else docs
    | None => docs
    end in
  let docs :=
    slice docs (offsetVal q) (option_map (Z.add (offsetVal q)) (limitVal q)) in
  map (fun d => mkSnapshot (fst d) (Some (Value (snd d)))) docs.

(** [MockQuery.count().get()], then [.data().count]. *)
Definition queryCount (q : MockQuery) (w : World) : Z :=
  Z.of_nat (List.length (getFilteredDocs q w)).

End MockFirestore.
Import MockFirestore.
Local Open Scope js_scope.

(** ** Numbers of the listing path *)

(** What [Math.ceil(total / limit)] can be: the quotient of two integers
    is taken exactly, and a zero divisor gives an infinity or NaN. *)
Inductive JsNumber : Type :=
| Finite (z : Z)
| PosInfinity
| NegInfinity
| NaN.

(** [Math.ceil(a / b)]. *)
Definition ceilDiv (a b : Z) : JsNumber :=
  if (b =? 0)%Z then
    (if (a =? 0)%Z then NaN
     else if (0 <? a)%Z then PosInfinity else NegInfinity)
  else Finite (- ((- a) / b))%Z.

Definition byte (c : ascii) : nat := nat_of_ascii c.

Definition isDigit (c : ascii) : bool :=
  (48 <=? byte c)%nat && (byte c <=? 57)%nat.

(** White space and line terminators that [parseInt] skips, by the
    length of their UTF-8 encoding. *)
Definition isSpace1 (a : ascii) : bool :=
  ((9 <=? byte a)%nat && (byte a <=? 13)%nat) || (byte a =? 32)%nat.

Definition isSpace2 (a b : ascii) : bool :=
  (byte a =? 194)%nat && (byte b =? 160)%nat.              (* U+00A0 *)

Definition isSpace3 (a b c : ascii) : bool :=
  ((byte a =? 225)%nat && (byte b =? 154)%nat && (byte c =? 128)%nat)
                                                            (* U+1680 *)
  || ((byte a =? 226)%nat && (byte b =? 128)%nat
      && (((128 <=? byte c)%nat && (byte c <=? 138)%nat)    (* U+2000-200A *)
          || (byte c =? 168)%nat || (byte c =? 169)%nat     (* U+2028, U+2029 *)
          || (byte c =? 175)%nat))                          (* U+202F *)
  || ((byte a =? 226)%nat && (byte b =? 129)%nat && (byte c =? 159)%nat)
                                                            (* U+205F *)
  || ((byte a =? 227)%nat && (byte b =? 128)%nat && (byte c =? 128)%nat)
                                                            (* U+3000 *)
  || ((byte a =? 239)%nat && (byte b =? 187)%nat && (byte c =? 191)%nat).
                                                            (* U+FEFF *)

Fixpoint trimStart (s : string) : string :=
  match s with
  | EmptyString => s
  | String a r1 =>
      if isSpace1 a then trimStart r1
      else
        match r1 with
        | EmptyString => s
        | String b r2 =>
            if isSpace2 a b then trimStart r2
            else
              match r2 with
              | EmptyString => s
              | String c r3 => if isSpace3 a b c then trimStart r3 else s
              end
        end
  end.

(** The value of the longest prefix of decimal digits; [None] when
    there is no digit. *)
Fixpoint digits (s : string) (acc : option Z) : option Z :=
  match s with
  | EmptyString => acc
  | String c r =>
      if isDigit c then
        digits r (Some (10 * match acc with Some n => n | None => 0 end
                        + Z.of_nat (byte c - 48))%Z)
      else acc
  end.

(** [parseInt(s, 10)] on a string; [None] is NaN.  (Beyond 2^53 the
    engine rounds the value; here it stays exact.) *)
Definition parseIntString (s : string) : option Z :=
  let s := trimStart s in
  match s with
  | String "-" r => option_map Z.opp (digits r None)
  | String "+" r => digits r None
  | _ => digits s None
  end.

(** [parseInt(v, 10)] on a query parameter: [undefined] is first turned
    into the string ["undefined"], which has no digits. *)
Definition parseInt (v : option string) : option Z :=
  match v with
  | Some s => parseIntString s
  | None => None
  end.

(** [n || d] for a number [n]: NaN and 0 are falsy. *)
Definition numOr (n : option Z) (d : Z) : Z :=
  match n with
  | Some z => if (z =? 0)%Z then d else z
  | None => d
  end.

(** ** The repository (models/ConversationHistory.js) *)

Module ConversationHistory.

(** The callback of [messages.map] in [create] and [appendMessages]. *)
Definition storedMessage (now : string) (m : JsVal) : Result JsVal :=
  if isNullish m then Throw TypeError
  else Ok (JObj [("role", getField m "role");
                 ("content", getField m "content");
                 ("timestamp", jsOr (getField m "timestamp") (JStr now))]).

(** The object literal [doc] of [create], once its messages are
    mapped. *)
Definition newDocument (now : string) (data : JsVal)
           (messages : list JsVal) : JsVal :=
  let metadata := getField data "metadata" in
  JObj [("sessionId", getField data "sessionId");
        ("userId", getField data "userId");
        ("messages", JArr messages);
        ("metadata",
         JObj [("source",
                jsOr (jsAnd metadata (getField metadata "source"))
                     (JStr "web"));
               ("agentModel",
                jsOr (jsAnd metadata (getField metadata "agentModel"))
                     JNull)]);
        ("createdAt", JStr now);
        ("updatedAt", JStr now)].

Record FindResult : Type := mkFindResult {
  conversations : list JsVal;
  total : Z
}.

(** [{ id: doc.id, ...doc.data() }]. *)
Definition toRecord (doc : MockDocSnapshot) : Result JsVal :=
  resBind (data doc) (fun d => Ok (withId (snapId doc) d)).

Section Clock.
(** The successive readings of the system clock, as the strings
    [new Date().toISOString()] returns. *)
Variable clock : nat -> string.

Definition nowISO : M string :=
  fun w => (Ok (clock (tick w)),
            mkWorld (store w) (idCounter w) (S (tick w))).

(** [create] on a single record. *)
Definition createOne (data : JsVal) : M JsVal :=
  now <- nowISO ;;
  if isNullish data then throw TypeError
  else
    messages <- lift (arrayMap (storedMessage now)
                        (jsOr (getField data "messages") (JArr []))) ;;
    let doc := newDocument now data messages in
    id <- add doc ;;
    ret (withId id doc).

Fixpoint create (data : JsVal) : M JsVal :=
  match data with
  | JArr items =>
      results <- (fix each (items : list JsVal) : M (list JsVal) :=
                    match items with
                    | [] => ret []
                    | item :: rest =>
                        r <- create item ;;
                        rs <- each rest ;;
                        ret (r :: rs)
                    end) items ;;
      ret (JArr results)
  | _ => createOne data
  end.

Definition findByUserId (userId : JsVal) (page limit : option Z)
  : M FindResult :=
  let page := match page with Some p => p | None => 1%Z end in
  let limit := match limit with Some l => l | None => 20%Z end in
  let offset := ((page - 1) * limit)%Z in
  fun w =>
    let snapshot :=
      queryGet
        (MockFirestore.limit
           (MockFirestore.offset
              (orderBy (where_ collectionRef "userId" "==" userId)
                       "updatedAt" "desc")
              offset)
           limit) w in
    let count := queryCount (where_ collectionRef "userId" "==" userId) w in
    (resBind (mapM toRecord snapshot)
             (fun conversations => Ok (mkFindResult conversations count)),
     w).

Definition findById (id : string) : M JsVal :=
  doc <- docGet id ;;
  if negb (snapExists doc) then ret JNull
  else lift (toRecord doc).

Definition appendMessages (id : string) (messages : JsVal) : M JsVal :=
  doc <- docGet id ;;
  if negb (snapExists doc) then ret JNull
  else
    now <- nowISO ;;
    newMessages <- lift (arrayMap (storedMessage now) messages) ;;
    docUpdate id [("messages", ArrayUnion newMessages);
                  ("updatedAt", Plain (JStr now))] ;;;
    updated <- docGet id ;;
    lift (toRecord updated).

Definition deleteById (id : string) : M JsVal :=
  doc <- docGet id ;;
  if negb (snapExists doc) then ret JNull
  else
    data <- lift (toRecord doc) ;;
    docDelete id ;;;
    ret data.
End Clock.

(** [filter = {}] is the default of an absent argument. *)
Definition countDocuments (filter : JsVal) : M Z :=
  let filter := match filter with JUndefined => JObj [] | _ => filter end in
  entries <- lift (objectEntries filter) ;;
  let query :=
    fold_left (fun query kv => where_ query (fst kv) "==" (snd kv))
              entries collectionRef in
  fun w => (Ok (queryCount query w), w).

End ConversationHistory.

(** ** The service (services/historyService.js) *)

Module historyService.

Record Pagination : Type := mkPagination {
  page : Z;
  limit : Z;
  total : Z;
  pages : JsNumber
}.

Record ListResult : Type := mkListResult {
  conversations : list JsVal;
  pagination : Pagination
}.

Definition notFound : JsError :=
  ApiErr (mkApiError 404 (JStr "Conversation not found")).

Section Clock.
Variable clock : nat -> string.

(** The parameter is destructured as
    [{ sessionId, userId, messages, metadata }]. *)
Definition createConversation (fields : JsVal) : M JsVal :=
  if isNullish fields then throw TypeError
  else
    ConversationHistory.create clock
      (JObj [("sessionId", getField fields "sessionId");
             ("userId", getField fields "userId");
             ("messages", jsOr (getField fields "messages") (JArr []));
             ("metadata", jsOr (getField fields "metadata") (JObj []))]).

Definition listConversations (userId : JsVal) (page limit : option Z)
  : M ListResult :=
  let page := match page with Some p => p | None => 1%Z end in
  let limit := match limit with Some l => l | None => 20%Z end in
  r <- ConversationHistory.findByUserId userId (Some page) (Some limit) ;;
  ret (mkListResult
         (ConversationHistory.conversations r)
         (mkPagination page limit (ConversationHistory.total r)
                       (ceilDiv (ConversationHistory.total r) limit))).

Definition getConversation (id : string) : M JsVal :=
  conversation <- ConversationHistory.findById id ;;
  if negb (truthy conversation) then throw notFound
  else ret conversation.

Definition appendMessages (id : string) (messages : JsVal) : M JsVal :=
  conversation <- ConversationHistory.appendMessages clock id messages ;;
  if negb (truthy conversation) then throw notFound
  else ret conversation.

Definition deleteConversation (id : string) : M JsVal :=
  conversation <- ConversationHistory.deleteById id ;;
  if negb (truthy conversation) then throw notFound
  else ret conversation.
End Clock.

End historyService.

(** ** The HTTP layer *)

Record Request : Type := mkRequest {
  body : JsVal;                      (* [req.body], parsed JSON *)
  query : list (string * string);    (* [req.query] *)
  id : string                        (* [req.params.id] *)
}.

Fixpoint param (k : string) (q : list (string * string)) : option string :=
  match q with
  | [] => None
  | (k', v) :: r => if k =? k' then Some v else param k r
  end.

Inductive ResponseBody : Type :=
| Json (v : JsVal)
| JsonList (r : historyService.ListResult)
| JsonError (msg : JsVal)            (* [{ error: { message } }] *)
| EngineError (e : JsError)          (* the same, with the message the
                                        engine gave a built-in error *)
| NoBody.

Record Response : Type := mkResponse {
  status : Z;
  payload : ResponseBody
}.

(** middleware/errorHandler.js.  A built-in error has no [statusCode]
    and brings the engine's own wording as its message, which is sent
    as it is; the stack, which is added in development mode, is left
    out. *)
Definition errorHandler (err : JsError) : Response :=
  match err with
  | ApiErr e =>
      mkResponse (if (statusCode e =? 0)%Z then 500%Z else statusCode e)
                 (JsonError (jsOr (message e) (JStr "Internal Server Error")))
  | Error msg =>
      mkResponse 500 (JsonError (jsOr (JStr msg) (JStr "Internal Server Error")))
  | TypeError => mkResponse 500 (EngineError TypeError)
  | SyntaxError => mkResponse 500 (EngineError SyntaxError)
  end.

(** A handler always answers: [try { ... } catch (err) { next(err) }]. *)
Definition Handler : Type := World -> Response * World.

Definition tryCatch (m : M Response) : Handler :=
  fun w =>
    match m w with
    | (Ok r, w') => (r, w')
    | (Throw e, w') => (errorHandler e, w')
    end.

(** controllers/historyController.js, over the service it requires. *)
Module historyController.

Definition badRequest (msg : string) : JsError :=
  ApiErr (mkApiError 400 (JStr msg)).

Section Service.
Variable listConversations : JsVal -> option Z -> option Z
                             -> M historyService.ListResult.
Variable appendMessages : string -> JsVal -> M JsVal.

Definition list (req : Request) : Handler :=
  tryCatch
    (let userId := param "userId" (query req) in
     let page := param "page" (query req) in
     let limit := param "limit" (query req) in
     match userId with
     | None => throw (badRequest "userId query parameter is required")
     | Some u =>
         if negb (truthy (JStr u)) then
           throw (badRequest "userId query parameter is required")
         else
           result <- listConversations (JStr u)
                       (Some (numOr (parseInt page) 1))
                       (Some (numOr (parseInt limit) 20)) ;;
           ret (mkResponse 200 (JsonList result))
     end).

Definition update (req : Request) : Handler :=
  tryCatch
    (if isNullish (body req) then throw TypeError
     else
       let messages := getField (body req) "messages" in
       if negb (truthy messages) || negb (isArray messages)
          || match messages with
             | JArr l => (List.length l =? 0)%nat
             | _ => false
             end
       then throw (badRequest
                     "messages array is required and must not be empty")
       else
         conversation <- appendMessages (id req) messages ;;
         ret (mkResponse 200 (Json conversation))).
End Service.

Section Records.
Variable createConversation : JsVal -> M JsVal.
Variable getConversation : string -> M JsVal.
Variable deleteConversation : string -> M JsVal.

Definition create (req : Request) : Handler :=
  tryCatch
    (if isNullish (body req) then throw TypeError
     else
       let sessionId := getField (body req) "sessionId" in
       let userId := getField (body req) "userId" in
       let messages := getField (body req) "messages" in
       let metadata := getField (body req) "metadata" in
       if negb (truthy sessionId) || negb (truthy userId) then
         throw (badRequest "sessionId and userId are required")
       else
         conversation <- createConversation
                           (JObj [("sessionId", sessionId);
                                  ("userId", userId);
                                  ("messages", messages);
                                  ("metadata", metadata)]) ;;
         ret (mkResponse 201 (Json conversation))).

Definition getOne (req : Request) : Handler :=
  tryCatch
    (conversation <- getConversation (id req) ;;
     ret (mkResponse 200 (Json conversation))).

Definition remove (req : Request) : Handler :=
  tryCatch
    (deleteConversation (id req) ;;;
     ret (mkResponse 204 NoBody)).
End Records.

End historyController.

(** ** The agent proxy (services/agentService.js) *)

Module agentService.

(** How a call of the HTTP client ends: with a response in the 2xx
    range, or rejected, either with the upstream's error response
    ([err.response], status and body) or without any. *)
Inductive AxiosResult : Type :=
| Resolved (data : JsVal)
| Rejected (response : option (Z * JsVal)).

Definition unavailable : JsError :=
  ApiErr (mkApiError 502 (JStr "Agent Server unavailable")).

Section Client.
(** [agentClient.post] and [agentClient.get]. *)
Variable post : string -> JsVal -> AxiosResult.
Variable get : string -> AxiosResult.

Definition chat (payload : JsVal) : Result JsVal :=
  match post "/api/chat" payload with
  | Resolved data => Ok data
  | Rejected (Some (status, data)) =>
      Throw (ApiErr (mkApiError status
               (jsOr (optField (optField data "error") "message")
                     (JStr "Agent Server error"))))
  | Rejected None => Throw unavailable
  end.

Definition getStatus : Result JsVal :=
  match get "/api/health" with
  | Resolved data => Ok data
  | Rejected _ => Throw unavailable
  end.
End Client.

End agentService.

(** controllers/agentController.js, over the service it requires.  The
    proxy keeps no state of its own: a handler is its response. *)
Module agentController.

Definition respond (r : Result Response) : Response :=
  match r with
  | Ok res => res
  | Throw e => errorHandler e
  end.

Section Service.
Variable chatService : JsVal -> Result JsVal.
Variable getStatus : Result JsVal.

Definition chat (req : Request) : Response :=
  respond
    (if isNullish (body req) then Throw TypeError
     else
       let message := getField (body req) "message" in
       let sessionId := getField (body req) "sessionId" in
       let userId := getField (body req) "userId" in
       if negb (truthy message) then
         Throw (ApiErr (mkApiError 400 (JStr "message is required")))
       else
         resBind (chatService (JObj [("message", message);
                                     ("sessionId", sessionId);
                                     ("userId", userId)]))
                 (fun result => Ok (mkResponse 200 (Json result)))).

Definition status : Response :=
  respond (resBind getStatus
                   (fun result => Ok (mkResponse 200 (Json result)))).
End Service.

End agentController.

(** ** Histories of the store *)

(** The calls that change the store, and the stores they lead to from
    the empty one ([clearStore]). *)
Inductive Op : Type :=
| Create (data : JsVal)
| AppendMessages (id : string) (messages : JsVal)
| DeleteById (id : string).

Definition emptyWorld : World := mkWorld None 0 0.

(** The one call that writes to a built-in that other objects read. *)
Definition writesPrototype (o : Op) : bool :=
  match o with
  | AppendMessages id _ => id =? "__proto__"
  | _ => false
  end.

Section Histories.
Variable clock : nat -> string.

Definition step (w : World) (o : Op) : World :=
  match o with
  | Create data => snd (ConversationHistory.create clock data w)
  | AppendMessages id messages =>
      snd (ConversationHistory.appendMessages clock id messages w)
  | DeleteById id => snd (ConversationHistory.deleteById id w)
  end.

Definition run (ops : list Op) (w : World) : World := fold_left step ops w.

(** The stores that the calls lead to while [Object.prototype] is as
    the engine made it: the histories hold no append under [__proto__],
    which would assign to [Object.prototype] itself.  They reach every
    store that any history reaches ([reachable_any_history]). *)
Definition reachable (w : World) : Prop :=
  exists ops, Forall (fun o => writesPrototype o = false) ops
              /\ run ops emptyWorld = w.

(** The clock never runs backwards: its readings, as ISO-8601
    strings, do not decrease. *)
Definition monotone : Prop :=
  forall i j, (i <= j)%nat -> String.leb (clock i) (clock j) = true.
End Histories.

(** ** Vocabulary of the statements *)

(** An element of a copied array. *)
Definition cloneElem (x : JsVal) : JsVal :=
  match x with
  | JUndefined => JNull
  | _ => jsonClone x
  end.

(** The properties of a copied object. *)
Fixpoint cloneProps (ps : list (string * JsVal)) : list (string * JsVal) :=
  match ps with
  | [] => []
  | (k, x) :: r =>
      match x with
      | JUndefined => cloneProps r
      | _ => (k, jsonClone x) :: cloneProps r
      end
  end.

(** The message object the repository builds from a caller's message. *)
Definition stamped (now : string) (m : JsVal) : JsVal :=
  JObj [("role", getField m "role");
        ("content", getField m "content");
        ("timestamp", jsOr (getField m "timestamp") (JStr now))].

(** The loop of [create] over the items of an array, by name. *)
Definition createEach (clock : nat -> string)
  : list JsVal -> M (list JsVal) :=
  fix each (items : list JsVal) : M (list JsVal) :=
    match items with
    | [] => ret []
    | item :: rest =>
        r <- ConversationHistory.create clock item ;;
        rs <- each rest ;;
        ret (r :: rs)
    end.

(** The documents of one owner. *)
Definition ownedBy (userId : JsVal) (d : string * JsVal) : bool :=
  strictEq (getField (snd d) "userId") userId.

(** [a.updatedAt >= b.updatedAt]. *)
Definition notOlder (a b : JsVal) : Prop :=
  jsGe (getField a "updatedAt") (getField b "updatedAt") = true.

(** The shape of a stored conversation at a time when [t] readings of
    the clock have been taken. *)
Definition wfDoc (clock : nat -> string) (t : nat) (d : JsVal) : Prop :=
  exists ps,
    d = JObj ps /\ NoDup (map fst ps)
    /\ (exists msgs, lookupProp "messages" ps = JArr msgs)
    /\ (exists i j, (i <= j < t)%nat
                    /\ lookupProp "createdAt" ps = JStr (clock i)
                    /\ lookupProp "updatedAt" ps = JStr (clock j)).

Definition wfStore (clock : nat -> string) (w : World) : Prop :=
  Forall (fun e => wfDoc clock (tick w) (snd e)) (collection w).

(** The stored document seen as the record the repository returns. *)
Definition recordOf (e : string * JsVal) : JsVal :=
  withId (fst e) (jsonClone (snd e)).

(** [{ id, ...data() }] for any entry of the collection. *)
Definition entryRecord (e : string * JsVal) : JsVal :=
  withId (fst e) (if truthy (snd e) then jsonClone (snd e) else JUndefined).

(** The key of a property, when its value is defined. *)
Definition definedKey (k : string) (v : JsVal) : list string :=
  match v with
  | JUndefined => []
  | _ => [k]
  end.

(** [v.messages.length]. *)
Definition messageCount (v : JsVal) : option nat :=
  match getField v "messages" with
  | JArr l => Some (List.length l)
  | _ => None
  end.

(** A document whose [updatedAt] is a string. *)
Definition hasTimestamp (e : string * JsVal) : Prop :=
  exists s, getField (snd e) "updatedAt" = JStr s.

(** The ids under which the store holds documents. *)
Definition storedIds (w : World) : list string := map fst (collection w).

(** An id the store has generated so far. *)
Definition generatedId (w : World) (id : string) : Prop :=
  exists k, (1 <= k <= idCounter w)%nat /\ id = mockId k.

(** An id the store generated after the state [w0]. *)
Definition generatedSince (w0 w : World) (id : string) : Prop :=
  exists k, (idCounter w0 < k <= idCounter w)%nat /\ id = mockId k.

(** A single record (not a batch) whose messages, if any, are values
    other than null and undefined. *)
Definition singleRecord (data : JsVal) : Prop :=
  isArray data = false /\ isNullish data = false
  /\ exists msgs, jsOr (getField data "messages") (JArr []) = JArr msgs
                  /\ Forall (fun m => isNullish m = false) msgs.

(** The reading number [t] of the clock is strictly later than every
    reading before it. *)
Definition strictlyLater (clock : nat -> string) (t : nat) : Prop :=
  forall j, (j < t)%nat -> String.ltb (clock j) (clock t) = true.

(** The conversations on one page of the listing of an owner. *)
Definition pageOf (userId : JsVal) (limit : Z) (w : World) (page : nat)
  : list JsVal :=
  match fst (ConversationHistory.findByUserId
               userId (Some (Z.of_nat page)) (Some limit) w) with
  | Ok r => ConversationHistory.conversations r
  | Throw _ => []
  end.

(** Every entry of a filter object holds of the document. *)
Definition matchesAll (entries : list (string * JsVal)) (d : string * JsVal)
  : bool :=
  forallb (fun kv => slotEq (getProp (snd d) (fst kv)) (snd kv)) entries.

(** A value as [JSON.stringify] can write it: no [undefined] inside. *)
Fixpoint jsonValue (v : JsVal) : bool :=
  match v with
  | JUndefined => false
  | JArr l => forallb jsonValue l
  | JObj ps => forallb (fun kv => jsonValue (snd kv)) ps
  | _ => true
  end.

(** ** Sample data, after the test-suite *)

(** A clock that is read within one millisecond and the next. *)
Definition sampleClock (n : nat) : string :=
  match n with
  | O => "2026-01-01T00:00:00.000Z"
  | S _ => "2026-01-01T00:00:00.001Z"
  end.

Definition chatMessage (role content : string) : JsVal :=
  JObj [("role", JStr role); ("content", JStr content)].

Definition samplePayload : JsVal :=
  JObj [("sessionId", JStr "session-1");
        ("userId", JStr "user-1");
        ("messages", JArr [chatMessage "user" "Hello"]);
        ("metadata", JObj [("source", JStr "web")])].

Definition threeConversations : JsVal :=
  JArr [JObj [("sessionId", JStr "s1"); ("userId", JStr "user-1");
              ("messages", JArr [])];
        JObj [("sessionId", JStr "s2"); ("userId", JStr "user-1");
              ("messages", JArr [])];
        JObj [("sessionId", JStr "s3"); ("userId", JStr "user-2");
              ("messages", JArr [])]].

(** The store after [create(samplePayload)], and after the three
    records of the listing tests. *)
Definition oneStored : World := run sampleClock [Create samplePayload] emptyWorld.
Definition threeStored : World :=
  run sampleClock [Create threeConversations] emptyWorld.

(** [PUT /history/mock-id-1] with [{ messages: [] }]. *)
Definition emptyMessagesRequest : Request :=
  mkRequest (JObj [("messages", JArr [])]) [] "mock-id-1".

(** [GET /history?userId=user-1&page=abc&limit=0]. *)
Definition badPagingRequest : Request :=
  mkRequest JUndefined
            [("userId", "user-1"); ("page", "abc"); ("limit", "0")] "".

(** An upstream that answers 503 with an error body, one that answers
    422 as in the test-suite, and one that cannot be reached. *)
Definition overloaded : agentService.AxiosResult :=
  agentService.Rejected
    (Some (503%Z, JObj [("error", JObj [("message", JStr "overloaded")])])).

Definition badInput : agentService.AxiosResult :=
  agentService.Rejected
    (Some (422%Z, JObj [("error", JObj [("message", JStr "Bad input")])])).

Definition unreachable : agentService.AxiosResult :=
  agentService.Rejected None.

(** An error response in the format the agent's README documents. *)
Definition standardError : agentService.AxiosResult :=
  agentService.Rejected
    (Some (400%Z, JObj [("error", JStr "Bad Request");
                        ("status_code", JNum 400);
                        ("details", JStr "Specific error message")])).

(** [PUT /history/nonexistent-id], [PUT /history/constructor] and
    [PUT /history/mock-id-1] with one message, and
    [GET /history?userId=user-1&page=1&limit=1]. *)
Definition putUnknown : Request :=
  mkRequest (JObj [("messages", JArr [chatMessage "user" "test"])]) []
            "nonexistent-id".

Definition putConstructor : Request :=
  mkRequest (JObj [("messages", JArr [chatMessage "user" "test"])]) []
            "constructor".

Definition putReply : Request :=
  mkRequest (JObj [("messages", JArr [chatMessage "assistant" "Hi there!"])])
            [] "mock-id-1".

Definition getFirstPage : Request :=
  mkRequest JUndefined
            [("userId", "user-1"); ("page", "1"); ("limit", "1")] "".

(** The decimal writing of a natural number, as in a query string. *)
Definition decimal (n : nat) : string := indexKey n.

Definition startsWithDigit (s : string) : bool :=
  match s with
  | String c _ => isDigit c
  | EmptyString => false
  end.

(** The payload the agent controller hands to the proxy. *)
Definition forwarded (req : Request) : JsVal :=
  JObj [("message", getField (body req) "message");
        ("sessionId", getField (body req) "sessionId");
        ("userId", getField (body req) "userId")].

(** [POST /history] with the sample payload, and without a user id. *)
Definition postSample : Request := mkRequest samplePayload [] "".

Definition postWithoutUser : Request :=
  mkRequest (JObj [("sessionId", JStr "session-1")]) [] "".

(** [GET] and [DELETE /history/mock-id-1], the same under two names
    that every object inherits, and [GET /history] without a user
    id. *)
Definition requestOne : Request := mkRequest JUndefined [] "mock-id-1".

Definition requestConstructor : Request :=
  mkRequest JUndefined [] "constructor".

Definition requestPrototype : Request := mkRequest JUndefined [] "__proto__".

Definition listWithoutUser : Request :=
  mkRequest JUndefined [("page", "1")] "".

(** [PUT /history/mock-id-1] with a null among the messages. *)
Definition putWithNull : Request :=
  mkRequest (JObj [("messages", JArr [chatMessage "user" "Hi"; JNull])]) []
            "mock-id-1".

(** [POST /agent/chat] with and without a message. *)
Definition chatRequest : Request :=
  mkRequest (JObj [("message", JStr "Schedule a meeting");
                   ("sessionId", JStr "s1"); ("userId", JStr "u1");
                   ("debug", JBool true)]) [] "".

Definition chatWithoutMessage : Request := mkRequest (JObj []) [] "".

(** A clock read in four successive milliseconds. *)
Definition msClock (n : nat) : string :=
  match n with
  | 0 => "2026-01-01T00:00:00.000Z"
  | 1 => "2026-01-01T00:00:00.001Z"
  | 2 => "2026-01-01T00:00:00.002Z"
  | _ => "2026-01-01T00:00:00.003Z"
  end%nat.

(** A conversation whose one message has no role. *)
Definition withoutRole : JsVal :=
  JObj [("sessionId", JStr "session-1"); ("userId", JStr "user-1");
        ("messages", JArr [JObj [("content", JStr "Hello")]])].

(** A record as the listing tests create it. *)
Definition sessionRecord (sessionId userId : string) : JsVal :=
  JObj [("sessionId", JStr sessionId); ("userId", JStr userId);
        ("messages", JArr [])].

(** The store after [create(samplePayload)] and the deletion of the
    conversation created. *)
Definition afterDelete : World :=
  run sampleClock [Create samplePayload; DeleteById "mock-id-1"] emptyWorld.

(** ** Properties of JavaScript values *)

(** Distinctness of a literal list of keys. *)
Ltac distinct_keys :=
  repeat (constructor; [simpl; intuition discriminate|]); constructor.

(** The value of a literal decimal digit. *)
Ltac digit_value :=
  match goal with
  | |- context [(byte ?c - 48)%nat] =>
      let x := eval vm_compute in (byte c - 48)%nat in
      change (byte c - 48)%nat with x
  end.

Lemma jsonClone_arr (l : list JsVal) :
  jsonClone (JArr l) = JArr (map cloneElem l).
Proof. reflexivity. Qed.

Lemma jsonClone_obj (ps : list (string * JsVal)) :
  jsonClone (JObj ps) = JObj (cloneProps ps).
Proof. reflexivity. Qed.

Lemma lookupProp_absent k ps :
  ~ In k (map fst ps) -> lookupProp k ps = JUndefined.
Proof.
  induction ps as [|[k' v] r IH]; simpl; intros H; [reflexivity|].
  destruct (String.eqb_spec k k') as [->|Hne].
  - exfalso. apply H. now left.
  - apply IH. intros Hin. apply H. now right.
Qed.

Lemma lookupProp_assign_same k v ps :
  lookupProp k (assignProp k v ps) = v.
Proof.
  induction ps as [|[k' v'] r IH]; simpl.
  - now rewrite String.eqb_refl.
  - destruct (String.eqb_spec k k') as [->|Hne]; simpl.
    + now rewrite String.eqb_refl.
    + destruct (String.eqb_spec k k'); [contradiction|exact IH].
Qed.

Lemma lookupProp_assign_other k k' v ps :
  k <> k' -> lookupProp k' (assignProp k v ps) = lookupProp k' ps.
Proof.
  intros Hne.
  induction ps as [|[k0 v0] r IH]; simpl.
  - destruct (String.eqb_spec k' k); [congruence|reflexivity].
  - destruct (String.eqb_spec k k0) as [->|Hk]; simpl.
    + destruct (String.eqb_spec k' k0); [congruence|reflexivity].
    + destruct (String.eqb_spec k' k0); [reflexivity|exact IH].
Qed.

Lemma assignProp_keys_in k v ps :
  In k (map fst ps) -> map fst (assignProp k v ps) = map fst ps.
Proof.
  induction ps as [|[k0 v0] r IH]; simpl; intros Hin; [contradiction|].
  destruct (String.eqb_spec k k0) as [->|Hk]; simpl; [reflexivity|].
  f_equal. apply IH. destruct Hin; [congruence|assumption].
Qed.

Lemma assignProp_keys_fresh k v ps :
  ~ In k (map fst ps) -> map fst (assignProp k v ps) = map fst ps ++ [k].
Proof.
  induction ps as [|[k0 v0] r IH]; simpl; intros Hin; [reflexivity|].
  destruct (String.eqb_spec k k0) as [->|Hk]; simpl.
  - exfalso. apply Hin. now left.
  - f_equal. apply IH. intros H. apply Hin. now right.
Qed.

Lemma assignProp_NoDup k v ps :
  NoDup (map fst ps) -> NoDup (map fst (assignProp k v ps)).
Proof.
  intros Hnd.
  destruct (in_dec string_dec k (map fst ps)) as [Hin|Hout].
  - now rewrite assignProp_keys_in.
  - rewrite assignProp_keys_fresh by assumption.
    apply NoDup_app; [assumption|repeat constructor; intros []| ].
    intros x Hx [<-|[]]. contradiction.
Qed.

Lemma cloneProps_keys_incl ps k :
  In k (map fst (cloneProps ps)) -> In k (map fst ps).
Proof.
  induction ps as [|[k' x] r IH]; simpl; [tauto|].
  destruct x; simpl; intuition.
Qed.

Lemma cloneProps_NoDup ps :
  NoDup (map fst ps) -> NoDup (map fst (cloneProps ps)).
Proof.
  induction ps as [|[k x] r IH]; simpl; intros Hnd; [constructor|].
  inversion Hnd as [|? ? Hout Hr]; subst.
  destruct x; simpl; auto;
    (constructor; [intros Hin; apply Hout; now apply cloneProps_keys_incl
                  | now apply IH]).
Qed.

(** A defined property reads the same, copied, in the copy. *)
Lemma lookupProp_cloneProps k ps :
  lookupProp k ps <> JUndefined ->
  lookupProp k (cloneProps ps) = jsonClone (lookupProp k ps).
Proof.
  induction ps as [|[k' x] r IH]; simpl; intros H; [congruence|].
  destruct (String.eqb_spec k k') as [->|Hne].
  - destruct x; simpl; rewrite ?String.eqb_refl; try reflexivity; congruence.
  - destruct x; simpl; auto;
      (destruct (String.eqb_spec k k'); [contradiction|auto]).
Qed.

(** With distinct keys the same holds of an absent property. *)
Lemma lookupProp_cloneProps_NoDup k ps :
  NoDup (map fst ps) ->
  lookupProp k (cloneProps ps) = jsonClone (lookupProp k ps).
Proof.
  intros Hnd.
  destruct (lookupProp k ps) eqn:E;
    try (rewrite <- E; apply lookupProp_cloneProps; congruence).
  simpl. clear -Hnd E. revert E.
  induction ps as [|[k' x] r IH]; simpl; intros E; [reflexivity|].
  inversion Hnd as [|? ? Hout Hr]; subst.
  destruct (String.eqb_spec k k') as [->|Hne].
  - subst x. apply lookupProp_absent.
    intros Hin. apply Hout. now apply cloneProps_keys_incl.
  - destruct x; simpl; auto;
      (destruct (String.eqb_spec k k'); [contradiction|auto]).
Qed.

Lemma lookupProp_spread k ps acc :
  NoDup (map fst ps) ->
  lookupProp k (fold_left (fun a kv => assignProp (fst kv) (snd kv) a) ps acc)
  = if in_dec string_dec k (map fst ps) then lookupProp k ps
    else lookupProp k acc.
Proof.
  revert acc.
  induction ps as [|[k1 v1] r IH]; intros acc Hnd; [reflexivity|].
  inversion Hnd as [|? ? Hout Hr]; subst.
  cbn [fold_left fst snd]. rewrite IH by assumption.
  cbn [lookupProp].
  destruct (in_dec string_dec k (map fst r)) as [Hin|Hnin];
    destruct (in_dec string_dec k (map fst ((k1, v1) :: r))) as [Hin'|Hnin'];
    cbn [map fst] in *.
  - destruct (String.eqb_spec k k1) as [->|Hne]; [contradiction|reflexivity].
  - exfalso. apply Hnin'. now right.
  - destruct Hin' as [->|Hin']; [|contradiction].
    now rewrite lookupProp_assign_same, String.eqb_refl.
  - apply lookupProp_assign_other. intros ->. apply Hnin'. now left.
Qed.

(** ** Properties of the store *)

Lemma lookupDoc_assign_same id d c :
  lookupDoc id (assignProp id d c) = Some d.
Proof.
  induction c as [|[k v] r IH]; simpl.
  - now rewrite String.eqb_refl.
  - destruct (String.eqb_spec id k) as [->|Hne]; simpl.
    + now rewrite String.eqb_refl.
    + destruct (String.eqb_spec id k); [contradiction|exact IH].
Qed.

Lemma lookupDoc_In id d c : lookupDoc id c = Some d -> In (id, d) c.
Proof.
  induction c as [|[k v] r IH]; simpl; [discriminate|].
  destruct (String.eqb_spec id k) as [->|Hne].
  - intros [= ->]. now left.
  - intros H. right. now apply IH.
Qed.

Lemma lookupDoc_replace_same id d d0 c :
  lookupDoc id c = Some d0 -> lookupDoc id (replaceDoc id d c) = Some d.
Proof.
  induction c as [|[k v] r IH]; simpl; [discriminate|].
  destruct (String.eqb_spec id k) as [->|Hne]; simpl.
  - now rewrite String.eqb_refl.
  - destruct (String.eqb_spec id k); [contradiction|exact IH].
Qed.

Section StoreForall.
Variable Q : JsVal -> Prop.
Local Abbreviation P := (fun e : string * JsVal => Q (snd e)).

Lemma Forall_assignProp id d c :
  Forall P c -> Q d -> Forall P (assignProp id d c).
Proof.
  intros Hc Hd.
  induction c as [|[k v] r IH]; simpl.
  - constructor; [exact Hd|constructor].
  - inversion Hc; subst.
    destruct (id =? k); constructor; auto.
Qed.

Lemma Forall_replaceDoc id d c :
  Forall P c -> Q d -> Forall P (replaceDoc id d c).
Proof.
  intros Hc Hd.
  induction c as [|[k v] r IH]; simpl; [constructor|].
  inversion Hc; subst.
  destruct (id =? k); constructor; auto.
Qed.

Lemma Forall_removeDoc id c : Forall P c -> Forall P (removeDoc id c).
Proof.
  intros Hc.
  induction c as [|[k v] r IH]; simpl; [constructor|].
  inversion Hc; subst.
  destruct (id =? k); [assumption|constructor; auto].
Qed.

Lemma Forall_lookupDoc id d c : Forall P c -> lookupDoc id c = Some d -> Q d.
Proof.
  intros Hc Hl. apply lookupDoc_In in Hl.
  rewrite Forall_forall in Hc. exact (Hc _ Hl).
Qed.
End StoreForall.

Lemma collection_same_store w n t :
  collection (mkWorld (store w) n t) = collection w.
Proof. reflexivity. Qed.

Lemma collection_some c n t : collection (mkWorld (Some c) n t) = c.
Proof. reflexivity. Qed.

(** *** Names the collection inherits *)

Lemma getProp_plain o k :
  inherited k = None -> getProp o k = Value (getField o k).
Proof.
  intros Hk. destruct o as [| | | | | |ps]; try reflexivity.
  cbn [getProp getField]. rewrite Hk.
  destruct (hasOwn k ps) eqn:E; [reflexivity|].
  f_equal. symmetry. apply lookupProp_absent.
  unfold hasOwn in E. intros Hin.
  assert (existsb (String.eqb k) (map fst ps) = true) as Ht; [|congruence].
  apply existsb_exists. exists k. split; [exact Hin|apply String.eqb_refl].
Qed.

Lemma mockId_plain n : inherited (mockId n) = None.
Proof. reflexivity. Qed.

Lemma entry_stored id w d :
  lookupDoc id (collection w) = Some d -> entry id w = Some (Value d).
Proof.
  unfold entry, collection. destruct (store w) as [c|]; [|discriminate].
  now intros ->.
Qed.

Lemma entry_missing id w :
  lookupDoc id (collection w) = None -> inherited id = None ->
  entry id w = None.
Proof.
  unfold entry, collection. destruct (store w) as [c|]; [|reflexivity].
  now intros -> ->.
Qed.

Lemma entry_no_collection id w : store w = None -> entry id w = None.
Proof. unfold entry. now intros ->. Qed.

Lemma entry_inherited id w c b :
  store w = Some c -> lookupDoc id c = None -> inherited id = Some b ->
  entry id w = Some (Inherited b).
Proof. unfold entry. now intros -> -> ->. Qed.

Lemma entry_same_store id w n t :
  entry id (mkWorld (store w) n t) = entry id w.
Proof. reflexivity. Qed.

(** The record of a document of the collection. *)
Lemma toRecord_value id d :
  ConversationHistory.toRecord (mkSnapshot id (Some (Value d)))
  = Ok (entryRecord (id, d)).
Proof. reflexivity. Qed.

Lemma mapM_toRecord docs :
  mapM ConversationHistory.toRecord
       (map (fun d => mkSnapshot (fst d) (Some (Value (snd d)))) docs)
  = Ok (map entryRecord docs).
Proof.
  induction docs as [|[id d] r IH]; [reflexivity|].
  cbn [map mapM fst snd]. rewrite toRecord_value, IH. reflexivity.
Qed.

Lemma entry_cases id w :
  (exists d, lookupDoc id (collection w) = Some d
             /\ entry id w = Some (Value d))
  \/ (lookupDoc id (collection w) = None
      /\ (entry id w = None \/ exists b, entry id w = Some (Inherited b))).
Proof.
  unfold entry, collection.
  destruct (store w) as [c|]; [|right; split; [reflexivity|now left]].
  destruct (lookupDoc id c) as [d|]; [left; eauto|right].
  split; [reflexivity|].
  destruct (inherited id) as [b|]; [right; now exists b|left; reflexivity].
Qed.

Lemma wfDoc_later clock t t' d :
  (t <= t')%nat -> wfDoc clock t d -> wfDoc clock t' d.
Proof.
  intros Hle (ps & -> & Hnd & Hm & i & j & Hij & Hc & Hu).
  exists ps. repeat split; auto.
  exists i, j. repeat split; auto; lia.
Qed.

Lemma wfStore_later clock w w' :
  collection w' = collection w -> (tick w <= tick w')%nat ->
  wfStore clock w -> wfStore clock w'.
Proof.
  unfold wfStore. intros -> Hle H.
  eapply Forall_impl; [|exact H].
  intros e He. eapply wfDoc_later; eauto.
Qed.

(** ** Properties of the repository *)

Lemma mapM_storedMessage now l :
  Forall (fun m => isNullish m = false) l ->
  mapM (ConversationHistory.storedMessage now) l = Ok (map (stamped now) l).
Proof.
  induction 1 as [|m r Hm Hr IH]; simpl; [reflexivity|].
  unfold ConversationHistory.storedMessage at 1. rewrite Hm. simpl.
  rewrite IH. reflexivity.
Qed.


Section RepositoryFacts.
Variable clock : nat -> string.

(** What a successful [create] of one record does. *)
Lemma createOne_ok data w messages :
  isNullish data = false ->
  arrayMap (ConversationHistory.storedMessage (clock (tick w)))
           (jsOr (getField data "messages") (JArr [])) = Ok messages ->
  let doc := ConversationHistory.newDocument (clock (tick w)) data messages in
  let id := mockId (S (idCounter w)) in
  ConversationHistory.createOne clock data w
  = (Ok (withId id doc),
     mkWorld (Some (assignProp id (jsonClone doc) (collection w)))
             (S (idCounter w)) (S (tick w))).
Proof.
  intros Hn Hm.
  unfold ConversationHistory.createOne, bind, ConversationHistory.nowISO.
  rewrite Hn.
  unfold lift, add, ret. cbn [tick idCounter store collection].
  rewrite Hm. reflexivity.
Qed.

(** In every other case it throws, and only the clock has been read. *)
Lemma createOne_cases data w :
  (exists e, ConversationHistory.createOne clock data w
             = (Throw e, mkWorld (store w) (idCounter w) (S (tick w))))
  \/ (exists messages,
        isNullish data = false
        /\ arrayMap (ConversationHistory.storedMessage (clock (tick w)))
                    (jsOr (getField data "messages") (JArr [])) = Ok messages).
Proof.
  destruct (isNullish data) eqn:Hn.
  - left. exists TypeError.
    unfold ConversationHistory.createOne, bind, ConversationHistory.nowISO.
    now rewrite Hn.
  - destruct (arrayMap (ConversationHistory.storedMessage (clock (tick w)))
                       (jsOr (getField data "messages") (JArr [])))
      as [messages|e] eqn:Hm.
    + right. now exists messages.
    + left. exists e.
      unfold ConversationHistory.createOne, bind, ConversationHistory.nowISO.
      rewrite Hn. unfold lift. cbn [tick]. now rewrite Hm.
Qed.
End RepositoryFacts.

Lemma newDocument_keys now data messages :
  objectKeys (ConversationHistory.newDocument now data messages)
  = ["sessionId"; "userId"; "messages"; "metadata"; "createdAt"; "updatedAt"].
Proof. reflexivity. Qed.

(** The stored copy of a new document: its fields. *)
Lemma newDocument_stored now data messages :
  exists ps,
    jsonClone (ConversationHistory.newDocument now data messages) = JObj ps
    /\ NoDup (map fst ps)
    /\ lookupProp "messages" ps = JArr (map cloneElem messages)
    /\ lookupProp "createdAt" ps = JStr now
    /\ lookupProp "updatedAt" ps = JStr now
    /\ lookupProp "userId" ps = jsonClone (getField data "userId")
    /\ lookupProp "metadata" ps
       = jsonClone (getField (ConversationHistory.newDocument now data messages)
                             "metadata").
Proof.
  unfold ConversationHistory.newDocument.
  rewrite jsonClone_obj.
  eexists. split; [reflexivity|].
  split; [apply cloneProps_NoDup; distinct_keys|].
  repeat split;
    try (rewrite lookupProp_cloneProps; [reflexivity|simpl; discriminate]).
  apply lookupProp_cloneProps_NoDup. distinct_keys.
Qed.

Section RepositoryInvariant.
Variable clock : nat -> string.

Lemma newDocument_wf t data messages :
  wfDoc clock (S t)
        (jsonClone (ConversationHistory.newDocument (clock t) data messages)).
Proof.
  destruct (newDocument_stored (clock t) data messages)
    as (ps & -> & Hnd & Hm & Hc & Hu & _).
  exists ps. repeat split; auto.
  - eexists; eassumption.
  - exists t, t. repeat split; auto.
Qed.

Lemma createOne_wf data w :
  wfStore clock w ->
  wfStore clock (snd (ConversationHistory.createOne clock data w)).
Proof.
  intros Hw.
  destruct (createOne_cases clock data w) as [(e & ->)|(ms & Hn & Hm)].
  - simpl. eapply wfStore_later; [| |exact Hw]; simpl; auto.
  - rewrite (createOne_ok clock data w ms Hn Hm). simpl.
    unfold wfStore. cbn [collection store tick].
    apply Forall_assignProp.
    + eapply Forall_impl; [|exact Hw].
      intros e He. eapply wfDoc_later; [|exact He]. lia.
    + apply newDocument_wf.
Qed.

(** What [appendMessages] does to a well-formed existing document. *)
Lemma appendMessages_ok id msgs w ps old :
  lookupDoc id (collection w) = Some (JObj ps) ->
  lookupProp "messages" ps = JArr old ->
  Forall (fun m => isNullish m = false) msgs ->
  let now := clock (tick w) in
  let existing' :=
    JObj (assignProp "updatedAt" (JStr now)
            (assignProp "messages" (JArr (old ++ map (stamped now) msgs)) ps))
  in
  ConversationHistory.appendMessages clock id (JArr msgs) w
  = (Ok (withId id (jsonClone existing')),
     mkWorld (Some (replaceDoc id existing' (collection w)))
             (idCounter w) (S (tick w))).
Proof.
  intros Hl Hm Hmsgs now existing'.
  unfold ConversationHistory.appendMessages, bind, docGet.
  unfold snapExists. cbn [snapData]. rewrite (entry_stored _ _ _ Hl).
  cbn [negb].
  unfold ConversationHistory.nowISO, lift, arrayMap.
  cbn [tick]. rewrite (mapM_storedMessage _ _ Hmsgs).
  unfold docUpdate. rewrite entry_same_store, (entry_stored _ _ _ Hl).
  rewrite !collection_same_store. cbn [truthy].
  cbn [updateFields updateField fst snd getField].
  rewrite Hm. unfold jsOr. cbn [truthy spread resBind setField].
  fold now. fold existing'. cbn [idCounter tick].
  rewrite (entry_stored id _ existing').
  - subst existing'. reflexivity.
  - rewrite collection_some.
    apply (lookupDoc_replace_same id existing' (JObj ps) _ Hl).
Qed.

(** An append under a name the collection inherits writes nothing to
    the store; it reads the clock once. *)
Lemma appendMessages_inherited id messages w b :
  entry id w = Some (Inherited b) ->
  snd (ConversationHistory.appendMessages clock id messages w)
  = mkWorld (store w) (idCounter w) (S (tick w)).
Proof.
  intros He.
  unfold ConversationHistory.appendMessages, bind, docGet, snapExists.
  cbn [snapData]. rewrite He. cbn [negb].
  unfold ConversationHistory.nowISO, lift.
  destruct (arrayMap _ messages) as [new|e]; [|reflexivity].
  unfold docUpdate. rewrite entry_same_store, He. reflexivity.
Qed.

Lemma appendMessages_missing id messages w :
  entry id w = None ->
  ConversationHistory.appendMessages clock id messages w = (Ok JNull, w).
Proof.
  intros He.
  unfold ConversationHistory.appendMessages, bind, docGet, snapExists.
  cbn [snapData]. now rewrite He.
Qed.

Lemma appendMessages_wf id messages w :
  wfStore clock w ->
  wfStore clock (snd (ConversationHistory.appendMessages clock id messages w)).
Proof.
  intros Hw.
  destruct (entry_cases id w) as [(existing & Hl & He)|[Hl [He|[b He]]]].
  - destruct (Forall_lookupDoc _ id existing _ Hw Hl)
      as (ps & -> & Hnd & (old & Hm) & i & j & Hij & Hc & Hu).
    destruct messages as [| | | | |msgs|];
      try solve [unfold ConversationHistory.appendMessages, bind, docGet,
                   snapExists; cbn [snapData]; rewrite He; simpl;
                 eapply wfStore_later; [| |exact Hw]; simpl; auto].
    destruct (mapM (ConversationHistory.storedMessage (clock (tick w))) msgs)
      as [new|e] eqn:Hmap.
    + assert (Hnn : Forall (fun m => isNullish m = false) msgs).
      { clear -Hmap. revert new Hmap.
        induction msgs as [|m r IH]; simpl; intros new H; [constructor|].
        unfold ConversationHistory.storedMessage at 1 in H.
        destruct (isNullish m) eqn:E; simpl in H; [discriminate|].
        destruct (mapM _ r) eqn:E'; simpl in H; [|discriminate].
        constructor; eauto. }
      rewrite (appendMessages_ok id msgs w ps old Hl Hm Hnn). simpl.
      unfold wfStore. cbn [collection store tick].
      apply Forall_replaceDoc.
      * eapply Forall_impl; [|exact Hw].
        intros e Hwe. eapply wfDoc_later; [|exact Hwe]. lia.
      * eexists. split; [reflexivity|].
        split; [now repeat apply assignProp_NoDup|].
        split.
        -- eexists. rewrite lookupProp_assign_other by discriminate.
           apply lookupProp_assign_same.
        -- exists i, (tick w). split; [lia|]. split.
           ++ now rewrite !lookupProp_assign_other by discriminate.
           ++ apply lookupProp_assign_same.
    + unfold ConversationHistory.appendMessages, bind, docGet, snapExists.
      cbn [snapData]. rewrite He. cbn [negb].
      unfold ConversationHistory.nowISO, lift, arrayMap. cbn [tick].
      rewrite Hmap. simpl.
      eapply wfStore_later; [| |exact Hw]; simpl; auto.
  - now rewrite appendMessages_missing.
  - rewrite (appendMessages_inherited _ _ _ _ He).
    eapply wfStore_later; [| |exact Hw]; simpl; auto.
Qed.
End RepositoryInvariant.

Section HistoryInvariant.
Variable clock : nat -> string.

Lemma create_array items :
  ConversationHistory.create clock (JArr items)
  = (results <- createEach clock items ;; ret (JArr results)).
Proof. reflexivity. Qed.

Lemma deleteById_wf id w :
  wfStore clock w ->
  wfStore clock (snd (ConversationHistory.deleteById id w)).
Proof.
  intros Hw.
  unfold ConversationHistory.deleteById, bind, docGet, snapExists.
  cbn [snapData].
  destruct (entry id w) as [[d|[|name]]|] eqn:He; simpl;
    try exact Hw.
  all: unfold docDelete; destruct (store w) as [c|] eqn:Hs; simpl;
    [|exact Hw].
  all: unfold wfStore in *; cbn [collection store tick];
    unfold collection in Hw; rewrite Hs in Hw;
    now apply Forall_removeDoc.
Qed.

Lemma create_wf data :
  forall w, wfStore clock w ->
            wfStore clock (snd (ConversationHistory.create clock data w)).
Proof.
  induction data as [| | | | |items IH|ps _] using JsVal_nested_ind;
    try (intros w Hw; apply createOne_wf; exact Hw).
  intros w Hw. rewrite create_array. unfold bind.
  assert (Heach : forall w, wfStore clock w ->
                            wfStore clock (snd (createEach clock items w))).
  { clear w Hw.
    induction IH as [|item rest Hitem _ IHrest]; intros w Hw; [exact Hw|].
    cbn [createEach]. unfold bind.
    specialize (Hitem w Hw).
    destruct (ConversationHistory.create clock item w) as [[r|e] w1];
      [|exact Hitem].
    specialize (IHrest w1 Hitem).
    fold (createEach clock).
    destruct (createEach clock rest w1) as [[rs|e] w2]; exact IHrest. }
  specialize (Heach w Hw).
  destruct (createEach clock items w) as [[rs|e] w1]; exact Heach.
Qed.

Lemma step_wf w o : wfStore clock w -> wfStore clock (step clock w o).
Proof.
  destruct o; simpl.
  - apply create_wf.
  - apply appendMessages_wf.
  - apply deleteById_wf.
Qed.

Lemma run_wf ops : forall w, wfStore clock w -> wfStore clock (run clock ops w).
Proof.
  induction ops as [|o r IH]; simpl; intros w Hw; [exact Hw|].
  apply IH, step_wf, Hw.
Qed.

(** Every store the repository can produce is well formed. *)
Lemma reachable_wf w : reachable clock w -> wfStore clock w.
Proof.
  intros (ops & _ & <-). apply run_wf. constructor.
Qed.
End HistoryInvariant.

(** ** The order of timestamps *)

Lemma ascii_compare_refl a : Ascii.compare a a = Eq.
Proof. unfold Ascii.compare. apply N.compare_refl. Qed.

Lemma string_compare_refl s : String.compare s s = Eq.
Proof.
  induction s as [|a s IH]; simpl; [reflexivity|].
  now rewrite ascii_compare_refl.
Qed.

Lemma string_leb_refl s : String.leb s s = true.
Proof. unfold String.leb. now rewrite string_compare_refl. Qed.

Lemma string_compare_le_trans a :
  forall b c, String.compare a b <> Gt -> String.compare b c <> Gt ->
              String.compare a c <> Gt.
Proof.
  induction a as [|x a IH]; intros [|y b] [|z c]; simpl; try congruence.
  unfold Ascii.compare.
  destruct (N.compare_spec (N_of_ascii x) (N_of_ascii y)) as [Hxy|Hxy|Hxy];
    destruct (N.compare_spec (N_of_ascii y) (N_of_ascii z)) as [Hyz|Hyz|Hyz];
    destruct (N.compare_spec (N_of_ascii x) (N_of_ascii z)) as [Hxz|Hxz|Hxz];
    try congruence; try lia.
  apply IH.
Qed.

Lemma string_leb_trans a b c :
  String.leb a b = true -> String.leb b c = true -> String.leb a c = true.
Proof.
  unfold String.leb. intros Hab Hbc.
  pose proof (string_compare_le_trans a b c) as H.
  destruct (String.compare a b); destruct (String.compare b c);
    destruct (String.compare a c); try reflexivity; try discriminate;
    exfalso; apply H; congruence.
Qed.

Lemma string_ltb_leb a b : String.ltb a b = negb (String.leb b a).
Proof.
  unfold String.ltb, String.leb. rewrite (String.compare_antisym b a).
  now destruct (String.compare a b).
Qed.

(** ** Sorting and slicing *)

Section Sorting.
Context {A : Type}.
Variable cmp : A -> A -> Z.
Variable R : A -> A -> Prop.
Variable P : A -> Prop.
Hypothesis cmp_le : forall a b, P a -> P b -> (cmp a b <=? 0)%Z = true -> R a b.
Hypothesis cmp_gt : forall a b, P a -> P b -> (cmp a b <=? 0)%Z = false -> R b a.
Hypothesis R_trans : forall a b c, P a -> P b -> P c -> R a b -> R b c -> R a c.

Lemma insertSorted_perm x l : Permutation (insertSorted cmp x l) (x :: l).
Proof.
  induction l as [|y r IH]; simpl; [reflexivity|].
  destruct (cmp x y <=? 0)%Z; [reflexivity|].
  rewrite IH. apply perm_swap.
Qed.

Lemma sort_perm l : Permutation (sort cmp l) l.
Proof.
  induction l as [|x r IH]; simpl; [reflexivity|].
  unfold sort in *. simpl. rewrite insertSorted_perm. now constructor.
Qed.

Lemma sort_Forall l : Forall P l -> Forall P (sort cmp l).
Proof.
  intros H. rewrite Forall_forall in *. intros x Hx.
  apply H. eapply Permutation_in; [apply sort_perm|exact Hx].
Qed.

Lemma insertSorted_sorted x l :
  P x -> Forall P l -> StronglySorted R l ->
  StronglySorted R (insertSorted cmp x l).
Proof.
  intros Hx Hl Hs.
  induction l as [|y r IH]; simpl.
  - constructor; constructor.
  - inversion Hl as [|? ? Hy Hr]; subst.
    inversion Hs as [|? ? Hsr Hyr]; subst.
    destruct (cmp x y <=? 0)%Z eqn:E.
    + constructor; [exact Hs|].
      constructor; [now apply cmp_le|].
      rewrite Forall_forall in *. intros z Hz.
      apply (R_trans x y z); auto.
    + constructor; [now apply IH|].
      rewrite Forall_forall in *. intros z Hz.
      apply (Permutation_in _ (insertSorted_perm x r)) in Hz.
      destruct Hz as [<-|Hz]; [now apply cmp_gt|auto].
Qed.

Lemma sort_sorted l : Forall P l -> StronglySorted R (sort cmp l).
Proof.
  induction 1 as [|x r Hx Hr IH]; [constructor|].
  unfold sort in *. simpl.
  apply insertSorted_sorted; auto. now apply sort_Forall.
Qed.
End Sorting.


Lemma In_firstn {A} (x : A) n l : In x (firstn n l) -> In x l.
Proof.
  intros H. rewrite <- (firstn_skipn n l). apply in_or_app. now left.
Qed.

Lemma In_skipn {A} (x : A) n l : In x (skipn n l) -> In x l.
Proof.
  intros H. rewrite <- (firstn_skipn n l). apply in_or_app. now right.
Qed.

Lemma StronglySorted_firstn {A} (R : A -> A -> Prop) n :
  forall l, StronglySorted R l -> StronglySorted R (firstn n l).
Proof.
  induction n as [|n IH]; intros [|x r] Hs; simpl; try constructor.
  - inversion Hs; subst. now apply IH.
  - inversion Hs as [|? ? _ Hx]; subst.
    rewrite Forall_forall in *. intros z Hz. apply Hx.
    eapply In_firstn, Hz.
Qed.

Lemma StronglySorted_skipn {A} (R : A -> A -> Prop) n :
  forall l, StronglySorted R l -> StronglySorted R (skipn n l).
Proof.
  induction n as [|n IH]; intros [|x r] Hs; simpl; auto.
  inversion Hs; subst. now apply IH.
Qed.

Lemma StronglySorted_map {A B} (R : A -> A -> Prop) (R' : B -> B -> Prop)
      (P : A -> Prop) (f : A -> B) l :
  (forall a b, P a -> P b -> R a b -> R' (f a) (f b)) ->
  Forall P l -> StronglySorted R l -> StronglySorted R' (map f l).
Proof.
  intros Hf Hl Hs.
  induction Hs as [|x r Hs IH Hx]; simpl; [constructor|].
  inversion Hl as [|? ? Px Pr]; subst.
  constructor; [now apply IH|].
  rewrite Forall_forall in *. intros z Hz.
  apply in_map_iff in Hz. destruct Hz as (y & <- & Hy). auto.
Qed.

Lemma firstn_skipn_Forall {A} (P : A -> Prop) n m l :
  Forall P l -> Forall P (firstn n (skipn m l)).
Proof.
  intros H. rewrite Forall_forall in *. intros x Hx.
  apply H. eapply In_skipn, In_firstn, Hx.
Qed.

(** A window that starts at a non-negative offset. *)
Lemma slice_window {A} (l : list A) (off lim : Z) :
  (0 <= off)%Z -> (0 <= lim)%Z ->
  slice l off (Some (off + lim)%Z)
  = firstn (Z.to_nat lim) (skipn (Z.to_nat off) l).
Proof.
  intros Hoff Hlim. unfold slice.
  destruct (off <? 0)%Z eqn:E1; [lia|].
  destruct (off + lim <? 0)%Z eqn:E2; [lia|].
  set (len := Z.of_nat (List.length l)).
  destruct (Z_le_gt_dec off len) as [Hle|Hgt].
  - rewrite (Z.min_l off len) by lia.
    destruct (Z_le_gt_dec (off + lim) len) as [Hle2|Hgt2].
    + rewrite Z.min_l by lia. f_equal. lia.
    + rewrite Z.min_r by lia.
      rewrite !firstn_all2; auto; rewrite length_skipn; subst len; lia.
  - rewrite (Z.min_r off len), (Z.min_r (off + lim) len) by lia.
    rewrite !skipn_all2 by (subst len; lia).
    now rewrite !firstn_nil.
Qed.

(** ** The claims *)

(** *** Appending to a conversation that does not exist *)

(** X30. For an id under which the store holds no conversation and
    that is not a name the collection object inherits, and whatever the
    messages, the service's [appendMessages] throws the 404
    "Conversation not found" error and leaves the store (and the clock)
    exactly as they were: no record is created. *)
Theorem appendMessages_unknown_id_not_found
        (clock : nat -> string) (id : string) (messages : JsVal) (w : World) :
  lookupDoc id (collection w) = None ->
  inherited id = None ->
  historyService.appendMessages clock id messages w
  = (Throw (ApiErr (mkApiError 404 (JStr "Conversation not found"))), w).
Proof.
  intros Hl Hi.
  unfold historyService.appendMessages, bind.
  now rewrite (appendMessages_missing _ _ _ _ (entry_missing _ _ Hl Hi)).
Qed.

Lemma appendMessages_unknown_id_not_found_witness :
  lookupDoc "nonexistent-id" (collection oneStored) = None
  /\ historyService.appendMessages sampleClock "nonexistent-id"
       (JArr [chatMessage "user" "test"]) oneStored
     = (Throw (ApiErr (mkApiError 404 (JStr "Conversation not found"))),
        oneStored).
Proof.
  split; [reflexivity|].
  apply (appendMessages_unknown_id_not_found sampleClock "nonexistent-id");
    reflexivity.
Defined.

(** C5. An id that identifies no conversation is not always answered
    "not found": under [constructor], which the collection object
    inherits from [Object.prototype], the store finds a function, the
    repository takes it for a document, and the copy of its data fails.
    With one conversation stored, the service's [appendMessages] throws
    a SyntaxError, not the 404 error, after reading the clock, and
    [PUT /history/constructor] is answered 500. *)
Theorem appendMessages_inherited_name
  : lookupDoc "constructor" (collection oneStored) = None
    /\ historyService.appendMessages sampleClock "constructor"
         (JArr [chatMessage "user" "test"]) oneStored
       = (Throw SyntaxError,
          mkWorld (store oneStored) (idCounter oneStored)
                  (S (tick oneStored)))
    /\ fst (historyController.update
              (historyService.appendMessages sampleClock)
              putConstructor oneStored)
       = mkResponse 500 (EngineError SyntaxError).
Proof. repeat split. Qed.

(** *** Rejecting an update without messages *)

(** C6. When the body of [PUT /history/:id] has no [messages] field,
    one that is not an array, or an empty array, the controller answers
    400 whatever the service would have done (the service is not
    called), and the store is unchanged. *)
Theorem update_without_messages_is_bad_request
        (appendMessages : string -> JsVal -> M JsVal)
        (req : Request) (w : World) :
  isNullish (body req) = false ->
  getField (body req) "messages" = JUndefined
  \/ isArray (getField (body req) "messages") = false
  \/ getField (body req) "messages" = JArr [] ->
  historyController.update appendMessages req w
  = (mkResponse 400
       (JsonError (JStr "messages array is required and must not be empty")),
     w).
Proof.
  intros Hb H.
  unfold historyController.update, tryCatch. rewrite Hb.
  destruct H as [H|[H|H]].
  - rewrite H. reflexivity.
  - destruct (getField (body req) "messages"); simpl in H; try discriminate;
      simpl; try reflexivity.
    + now destruct b.
    + now destruct (negb (n =? 0)%Z).
    + now destruct (negb (s =? "")).
  - rewrite H. reflexivity.
Qed.

Lemma update_without_messages_is_bad_request_witness :
  isNullish (body emptyMessagesRequest) = false
  /\ historyController.update (historyService.appendMessages sampleClock)
       emptyMessagesRequest oneStored
     = (mkResponse 400
          (JsonError (JStr "messages array is required and must not be empty")),
        oneStored).
Proof.
  split; [reflexivity|].
  apply update_without_messages_is_bad_request; [reflexivity|].
  right; right; reflexivity.
Defined.

(** *** Pagination *)

Lemma matches_owner userId d :
  matches (mkFilter "userId" "==" userId) d = ownedBy userId d.
Proof.
  unfold matches, ownedBy. cbn [field op value String.eqb Ascii.eqb Bool.eqb].
  now rewrite getProp_plain.
Qed.

Lemma getFilteredDocs_owner userId w :
  getFilteredDocs (where_ collectionRef "userId" "==" userId) w
  = filter (ownedBy userId) (collection w).
Proof.
  unfold getFilteredDocs. cbn [where_ collectionRef filters app fold_left].
  apply filter_ext, matches_owner.
Qed.

(** Ordering by a field that is not an inherited name compares the
    documents' own values. *)
Lemma compareDocs_plain fld dir a b :
  inherited fld = None ->
  compareDocs fld dir a b
  = (let aVal := getField (snd a) fld in
     let bVal := getField (snd b) fld in
     if jsLt aVal bVal then (if dir =? "asc" then (-1)%Z else 1%Z)
     else if jsGt aVal bVal then (if dir =? "asc" then 1%Z else (-1)%Z)
     else 0%Z).
Proof.
  intros Hf. unfold compareDocs. now rewrite !getProp_plain.
Qed.

Lemma ceilDiv_spec total limit :
  (1 <= limit)%Z ->
  exists p, ceilDiv total limit = Finite p
            /\ ((p - 1) * limit < total <= p * limit)%Z.
Proof.
  intros Hl. unfold ceilDiv.
  destruct (limit =? 0)%Z eqn:E; [lia|].
  eexists. split; [reflexivity|].
  pose proof (Z.div_mod (- total) limit ltac:(lia)) as Hdm.
  pose proof (Z.mod_pos_bound (- total) limit ltac:(lia)) as Hb.
  nia.
Qed.

Lemma findByUserId_eq userId page limit w :
  ConversationHistory.findByUserId userId (Some page) (Some limit) w
  = (Ok (ConversationHistory.mkFindResult
           (map entryRecord
              (slice (sort (compareDocs "updatedAt" "desc")
                           (filter (ownedBy userId) (collection w)))
                     ((page - 1) * limit)%Z
                     (Some ((page - 1) * limit + limit)%Z)))
           (Z.of_nat (List.length (filter (ownedBy userId) (collection w))))),
     w).
Proof.
  unfold ConversationHistory.findByUserId, queryGet, queryCount.
  change (getFilteredDocs
            (MockFirestore.limit
               (MockFirestore.offset
                  (orderBy (where_ collectionRef "userId" "==" userId)
                           "updatedAt" "desc")
                  ((page - 1) * limit)) limit) w)
    with (getFilteredDocs (where_ collectionRef "userId" "==" userId) w).
  rewrite !getFilteredDocs_owner.
  cbn [MockFirestore.limit MockFirestore.offset orderBy where_ collectionRef
       orderByField orderByDir offsetVal limitVal filters option_map
       String.eqb Ascii.eqb Bool.eqb negb].
  rewrite mapM_toRecord. reflexivity.
Qed.

(** C2. For [page >= 1] and [limit >= 1], [listConversations] returns,
    without touching the store, the requested page and limit, as
    [total] the number of all conversations of that owner (whatever the
    page), as [pages] the least integer [p] with [p * limit >= total],
    that is [ceil(total / limit)], and at most [limit] conversations. *)
Theorem listConversations_pagination
        (userId : JsVal) (page limit : Z) (w : World) :
  (1 <= page)%Z -> (1 <= limit)%Z ->
  exists r,
    historyService.listConversations userId (Some page) (Some limit) w
    = (Ok r, w)
    /\ historyService.page (historyService.pagination r) = page
    /\ historyService.limit (historyService.pagination r) = limit
    /\ historyService.total (historyService.pagination r)
       = Z.of_nat (List.length (filter (ownedBy userId) (collection w)))
    /\ (exists p,
           historyService.pages (historyService.pagination r) = Finite p
           /\ ((p - 1) * limit
               < historyService.total (historyService.pagination r)
               <= p * limit)%Z)
    /\ (Z.of_nat (List.length (historyService.conversations r)) <= limit)%Z.
Proof.
  intros Hp Hl.
  unfold historyService.listConversations, bind.
  rewrite findByUserId_eq. unfold ret.
  eexists. split; [reflexivity|].
  cbn [historyService.pagination historyService.page historyService.limit
       historyService.total historyService.pages historyService.conversations
       ConversationHistory.conversations ConversationHistory.total].
  repeat split.
  - apply ceilDiv_spec, Hl.
  - rewrite !length_map, slice_window by nia.
    pose proof (firstn_le_length (Z.to_nat limit)
                  (skipn (Z.to_nat ((page - 1) * limit))
                     (sort (compareDocs "updatedAt" "desc")
                           (filter (ownedBy userId) (collection w))))).
    lia.
Qed.

Lemma listConversations_pagination_witness :
  exists r,
    historyService.listConversations (JStr "user-1") (Some 1%Z) (Some 1%Z)
                                     threeStored
    = (Ok r, threeStored)
    /\ historyService.total (historyService.pagination r) = 2%Z
    /\ historyService.pages (historyService.pagination r) = Finite 2
    /\ List.length (historyService.conversations r) = 1%nat.
Proof.
  destruct (listConversations_pagination (JStr "user-1") 1 1 threeStored
              ltac:(lia) ltac:(lia))
    as (r & Hr & _).
  exists r. split; [exact Hr|].
  vm_compute in Hr. inversion Hr. repeat split; reflexivity.
Defined.

(** *** Defaults of the listing endpoint *)

Example parseInt_absent : parseInt None = None.
Proof. reflexivity. Qed.

Example parseInt_not_a_number : parseInt (Some "abc") = None.
Proof. reflexivity. Qed.

Example parseInt_zero : parseInt (Some " -0") = Some 0%Z.
Proof. reflexivity. Qed.

Example parseInt_prefix : parseInt (Some "25px") = Some 25%Z.
Proof. reflexivity. Qed.

Lemma numOr_nonzero n d : d <> 0%Z -> numOr n d <> 0%Z.
Proof.
  intros Hd. unfold numOr.
  destruct n as [z|]; [|exact Hd].
  destruct (z =? 0)%Z eqn:E; [exact Hd|]. now apply Z.eqb_neq.
Qed.

(** C10. On [GET /history] with a user id, the controller hands the
    service [parseInt(page, 10) || 1] and [parseInt(limit, 10) || 20]:
    a page or a limit that is absent, not a number (NaN) or zero is
    replaced by 1, respectively 20.  So the limit the service divides by
    is never zero, and [pagination.pages] is a finite number. *)
Theorem list_defaults_page_and_limit
        (listConversations : JsVal -> option Z -> option Z
                             -> M historyService.ListResult)
        (req : Request) (w : World) (u : string) :
  param "userId" (query req) = Some u -> u <> "" ->
  let page := parseInt (param "page" (query req)) in
  let limit := parseInt (param "limit" (query req)) in
  historyController.list listConversations req w
  = tryCatch (result <- listConversations (JStr u) (Some (numOr page 1))
                                          (Some (numOr limit 20)) ;;
              ret (mkResponse 200 (JsonList result))) w
  /\ (page = None \/ page = Some 0%Z -> numOr page 1 = 1%Z)
  /\ (limit = None \/ limit = Some 0%Z -> numOr limit 20 = 20%Z)
  /\ numOr limit 20 <> 0%Z
  /\ exists r p,
      historyService.listConversations (JStr u) (Some (numOr page 1))
                                       (Some (numOr limit 20)) w
      = (Ok r, w)
      /\ historyService.limit (historyService.pagination r) = numOr limit 20
      /\ historyService.pages (historyService.pagination r) = Finite p.
Proof.
  intros Hu Hne page limit.
  split; [|split; [|split; [|split]]].
  - unfold historyController.list. rewrite Hu.
    cbn [truthy]. destruct (String.eqb_spec u "") as [->|_]; [congruence|].
    reflexivity.
  - intros [->| ->]; reflexivity.
  - intros [->| ->]; reflexivity.
  - apply numOr_nonzero. discriminate.
  - unfold historyService.listConversations, bind.
    rewrite findByUserId_eq. unfold ret.
    eexists. eexists. split; [reflexivity|].
    cbn [historyService.pagination historyService.limit historyService.pages
         ConversationHistory.total].
    split; [reflexivity|].
    unfold ceilDiv.
    destruct (numOr limit 20 =? 0)%Z eqn:E; [|reflexivity].
    apply Z.eqb_eq in E. exfalso. revert E. apply numOr_nonzero. discriminate.
Qed.

Lemma list_defaults_page_and_limit_witness :
  param "userId" (query badPagingRequest) = Some "user-1"
  /\ parseInt (param "page" (query badPagingRequest)) = None
  /\ parseInt (param "limit" (query badPagingRequest)) = Some 0%Z
  /\ historyController.list historyService.listConversations
       badPagingRequest threeStored
     = tryCatch (result <- historyService.listConversations
                             (JStr "user-1") (Some 1%Z) (Some 20%Z) ;;
                 ret (mkResponse 200 (JsonList result))) threeStored.
Proof.
  split; [reflexivity|]. split; [reflexivity|]. split; [reflexivity|].
  exact (proj1 (list_defaults_page_and_limit
                  historyService.listConversations badPagingRequest
                  threeStored "user-1" eq_refl ltac:(discriminate))).
Defined.

(** *** Listing the conversations of an owner *)

Lemma record_field id ps k :
  NoDup (map fst ps) -> k <> "id" ->
  getField (withId id (jsonClone (JObj ps))) k = jsonClone (lookupProp k ps).
Proof.
  intros Hnd Hk.
  rewrite jsonClone_obj. unfold withId, getField.
  rewrite lookupProp_spread by now apply cloneProps_NoDup.
  rewrite <- lookupProp_cloneProps_NoDup by assumption.
  destruct (in_dec string_dec k (map fst (cloneProps ps))) as [Hin|Hout];
    [reflexivity|].
  rewrite (lookupProp_absent k (cloneProps ps) Hout).
  simpl. destruct (String.eqb_spec k "id"); [contradiction|reflexivity].
Qed.

Lemma strictEq_clone v u : strictEq v u = true -> jsonClone v = v.
Proof. destruct v, u; simpl; intros H; try discriminate; reflexivity. Qed.

Lemma compareDocs_desc_le a b :
  hasTimestamp a -> hasTimestamp b ->
  (compareDocs "updatedAt" "desc" a b <=? 0)%Z = true ->
  notOlder (snd a) (snd b).
Proof.
  intros [x Ha] [y Hb]. rewrite compareDocs_plain by reflexivity.
  unfold notOlder, jsGe. cbv zeta.
  rewrite Ha, Hb. change ("desc" =? "asc") with false.
  unfold jsGt, jsLt, jsLess.
  destruct (String.ltb x y); [|reflexivity].
  cbn. intros H. exact H.
Qed.

Lemma compareDocs_desc_gt a b :
  hasTimestamp a -> hasTimestamp b ->
  (compareDocs "updatedAt" "desc" a b <=? 0)%Z = false ->
  notOlder (snd b) (snd a).
Proof.
  intros [x Ha] [y Hb]. rewrite compareDocs_plain by reflexivity.
  unfold notOlder, jsGe. cbv zeta.
  rewrite Ha, Hb. change ("desc" =? "asc") with false.
  unfold jsGt, jsLt, jsLess.
  rewrite (string_ltb_leb x y), (string_ltb_leb y x).
  destruct (String.leb_total x y) as [H|H]; rewrite H; cbn;
    [reflexivity|].
  destruct (String.leb x y); cbn; [reflexivity|discriminate].
Qed.

Lemma notOlder_trans a b c :
  hasTimestamp a -> hasTimestamp b -> hasTimestamp c ->
  notOlder (snd a) (snd b) -> notOlder (snd b) (snd c) ->
  notOlder (snd a) (snd c).
Proof.
  intros [x Ha] [y Hb] [z Hc]. unfold notOlder, jsGe.
  rewrite Ha, Hb, Hc. cbn [jsLess].
  rewrite !string_ltb_leb.
  destruct (String.leb y x) eqn:Hyx; simpl; [|discriminate].
  destruct (String.leb z y) eqn:Hzy; simpl; [|discriminate].
  now rewrite (string_leb_trans z y x Hzy Hyx).
Qed.

Lemma wfDoc_hasTimestamp clock t e : wfDoc clock t (snd e) -> hasTimestamp e.
Proof.
  intros (ps & He & _ & _ & i & j & _ & _ & Hu).
  exists (clock j). rewrite He. exact Hu.
Qed.

Lemma toRecord_recordOf clock t e :
  wfDoc clock t (snd e) ->
  entryRecord e = recordOf e.
Proof.
  intros (ps & He & _). unfold entryRecord, recordOf. now rewrite He.
Qed.

Lemma recordOf_userId clock t e userId :
  wfDoc clock t (snd e) -> ownedBy userId e = true ->
  strictEq (getField (recordOf e) "userId") userId = true.
Proof.
  intros (ps & He & Hnd & _) Ho. unfold recordOf, ownedBy in *.
  rewrite He in *. rewrite record_field by (auto; discriminate).
  cbn [getField] in Ho. now rewrite (strictEq_clone _ _ Ho).
Qed.

Lemma recordOf_updatedAt clock t e :
  wfDoc clock t (snd e) ->
  getField (recordOf e) "updatedAt" = getField (snd e) "updatedAt".
Proof.
  intros (ps & He & Hnd & _ & i & j & _ & _ & Hu). unfold recordOf.
  rewrite He. rewrite record_field by (auto; discriminate).
  cbn [getField]. now rewrite Hu.
Qed.

(** C3. On a store produced by the repository, for [page >= 1] and
    [limit >= 1], [findByUserId] sorts the documents of the requested
    owner by [updatedAt], latest first, skips the first
    [(page - 1) * limit] of them and returns the next [limit] at most:
    every returned conversation has the requested [userId], the
    returned list is in descending order of [updatedAt], and [total]
    counts all the documents of the owner. *)
Theorem findByUserId_scoped_ordered_paged
        (clock : nat -> string) (userId : JsVal) (page limit : Z) (w : World) :
  reachable clock w -> (1 <= page)%Z -> (1 <= limit)%Z ->
  exists sorted conversations,
    Permutation sorted (filter (ownedBy userId) (collection w))
    /\ StronglySorted (fun a b => notOlder (snd a) (snd b)) sorted
    /\ conversations
       = map recordOf
           (firstn (Z.to_nat limit)
                   (skipn (Z.to_nat ((page - 1) * limit)) sorted))
    /\ ConversationHistory.findByUserId userId (Some page) (Some limit) w
       = (Ok (ConversationHistory.mkFindResult
                conversations
                (Z.of_nat (List.length
                             (filter (ownedBy userId) (collection w))))),
          w)
    /\ Forall (fun r => strictEq (getField r "userId") userId = true)
              conversations
    /\ StronglySorted notOlder conversations
    /\ (List.length conversations <= Z.to_nat limit)%nat.
Proof.
  intros Hreach Hp Hl.
  apply reachable_wf in Hreach.
  set (owned := filter (ownedBy userId) (collection w)).
  set (sorted := sort (compareDocs "updatedAt" "desc") owned).
  assert (Hwf : Forall (fun e => wfDoc clock (tick w) (snd e)) owned).
  { unfold owned, wfStore in *. rewrite Forall_forall in *. intros e He.
    apply filter_In in He. now apply Hreach. }
  assert (Hown : Forall (fun e => ownedBy userId e = true) owned).
  { unfold owned. rewrite Forall_forall. intros e He.
    now apply filter_In in He. }
  assert (Hts : Forall hasTimestamp owned).
  { eapply Forall_impl; [|exact Hwf].
    intros e. apply wfDoc_hasTimestamp. }
  assert (Hperm : Permutation sorted owned) by apply sort_perm.
  assert (Hsorted : StronglySorted (fun a b => notOlder (snd a) (snd b)) sorted).
  { apply (sort_sorted _ _ hasTimestamp);
      [exact compareDocs_desc_le|exact compareDocs_desc_gt
      |exact notOlder_trans|exact Hts]. }
  assert (Hin : forall (Q : string * JsVal -> Prop),
             Forall Q owned ->
             Forall Q (firstn (Z.to_nat limit)
                         (skipn (Z.to_nat ((page - 1) * limit)) sorted))).
  { intros Q HQ. apply firstn_skipn_Forall.
    rewrite Forall_forall in *. intros e He.
    apply HQ. eapply Permutation_in; [exact Hperm|exact He]. }
  exists sorted. eexists.
  split; [exact Hperm|]. split; [exact Hsorted|]. split; [reflexivity|].
  split; [|split; [|split]].
  - rewrite findByUserId_eq. fold owned. fold sorted.
    rewrite slice_window by nia.
    do 3 f_equal.
    apply map_ext_in. intros e He.
    specialize (Hin _ Hwf). rewrite Forall_forall in Hin.
    eapply toRecord_recordOf, Hin, He.
  - apply Forall_map.
    pose proof (Hin _ Hwf) as H1. pose proof (Hin _ Hown) as H2.
    rewrite Forall_forall in *. intros e He.
    eapply recordOf_userId; [apply H1|apply H2]; exact He.
  - apply (StronglySorted_map (fun a b => notOlder (snd a) (snd b)) notOlder
             (fun e => wfDoc clock (tick w) (snd e))).
    + intros a b Ha Hb Hab. unfold notOlder in *.
      now rewrite (recordOf_updatedAt _ _ _ Ha), (recordOf_updatedAt _ _ _ Hb).
    + apply Hin, Hwf.
    + apply StronglySorted_firstn, StronglySorted_skipn, Hsorted.
  - rewrite length_map. apply firstn_le_length.
Qed.

Lemma sampleClock_monotone : monotone sampleClock.
Proof.
  intros [|i] [|j] Hij; try reflexivity. lia.
Qed.

Lemma threeStored_reachable : reachable sampleClock threeStored.
Proof.
  exists [Create threeConversations]. split; [|reflexivity].
  repeat constructor.
Qed.

Lemma oneStored_reachable : reachable sampleClock oneStored.
Proof.
  exists [Create samplePayload]. split; [|reflexivity].
  repeat constructor.
Qed.

Lemma findByUserId_scoped_ordered_paged_witness :
  exists sorted conversations,
    Permutation sorted
                (filter (ownedBy (JStr "user-1")) (collection threeStored))
    /\ StronglySorted (fun a b => notOlder (snd a) (snd b)) sorted
    /\ conversations
       = map recordOf
           (firstn (Z.to_nat 1) (skipn (Z.to_nat ((1 - 1) * 1)) sorted))
    /\ ConversationHistory.findByUserId (JStr "user-1") (Some 1%Z) (Some 1%Z)
                                        threeStored
       = (Ok (ConversationHistory.mkFindResult
                conversations
                (Z.of_nat (List.length
                             (filter (ownedBy (JStr "user-1"))
                                     (collection threeStored))))),
          threeStored)
    /\ Forall (fun r => strictEq (getField r "userId") (JStr "user-1") = true)
              conversations
    /\ StronglySorted notOlder conversations
    /\ (List.length conversations <= Z.to_nat 1)%nat.
Proof.
  apply (findByUserId_scoped_ordered_paged sampleClock (JStr "user-1") 1 1
           threeStored threeStored_reachable); lia.
Defined.

(** *** Appending messages *)

Section AppendFacts.
Variable clock : nat -> string.

(** The record and the store after a successful append. *)
Lemma appendMessages_result id msgs w ps old :
  NoDup (map fst ps) ->
  lookupDoc id (collection w) = Some (JObj ps) ->
  lookupProp "messages" ps = JArr old ->
  Forall (fun m => isNullish m = false) msgs ->
  let now := clock (tick w) in
  let new := old ++ map (stamped now) msgs in
  exists r w' stored,
    ConversationHistory.appendMessages clock id (JArr msgs) w = (Ok r, w')
    /\ lookupDoc id (collection w') = Some stored
    /\ tick w' = S (tick w)
    /\ getField stored "messages" = JArr new
    /\ getField stored "updatedAt" = JStr now
    /\ getField stored "createdAt" = lookupProp "createdAt" ps
    /\ getField r "messages" = JArr (map cloneElem new)
    /\ getField r "updatedAt" = JStr now
    /\ getField r "createdAt" = jsonClone (lookupProp "createdAt" ps).
Proof.
  intros Hnd Hl Hm Hmsgs now new.
  pose proof (appendMessages_ok clock id msgs w ps old Hl Hm Hmsgs) as Heq.
  cbv zeta in Heq. fold now in Heq. fold new in Heq.
  set (ps' := assignProp "updatedAt" (JStr now)
                (assignProp "messages" (JArr new) ps)) in *.
  assert (Hnd' : NoDup (map fst ps'))
    by (unfold ps'; now repeat apply assignProp_NoDup).
  assert (Hmsg' : lookupProp "messages" ps' = JArr new).
  { unfold ps'. rewrite lookupProp_assign_other by discriminate.
    apply lookupProp_assign_same. }
  assert (Hupd' : lookupProp "updatedAt" ps' = JStr now)
    by apply lookupProp_assign_same.
  assert (Hcre' : lookupProp "createdAt" ps' = lookupProp "createdAt" ps).
  { unfold ps'. now rewrite !lookupProp_assign_other by discriminate. }
  eexists. eexists. exists (JObj ps').
  split; [exact Heq|].
  rewrite collection_some.
  split; [eapply lookupDoc_replace_same, Hl|].
  split; [reflexivity|].
  cbn [getField].
  rewrite !record_field by (auto; discriminate).
  rewrite Hmsg', Hupd', Hcre'. repeat split.
Qed.
End AppendFacts.

(** C1. On a store produced by the repository and with a clock that
    does not run backwards, appending a list of message objects to an
    existing conversation puts them all, in order and with no
    de-duplication, behind the messages already stored: the message
    count grows by exactly the number of messages appended.  The new
    [updatedAt] is the current time, which is not before the previous
    one. *)
Theorem appendMessages_adds_all_messages
        (clock : nat -> string) (id : string) (msgs : list JsVal)
        (w : World) (existing : JsVal) :
  monotone clock -> reachable clock w ->
  lookupDoc id (collection w) = Some existing ->
  Forall (fun m => isNullish m = false) msgs ->
  exists old u r w' stored,
    getField existing "messages" = JArr old
    /\ getField existing "updatedAt" = JStr u
    /\ ConversationHistory.appendMessages clock id (JArr msgs) w = (Ok r, w')
    /\ lookupDoc id (collection w') = Some stored
    /\ getField stored "messages"
       = JArr (old ++ map (stamped (clock (tick w))) msgs)
    /\ getField r "messages"
       = JArr (map cloneElem (old ++ map (stamped (clock (tick w))) msgs))
    /\ messageCount stored = Some (List.length old + List.length msgs)%nat
    /\ messageCount r = Some (List.length old + List.length msgs)%nat
    /\ getField stored "updatedAt" = JStr (clock (tick w))
    /\ getField r "updatedAt" = JStr (clock (tick w))
    /\ String.leb u (clock (tick w)) = true.
Proof.
  intros Hmono Hreach Hl Hmsgs.
  apply reachable_wf in Hreach.
  destruct (Forall_lookupDoc _ id existing _ Hreach Hl)
    as (ps & -> & Hnd & (old & Hm) & i & j & Hij & Hc & Hu).
  destruct (appendMessages_result clock id msgs w ps old Hnd Hl Hm Hmsgs)
    as (r & w' & stored & Heq & Hl' & _ & Hsm & Hsu & _ & Hrm & Hru & _).
  exists old, (clock j), r, w', stored.
  unfold messageCount. rewrite Hsm, Hrm.
  rewrite length_map, length_app, length_map.
  repeat split; auto.
  apply Hmono. lia.
Qed.

Lemma appendMessages_adds_all_messages_witness :
  exists old u r w' stored,
    getField (jsonClone (ConversationHistory.newDocument
                           (sampleClock 0) samplePayload
                           [stamped (sampleClock 0) (chatMessage "user" "Hello")]))
             "messages" = JArr old
    /\ getField (jsonClone (ConversationHistory.newDocument
                              (sampleClock 0) samplePayload
                              [stamped (sampleClock 0)
                                       (chatMessage "user" "Hello")]))
                "updatedAt" = JStr u
    /\ ConversationHistory.appendMessages sampleClock "mock-id-1"
         (JArr [chatMessage "assistant" "Hi there!"]) oneStored = (Ok r, w')
    /\ lookupDoc "mock-id-1" (collection w') = Some stored
    /\ getField stored "messages"
       = JArr (old ++ map (stamped (sampleClock (tick oneStored)))
                          [chatMessage "assistant" "Hi there!"])
    /\ getField r "messages"
       = JArr (map cloneElem
                   (old ++ map (stamped (sampleClock (tick oneStored)))
                               [chatMessage "assistant" "Hi there!"]))
    /\ messageCount stored = Some (List.length old + 1)%nat
    /\ messageCount r = Some (List.length old + 1)%nat
    /\ getField stored "updatedAt" = JStr (sampleClock (tick oneStored))
    /\ getField r "updatedAt" = JStr (sampleClock (tick oneStored))
    /\ String.leb u (sampleClock (tick oneStored)) = true.
Proof.
  apply (appendMessages_adds_all_messages sampleClock "mock-id-1"
           [chatMessage "assistant" "Hi there!"] oneStored _
           sampleClock_monotone oneStored_reachable).
  - reflexivity.
  - repeat constructor.
Defined.

(** The scenario of the test-suite: one message at creation, a second
    one appended. *)
Example append_scenario :
  exists r w',
    historyService.appendMessages sampleClock "mock-id-1"
      (JArr [chatMessage "assistant" "Hi there!"]) oneStored = (Ok r, w')
    /\ messageCount r = Some 2%nat
    /\ (exists first second,
           getField r "messages" = JArr [first; second]
           /\ getField second "content" = JStr "Hi there!").
Proof.
  do 2 eexists. split; [reflexivity|].
  split; [reflexivity|].
  do 2 eexists. split; reflexivity.
Qed.

(** *** Creating a conversation *)

Lemma create_single clock data :
  isArray data = false ->
  ConversationHistory.create clock data = ConversationHistory.createOne clock data.
Proof. destruct data; simpl; intros H; try reflexivity; discriminate. Qed.

Lemma source_default metadata :
  optField metadata "source" = JUndefined ->
  jsOr (jsAnd metadata (getField metadata "source")) (JStr "web") = JStr "web".
Proof.
  unfold optField, jsOr, jsAnd.
  destruct metadata as [| |b|n|s|l|ps]; simpl; intros H; try reflexivity.
  - now destruct b.
  - destruct (n =? 0)%Z eqn:E; simpl; rewrite ?E; reflexivity.
  - destruct (s =? "") eqn:E; simpl; rewrite ?E; reflexivity.
  - now rewrite H.
Qed.

Section CreateFacts.
Variable clock : nat -> string.

(** The record and the store after the creation of one record. *)
Lemma create_result data w msgs :
  isArray data = false -> isNullish data = false ->
  jsOr (getField data "messages") (JArr []) = JArr msgs ->
  Forall (fun m => isNullish m = false) msgs ->
  let now := clock (tick w) in
  let id := mockId (S (idCounter w)) in
  let doc := ConversationHistory.newDocument now data (map (stamped now) msgs) in
  ConversationHistory.create clock data w
  = (Ok (withId id doc),
     mkWorld (Some (assignProp id (jsonClone doc) (collection w)))
             (S (idCounter w)) (S (tick w))).
Proof.
  intros Ha Hn Hm Hmsgs now id doc.
  rewrite create_single by assumption.
  apply createOne_ok; [assumption|].
  rewrite Hm. simpl. now apply mapM_storedMessage.
Qed.
End CreateFacts.

(** The fields of the record returned and of the document stored by
    the creation of one record. *)
Lemma create_fields
      (clock : nat -> string) (data : JsVal) (w : World) (msgs : list JsVal) :
  isArray data = false -> isNullish data = false ->
  jsOr (getField data "messages") (JArr []) = JArr msgs ->
  Forall (fun m => isNullish m = false) msgs ->
  exists r w' stored,
    ConversationHistory.create clock data w = (Ok r, w')
    /\ lookupDoc (mockId (S (idCounter w))) (collection w') = Some stored
    /\ getField r "id" = JStr (mockId (S (idCounter w)))
    /\ getField r "createdAt" = JStr (clock (tick w))
    /\ getField r "updatedAt" = JStr (clock (tick w))
    /\ getField stored "createdAt" = JStr (clock (tick w))
    /\ getField stored "updatedAt" = JStr (clock (tick w))
    /\ getField r "messages" = JArr (map (stamped (clock (tick w))) msgs)
    /\ getField stored "messages"
       = JArr (map cloneElem (map (stamped (clock (tick w))) msgs))
    /\ In "messages" (objectKeys r)
    /\ In "messages" (objectKeys stored)
    /\ (optField (getField data "metadata") "source" = JUndefined ->
        getField (getField r "metadata") "source" = JStr "web"
        /\ getField (getField stored "metadata") "source" = JStr "web").
Proof.
  intros Ha Hn Hm Hmsgs.
  pose proof (create_result clock data w msgs Ha Hn Hm Hmsgs) as Heq.
  cbv zeta in Heq.
  destruct (newDocument_stored (clock (tick w)) data
              (map (stamped (clock (tick w))) msgs))
    as (ps & Hps & Hnd & Hsm & Hsc & Hsu & _ & Hsmd).
  rewrite Hps in Heq.
  do 2 eexists. exists (JObj ps).
  split; [exact Heq|].
  rewrite collection_some.
  split; [apply lookupDoc_assign_same|].
  cbn [getField]. rewrite Hsm, Hsc, Hsu.
  do 7 (split; [reflexivity|]).
  split; [cbn; tauto|].
  split.
  - cbn [objectKeys].
    destruct (in_dec string_dec "messages" (map fst ps)) as [Hin|Hout];
      [exact Hin|].
    rewrite (lookupProp_absent _ _ Hout) in Hsm. discriminate.
  - intros Hsrc. split.
    + cbn. now apply source_default.
    + rewrite Hsmd. cbn [ConversationHistory.newDocument getField lookupProp
                           String.eqb Ascii.eqb Bool.eqb].
      rewrite (source_default _ Hsrc). reflexivity.
Qed.

(** [(m || {}) && (m || {}).k || d] is [(m && m.k) || d]. *)
Lemma metadata_default md k d :
  jsOr (jsAnd (jsOr md (JObj [])) (getField (jsOr md (JObj [])) k)) d
  = jsOr (jsAnd md (getField md k)) d.
Proof.
  unfold jsOr, jsAnd. destruct (truthy md) eqn:E.
  - now rewrite E.
  - cbn. now rewrite E.
Qed.

(** The document the service hands to the repository is built as the
    repository builds it from the fields themselves. *)
Lemma newDocument_service now fields messages :
  ConversationHistory.newDocument now
    (JObj [("sessionId", getField fields "sessionId");
           ("userId", getField fields "userId");
           ("messages", jsOr (getField fields "messages") (JArr []));
           ("metadata", jsOr (getField fields "metadata") (JObj []))])
    messages
  = ConversationHistory.newDocument now fields messages.
Proof.
  unfold ConversationHistory.newDocument.
  cbn [getField lookupProp String.eqb Ascii.eqb Bool.eqb].
  now rewrite !metadata_default.
Qed.

(** On a single record the service creates what the repository creates
    from the same fields, and fails as it fails. *)
Lemma createConversation_create clock data w :
  isArray data = false -> isNullish data = false ->
  historyService.createConversation clock data w
  = ConversationHistory.create clock data w.
Proof.
  intros Ha Hn. unfold historyService.createConversation. rewrite Hn.
  assert (Hc : ConversationHistory.create clock data
               = ConversationHistory.createOne clock data)
    by (destruct data; try reflexivity; discriminate).
  rewrite Hc.
  change (ConversationHistory.create clock (JObj ?ps))
    with (ConversationHistory.createOne clock (JObj ps)).
  unfold ConversationHistory.createOne, bind, ConversationHistory.nowISO.
  rewrite Hn. cbn [isNullish].
  cbn [getField lookupProp String.eqb Ascii.eqb Bool.eqb].
  assert (Hm : jsOr (jsOr (getField data "messages") (JArr [])) (JArr [])
               = jsOr (getField data "messages") (JArr [])).
  { unfold jsOr. destruct (truthy (getField data "messages")) eqn:E;
      [now rewrite E|reflexivity]. }
  rewrite Hm. unfold lift.
  destruct (arrayMap _ _) as [messages|e]; [|reflexivity].
  now rewrite newDocument_service.
Qed.

(** C4. Creating one record whose messages, if any, are message
    objects, through the repository or through the service, returns a
    record that carries the id generated by the store and, as
    [createdAt] and [updatedAt], the time of the call; the same
    timestamps are stored under that id.  When the input has no
    [messages], the record and the stored document have [messages]
    present and equal to the empty array; when it has no
    [metadata.source], their [metadata.source] is ["web"]. *)
Theorem create_defaults_and_identity
        (clock : nat -> string) (data : JsVal) (w : World) (msgs : list JsVal) :
  isArray data = false -> isNullish data = false ->
  jsOr (getField data "messages") (JArr []) = JArr msgs ->
  Forall (fun m => isNullish m = false) msgs ->
  exists r w' stored,
    ConversationHistory.create clock data w = (Ok r, w')
    /\ historyService.createConversation clock data w = (Ok r, w')
    /\ lookupDoc (mockId (S (idCounter w))) (collection w') = Some stored
    /\ getField r "id" = JStr (mockId (S (idCounter w)))
    /\ getField r "createdAt" = JStr (clock (tick w))
    /\ getField r "updatedAt" = JStr (clock (tick w))
    /\ getField stored "createdAt" = JStr (clock (tick w))
    /\ getField stored "updatedAt" = JStr (clock (tick w))
    /\ (getField data "messages" = JUndefined ->
        getField r "messages" = JArr []
        /\ In "messages" (objectKeys r)
        /\ getField stored "messages" = JArr []
        /\ In "messages" (objectKeys stored))
    /\ (optField (getField data "metadata") "source" = JUndefined ->
        getField (getField r "metadata") "source" = JStr "web"
        /\ getField (getField stored "metadata") "source" = JStr "web").
Proof.
  intros Ha Hn Hm Hmsgs.
  destruct (create_fields clock data w msgs Ha Hn Hm Hmsgs)
    as (r & w' & stored & Heq & Hl & Hid & Hrc & Hru & Hsc & Hsu
        & Hrm & Hsm & Hrk & Hsk & Hsrc).
  exists r, w', stored.
  split; [assumption|].
  split; [now rewrite createConversation_create|].
  do 6 (split; [assumption|]).
  split; [|exact Hsrc].
  intros Hu. rewrite Hu in Hm. cbv in Hm. injection Hm as <-.
  repeat split; assumption.
Qed.

Lemma create_defaults_and_identity_witness :
  exists r w' stored,
    ConversationHistory.create sampleClock
      (JObj [("sessionId", JStr "session-2"); ("userId", JStr "user-1")])
      emptyWorld = (Ok r, w')
    /\ historyService.createConversation sampleClock
         (JObj [("sessionId", JStr "session-2"); ("userId", JStr "user-1")])
         emptyWorld = (Ok r, w')
    /\ lookupDoc "mock-id-1" (collection w') = Some stored
    /\ getField r "id" = JStr "mock-id-1"
    /\ getField r "messages" = JArr []
    /\ getField stored "messages" = JArr []
    /\ getField (getField stored "metadata") "source" = JStr "web".
Proof.
  destruct (create_defaults_and_identity sampleClock
              (JObj [("sessionId", JStr "session-2"); ("userId", JStr "user-1")])
              emptyWorld [] eq_refl eq_refl eq_refl (Forall_nil _))
    as (r & w' & stored & Heq & Hsvc & Hl & Hid & _ & _ & _ & _ & Hmsg & Hsrc).
  exists r, w', stored.
  destruct (Hmsg eq_refl) as (Hrm & _ & Hsm & _).
  split; [exact Heq|]. split; [exact Hsvc|]. split; [exact Hl|].
  split; [exact Hid|]. split; [exact Hrm|]. split; [exact Hsm|].
  apply Hsrc. reflexivity.
Defined.

(** The service passes an empty array for absent messages. *)
Lemma createConversation_without_messages clock fields w :
  isNullish fields = false ->
  getField fields "messages" = JUndefined ->
  exists r w',
    historyService.createConversation clock fields w = (Ok r, w')
    /\ getField r "messages" = JArr [].
Proof.
  intros Hn Hu. unfold historyService.createConversation. rewrite Hn, Hu.
  match goal with
  | |- context [ConversationHistory.create clock ?d w] =>
      destruct (create_fields clock d w []
                  eq_refl eq_refl eq_refl (Forall_nil _))
      as (r & w' & stored & Heq & _ & _ & _ & _ & _ & _ & Hrm & _)
  end.
  exists r, w'. split; [exact Heq|exact Hrm].
Qed.

(** *** The order of the two timestamps *)

(** C8. With a clock that does not run backwards, every conversation in
    a store reached from the empty one by creations, appends and
    deletions has string timestamps with [createdAt <= updatedAt].
    Creating a record stores the time of the call as both; appending to
    it stores the current time as [updatedAt] and leaves [createdAt] as
    it was. *)
Theorem updatedAt_not_before_createdAt (clock : nat -> string) :
  monotone clock ->
  (forall ops id d,
      lookupDoc id (collection (run clock ops emptyWorld)) = Some d ->
      exists c u, getField d "createdAt" = JStr c
                  /\ getField d "updatedAt" = JStr u
                  /\ String.leb c u = true)
  /\ (forall data w msgs,
         isArray data = false -> isNullish data = false ->
         jsOr (getField data "messages") (JArr []) = JArr msgs ->
         Forall (fun m => isNullish m = false) msgs ->
         exists r w' stored,
           ConversationHistory.create clock data w = (Ok r, w')
           /\ lookupDoc (mockId (S (idCounter w))) (collection w') = Some stored
           /\ getField stored "createdAt" = JStr (clock (tick w))
           /\ getField stored "updatedAt" = JStr (clock (tick w)))
  /\ (forall ops id existing msgs,
         lookupDoc id (collection (run clock ops emptyWorld)) = Some existing ->
         Forall (fun m => isNullish m = false) msgs ->
         exists r w' stored,
           ConversationHistory.appendMessages clock id (JArr msgs)
             (run clock ops emptyWorld) = (Ok r, w')
           /\ lookupDoc id (collection w') = Some stored
           /\ getField stored "createdAt" = getField existing "createdAt"
           /\ getField stored "updatedAt"
              = JStr (clock (tick (run clock ops emptyWorld)))).
Proof.
  intros Hmono. split; [|split].
  - intros ops id d Hl.
    assert (Hwf : wfStore clock (run clock ops emptyWorld))
      by (apply run_wf; constructor).
    destruct (Forall_lookupDoc _ id d _ Hwf Hl)
      as (ps & -> & _ & _ & i & j & Hij & Hc & Hu).
    exists (clock i), (clock j). repeat split; auto.
    apply Hmono. lia.
  - intros data w msgs Ha Hn Hm Hmsgs.
    destruct (create_fields clock data w msgs Ha Hn Hm Hmsgs)
      as (r & w' & stored & Heq & Hl & _ & _ & _ & Hc & Hu & _).
    now exists r, w', stored.
  - intros ops id existing msgs Hl Hmsgs.
    assert (Hwf : wfStore clock (run clock ops emptyWorld))
      by (apply run_wf; constructor).
    destruct (Forall_lookupDoc _ id existing _ Hwf Hl)
      as (ps & -> & Hnd & (old & Hm) & _).
    destruct (appendMessages_result clock id msgs _ ps old Hnd Hl Hm Hmsgs)
      as (r & w' & stored & Heq & Hl' & _ & _ & Hsu & Hsc & _).
    now exists r, w', stored.
Qed.

Lemma updatedAt_not_before_createdAt_witness :
  exists c u,
    getField (jsonClone (ConversationHistory.newDocument
                           (sampleClock 0) samplePayload
                           [stamped (sampleClock 0) (chatMessage "user" "Hello")]))
             "createdAt" = JStr c
    /\ getField (jsonClone (ConversationHistory.newDocument
                              (sampleClock 0) samplePayload
                              [stamped (sampleClock 0)
                                       (chatMessage "user" "Hello")]))
                "updatedAt" = JStr u
    /\ String.leb c u = true.
Proof.
  apply (proj1 (updatedAt_not_before_createdAt sampleClock sampleClock_monotone)
               [Create samplePayload] "mock-id-1").
  reflexivity.
Defined.

(** *** The shape of stored messages *)

Lemma cloneProps_defined k v r :
  v <> JUndefined -> cloneProps ((k, v) :: r) = (k, jsonClone v) :: cloneProps r.
Proof. destruct v; simpl; intros H; try reflexivity; congruence. Qed.

Lemma jsOr_string_defined v s : jsOr v (JStr s) <> JUndefined.
Proof.
  unfold jsOr. destruct v; simpl; try discriminate.
  - destruct b; discriminate.
  - destruct (negb (n =? 0)%Z); discriminate.
  - destruct (negb (s0 =? "")); discriminate.
Qed.

(** C9, as stated, fails for a message without a role: the store
    keeps a JSON copy of the message object, and the copy has no field
    for a value that is [undefined].  Created with the one message
    [{ content: "Hello" }], the conversation is stored with a message
    that has the two fields [content] and [timestamp] only. *)
Lemma stored_message_without_role :
  exists stored m,
    lookupDoc "mock-id-1"
      (collection (snd (ConversationHistory.create sampleClock
                          withoutRole emptyWorld))) = Some stored
    /\ getField stored "messages" = JArr [m]
    /\ objectKeys m = ["content"; "timestamp"]
    /\ objectKeys m <> ["role"; "content"; "timestamp"].
Proof.
  do 2 eexists. repeat split. discriminate.
Qed.

(** C9. From any message that is not null or undefined the repository
    builds an object with exactly the fields [role], [content] and
    [timestamp]: role and content are the caller's, every other field
    of the caller's message is left behind, and an absent timestamp is
    the time [now] of the call.  [create] stores the messages so built,
    all with the one [now] of that call, and [appendMessages] puts
    them, again with one [now], behind the stored ones.  The JSON copy
    of a message, which [create] stores and every read returns, has, of
    these three fields, those whose value is defined: always
    [timestamp], and [role] and [content] when the caller's message has
    them; no other field. *)
Theorem stored_message_fields (clock : nat -> string) :
  (forall now m,
      isNullish m = false ->
      ConversationHistory.storedMessage now m = Ok (stamped now m)
      /\ objectKeys (stamped now m) = ["role"; "content"; "timestamp"]
      /\ getField (stamped now m) "role" = getField m "role"
      /\ getField (stamped now m) "content" = getField m "content"
      /\ (getField m "timestamp" = JUndefined ->
          getField (stamped now m) "timestamp" = JStr now)
      /\ (truthy (getField m "timestamp") = true ->
          getField (stamped now m) "timestamp" = getField m "timestamp"))
  /\ (forall data w msgs,
         isArray data = false -> isNullish data = false ->
         jsOr (getField data "messages") (JArr []) = JArr msgs ->
         Forall (fun m => isNullish m = false) msgs ->
         exists r w' stored,
           ConversationHistory.create clock data w = (Ok r, w')
           /\ lookupDoc (mockId (S (idCounter w))) (collection w') = Some stored
           /\ getField r "messages"
              = JArr (map (stamped (clock (tick w))) msgs)
           /\ getField stored "messages"
              = JArr (map cloneElem (map (stamped (clock (tick w))) msgs)))
  /\ (forall w id existing msgs,
         reachable clock w ->
         lookupDoc id (collection w) = Some existing ->
         Forall (fun m => isNullish m = false) msgs ->
         exists old r w' stored,
           getField existing "messages" = JArr old
           /\ ConversationHistory.appendMessages clock id (JArr msgs) w
              = (Ok r, w')
           /\ lookupDoc id (collection w') = Some stored
           /\ getField stored "messages"
              = JArr (old ++ map (stamped (clock (tick w))) msgs)
           /\ getField r "messages"
              = JArr (map cloneElem
                          (old ++ map (stamped (clock (tick w))) msgs)))
  /\ (forall now m,
         getField m "role" <> JUndefined ->
         getField m "content" <> JUndefined ->
         objectKeys (cloneElem (stamped now m))
         = ["role"; "content"; "timestamp"])
  /\ (forall now m,
         objectKeys (cloneElem (stamped now m))
         = definedKey "role" (getField m "role")
           ++ definedKey "content" (getField m "content")
           ++ ["timestamp"]).
Proof.
  split; [|split; [|split; [|split]]].
  - intros now m Hn. unfold ConversationHistory.storedMessage. rewrite Hn.
    repeat split.
    + intros Hu. cbn. now rewrite Hu.
    + intros Ht. cbn. unfold jsOr. now rewrite Ht.
  - intros data w msgs Ha Hn Hm Hmsgs.
    destruct (create_fields clock data w msgs Ha Hn Hm Hmsgs)
      as (r & w' & stored & Heq & Hl & _ & _ & _ & _ & _ & Hrm & Hsm & _).
    now exists r, w', stored.
  - intros w id existing msgs Hreach Hl Hmsgs.
    apply reachable_wf in Hreach.
    destruct (Forall_lookupDoc _ id existing _ Hreach Hl)
      as (ps & -> & Hnd & (old & Hm) & _).
    destruct (appendMessages_result clock id msgs w ps old Hnd Hl Hm Hmsgs)
      as (r & w' & stored & Heq & Hl' & _ & Hsm & _ & _ & Hrm & _).
    now exists old, r, w', stored.
  - intros now m Hr Hc. unfold stamped, cloneElem.
    rewrite jsonClone_obj.
    rewrite !cloneProps_defined by auto using jsOr_string_defined.
    reflexivity.
  - intros now m. unfold stamped, cloneElem.
    rewrite jsonClone_obj. cbn [cloneProps].
    pose proof (jsOr_string_defined (getField m "timestamp") now) as Ht.
    destruct (jsOr (getField m "timestamp") (JStr now)); [congruence|..];
      destruct (getField m "role"), (getField m "content"); reflexivity.
Qed.

Lemma stored_message_fields_witness :
  ConversationHistory.storedMessage "2026-01-01T00:00:00.000Z"
    (JObj [("role", JStr "user"); ("content", JStr "Hello");
           ("id", JNum 7); ("pinned", JBool true)])
  = Ok (JObj [("role", JStr "user"); ("content", JStr "Hello");
              ("timestamp", JStr "2026-01-01T00:00:00.000Z")]).
Proof.
  exact (proj1 (proj1 (stored_message_fields sampleClock)
                      "2026-01-01T00:00:00.000Z"
                      (JObj [("role", JStr "user"); ("content", JStr "Hello");
                             ("id", JNum 7); ("pinned", JBool true)])
                      eq_refl)).
Defined.

(** *** The agent proxy *)

Example chat_relays_upstream_error :
  agentService.chat (fun _ _ => badInput) (chatMessage "user" "")
  = Throw (ApiErr (mkApiError 422 (JStr "Bad input"))).
Proof. reflexivity. Qed.

Example chat_unreachable :
  agentService.chat (fun _ _ => unreachable) (chatMessage "user" "Hi")
  = Throw (ApiErr (mkApiError 502 (JStr "Agent Server unavailable"))).
Proof. reflexivity. Qed.

Example chat_standard_error_body :
  agentService.chat (fun _ _ => standardError) (chatMessage "user" "Hi")
  = Throw (ApiErr (mkApiError 400 (JStr "Agent Server error"))).
Proof. reflexivity. Qed.

(** C7, as stated, fails for the status probe: when the upstream
    answers 503 with an error message of its own, [getStatus] does not
    fail with 503 and that message but with the fixed 502. *)
Lemma getStatus_hides_upstream_error :
  agentService.getStatus (fun _ => overloaded)
  = Throw (ApiErr (mkApiError 502 (JStr "Agent Server unavailable")))
  /\ agentService.getStatus (fun _ => overloaded)
     <> Throw (ApiErr (mkApiError 503 (JStr "overloaded"))).
Proof. split; [reflexivity|discriminate]. Qed.

(** C7, amended. [chat]: without an upstream response the proxy fails
    with the fixed 502 "Agent Server unavailable"; with an upstream
    error response it fails with the upstream's status code and, as
    message, the [error.message] of the upstream body when that is
    truthy, else the fixed "Agent Server error".  [getStatus]: every
    failure, with or without an upstream response, is the fixed 502
    "Agent Server unavailable". *)
Theorem agent_proxy_error_mapping
        (post : string -> JsVal -> agentService.AxiosResult)
        (get : string -> agentService.AxiosResult) (payload : JsVal) :
  (post "/api/chat" payload = agentService.Rejected None ->
   agentService.chat post payload
   = Throw (ApiErr (mkApiError 502 (JStr "Agent Server unavailable"))))
  /\ (forall status data,
         post "/api/chat" payload = agentService.Rejected (Some (status, data)) ->
         exists msg,
           agentService.chat post payload
           = Throw (ApiErr (mkApiError status msg))
           /\ (truthy (optField (optField data "error") "message") = true ->
               msg = optField (optField data "error") "message")
           /\ (truthy (optField (optField data "error") "message") = false ->
               msg = JStr "Agent Server error"))
  /\ (forall response,
         get "/api/health" = agentService.Rejected response ->
         agentService.getStatus get
         = Throw (ApiErr (mkApiError 502 (JStr "Agent Server unavailable")))).
Proof.
  split; [|split].
  - intros H. unfold agentService.chat. now rewrite H.
  - intros status data H. unfold agentService.chat. rewrite H.
    eexists. split; [reflexivity|].
    unfold jsOr. split; intros Ht; now rewrite Ht.
  - intros response H. unfold agentService.getStatus. now rewrite H.
Qed.

Lemma agent_proxy_error_mapping_witness :
  agentService.chat (fun _ _ => unreachable) (chatMessage "user" "Hi")
  = Throw (ApiErr (mkApiError 502 (JStr "Agent Server unavailable")))
  /\ agentService.getStatus (fun _ => overloaded)
     = Throw (ApiErr (mkApiError 502 (JStr "Agent Server unavailable"))).
Proof.
  split.
  - exact (proj1 (agent_proxy_error_mapping
                    (fun _ _ => unreachable) (fun _ => overloaded)
                    (chatMessage "user" "Hi")) eq_refl).
  - exact (proj2 (proj2 (agent_proxy_error_mapping
                           (fun _ _ => unreachable) (fun _ => overloaded)
                           (chatMessage "user" "Hi"))) _ eq_refl).
Defined.

(** *** The scenarios of the integration tests *)

Example listConversations_default_options userId w :
  historyService.listConversations userId None None w
  = historyService.listConversations userId (Some 1%Z) (Some 20%Z) w.
Proof. reflexivity. Qed.

Example create_scenario :
  exists r w',
    historyService.createConversation sampleClock samplePayload emptyWorld
    = (Ok r, w')
    /\ getField r "sessionId" = JStr "session-1"
    /\ getField r "userId" = JStr "user-1"
    /\ messageCount r = Some 1%nat.
Proof. do 2 eexists. split; [cbv; reflexivity|]. repeat split. Qed.

Example list_scenario :
  exists r,
    historyService.listConversations (JStr "user-1") None None threeStored
    = (Ok r, threeStored)
    /\ List.length (historyService.conversations r) = 2%nat
    /\ historyService.total (historyService.pagination r) = 2%Z.
Proof. eexists. split; [cbv; reflexivity|]. repeat split. Qed.

Example get_first_page_scenario :
  exists r,
    historyController.list historyService.listConversations
                           getFirstPage threeStored
    = (mkResponse 200 (JsonList r), threeStored)
    /\ List.length (historyService.conversations r) = 1%nat
    /\ historyService.pages (historyService.pagination r) = Finite 2.
Proof. eexists. split; [cbv; reflexivity|]. repeat split. Qed.

Example put_unknown_scenario :
  historyController.update (historyService.appendMessages sampleClock)
                           putUnknown oneStored
  = (mkResponse 404 (JsonError (JStr "Conversation not found")), oneStored).
Proof. reflexivity. Qed.

Example put_reply_scenario :
  exists r w',
    historyController.update (historyService.appendMessages sampleClock)
                             putReply oneStored
    = (mkResponse 200 (Json r), w')
    /\ messageCount r = Some 2%nat.
Proof. do 2 eexists. split; [cbv; reflexivity|]. repeat split. Qed.

Example delete_scenario :
  exists r w',
    historyService.deleteConversation "mock-id-1" oneStored = (Ok r, w')
    /\ collection w' = []
    /\ historyService.getConversation "mock-id-1" w'
       = (Throw historyService.notFound, w').
Proof. do 2 eexists. split; [cbv; reflexivity|]. repeat split. Qed.


(** * Further properties of the code *)

(** ** Generated ids *)

Lemma mockId_inj n m : mockId n = mockId m -> n = m.
Proof.
  unfold mockId. intros H. simpl in H. injection H as H.
  apply Unsigned.to_uint_inj.
  assert (Hs : Some (Nat.to_uint n) = Some (Nat.to_uint m))
    by (rewrite <- !NilEmpty.usu; now rewrite H).
  now injection Hs.
Qed.

(** ** Lists of stored documents *)

Lemma lookupDoc_None id c : lookupDoc id c = None <-> ~ In id (map fst c).
Proof.
  induction c as [|[k v] r IH]; simpl; [tauto|].
  destruct (String.eqb_spec id k) as [->|Hne].
  - split; [discriminate|]. intros H. exfalso. apply H. now left.
  - rewrite IH. split; intros H; [intros [E|Hin]; [congruence|tauto]|tauto].
Qed.

Lemma lookupDoc_assign_other id id' d c :
  id <> id' -> lookupDoc id' (assignProp id d c) = lookupDoc id' c.
Proof.
  intros Hne.
  induction c as [|[k v] r IH]; simpl.
  - destruct (String.eqb_spec id' id); [congruence|reflexivity].
  - destruct (String.eqb_spec id k) as [->|Hk]; simpl.
    + destruct (String.eqb_spec id' k); [congruence|reflexivity].
    + destruct (String.eqb_spec id' k); [reflexivity|exact IH].
Qed.

Lemma replaceDoc_keys id d c : map fst (replaceDoc id d c) = map fst c.
Proof.
  induction c as [|[k v] r IH]; simpl; [reflexivity|].
  destruct (id =? k); simpl; [reflexivity|now rewrite IH].
Qed.

Lemma lookupDoc_replace_other id id' d c :
  id <> id' -> lookupDoc id' (replaceDoc id d c) = lookupDoc id' c.
Proof.
  intros Hne.
  induction c as [|[k v] r IH]; simpl; [reflexivity|].
  destruct (String.eqb_spec id k) as [->|Hk]; simpl.
  - destruct (String.eqb_spec id' k); [congruence|reflexivity].
  - now rewrite IH.
Qed.

Lemma In_replaceDoc e id d c :
  In e (replaceDoc id d c) -> e = (id, d) \/ In e c.
Proof.
  induction c as [|[k v] r IH]; simpl; [tauto|].
  destruct (String.eqb_spec id k) as [->|Hk]; simpl.
  - intros [<-|H]; auto.
  - intros [<-|H]; auto. destruct (IH H); auto.
Qed.

Lemma In_replaceDoc_same id d d0 c :
  lookupDoc id c = Some d0 -> In (id, d) (replaceDoc id d c).
Proof.
  induction c as [|[k v] r IH]; simpl; [discriminate|].
  destruct (String.eqb_spec id k) as [->|Hk]; simpl; intros H.
  - now left.
  - right. now apply IH.
Qed.

Lemma removeDoc_keys_incl id c x :
  In x (map fst (removeDoc id c)) -> In x (map fst c).
Proof.
  induction c as [|[k v] r IH]; simpl; [tauto|].
  destruct (id =? k); simpl; intuition.
Qed.

Lemma removeDoc_NoDup id c :
  NoDup (map fst c) -> NoDup (map fst (removeDoc id c)).
Proof.
  induction c as [|[k v] r IH]; simpl; intros Hnd; [constructor|].
  inversion Hnd as [|? ? Hout Hr]; subst.
  destruct (id =? k); simpl; [assumption|].
  constructor; [|now apply IH].
  intros Hin. apply Hout. eapply removeDoc_keys_incl, Hin.
Qed.

Lemma lookupDoc_remove_same id c :
  NoDup (map fst c) -> lookupDoc id (removeDoc id c) = None.
Proof.
  induction c as [|[k v] r IH]; simpl; intros Hnd; [reflexivity|].
  inversion Hnd as [|? ? Hout Hr]; subst.
  destruct (String.eqb_spec id k) as [->|Hk]; simpl.
  - now apply lookupDoc_None.
  - destruct (String.eqb_spec id k); [contradiction|now apply IH].
Qed.

Lemma lookupDoc_remove_other id id' c :
  id <> id' -> lookupDoc id' (removeDoc id c) = lookupDoc id' c.
Proof.
  intros Hne.
  induction c as [|[k v] r IH]; simpl; [reflexivity|].
  destruct (String.eqb_spec id k) as [->|Hk]; simpl.
  - destruct (String.eqb_spec id' k); [congruence|reflexivity].
  - now rewrite IH.
Qed.

Lemma removeDoc_length id d c :
  lookupDoc id c = Some d -> S (List.length (removeDoc id c)) = List.length c.
Proof.
  induction c as [|[k v] r IH]; simpl; [discriminate|].
  destruct (String.eqb_spec id k) as [->|Hk]; simpl; intros H;
    [reflexivity|]. f_equal. now apply IH.
Qed.

Lemma assignProp_length_fresh id d c :
  ~ In id (map fst c) -> List.length (assignProp id d c) = S (List.length c).
Proof.
  induction c as [|[k v] r IH]; simpl; intros H; [reflexivity|].
  destruct (String.eqb_spec id k) as [->|Hk]; simpl.
  - exfalso. apply H. now left.
  - f_equal. apply IH. tauto.
Qed.

(** ** Invariants of the store, in general *)

(** A property of the state that survives a reading of the clock, the
    addition of a document under the next id, the replacement of a
    document and the removal of one, holds along every history. *)
Section WorldInvariant.
Variable clock : nat -> string.
Variable Inv : World -> Prop.
Hypothesis Inv_tick :
  forall w, Inv w -> Inv (mkWorld (store w) (idCounter w) (S (tick w))).
Hypothesis Inv_add :
  forall w d,
    Inv w ->
    Inv (mkWorld (Some (assignProp (mockId (S (idCounter w))) d (collection w)))
                 (S (idCounter w)) (tick w)).
Hypothesis Inv_replace :
  forall w id d d0,
    Inv w -> lookupDoc id (collection w) = Some d0 ->
    Inv (mkWorld (Some (replaceDoc id d (collection w)))
                 (idCounter w) (tick w)).
Hypothesis Inv_remove :
  forall w id,
    Inv w ->
    Inv (mkWorld (Some (removeDoc id (collection w))) (idCounter w) (tick w)).

Lemma createOne_inv data w :
  Inv w -> Inv (snd (ConversationHistory.createOne clock data w)).
Proof.
  intros Hw.
  destruct (createOne_cases clock data w) as [(e & ->)|(ms & Hn & Hm)].
  - simpl. now apply Inv_tick.
  - rewrite (createOne_ok clock data w ms Hn Hm). simpl.
    apply (Inv_add _ _ (Inv_tick _ Hw)).
Qed.

Lemma appendMessages_inv id messages w :
  Inv w -> Inv (snd (ConversationHistory.appendMessages clock id messages w)).
Proof.
  intros Hw.
  destruct (entry_cases id w) as [(existing & Hl & He)|[Hl [He|[b He]]]];
    [|now rewrite appendMessages_missing
     |rewrite (appendMessages_inherited _ _ _ _ _ He); now apply Inv_tick].
  unfold ConversationHistory.appendMessages, bind, docGet, snapExists.
  cbn [snapData]. rewrite He. cbn [negb].
  unfold ConversationHistory.nowISO, lift. cbn [tick].
  destruct (arrayMap _ messages) as [new|e]; [|now apply Inv_tick].
  unfold docUpdate. rewrite entry_same_store, He, !collection_same_store.
  destruct (truthy existing); [|now apply Inv_tick].
  destruct (updateFields existing _) as [existing' [e|]];
    cbn [idCounter tick]; simpl;
    apply (Inv_replace _ id existing' existing (Inv_tick _ Hw) Hl).
Qed.

Lemma deleteById_inv id w :
  Inv w -> Inv (snd (ConversationHistory.deleteById id w)).
Proof.
  intros Hw.
  unfold ConversationHistory.deleteById, bind, docGet, snapExists.
  cbn [snapData].
  destruct (entry id w) as [[d|[|name]]|] eqn:Hent; simpl; try exact Hw.
  all: unfold docDelete; destruct (store w) as [c|] eqn:Hs; simpl;
    [|exact Hw].
  all: pose proof (Inv_remove w id Hw) as H;
    unfold collection in H; now rewrite Hs in H.
Qed.

Lemma create_inv data :
  forall w, Inv w -> Inv (snd (ConversationHistory.create clock data w)).
Proof.
  induction data as [| | | | |items IH|ps _] using JsVal_nested_ind;
    try (intros w Hw; apply createOne_inv; exact Hw).
  intros w Hw. rewrite create_array. unfold bind.
  assert (Heach : forall w, Inv w -> Inv (snd (createEach clock items w))).
  { clear w Hw.
    induction IH as [|item rest Hitem _ IHrest]; intros w Hw; [exact Hw|].
    cbn [createEach]. unfold bind.
    specialize (Hitem w Hw).
    destruct (ConversationHistory.create clock item w) as [[r|e] w1];
      [|exact Hitem].
    specialize (IHrest w1 Hitem).
    fold (createEach clock).
    destruct (createEach clock rest w1) as [[rs|e] w2]; exact IHrest. }
  specialize (Heach w Hw).
  destruct (createEach clock items w) as [[rs|e] w1]; exact Heach.
Qed.

Lemma step_inv w o : Inv w -> Inv (step clock w o).
Proof.
  destruct o; simpl.
  - apply create_inv.
  - apply appendMessages_inv.
  - apply deleteById_inv.
Qed.

Lemma run_inv ops : forall w, Inv w -> Inv (run clock ops w).
Proof.
  induction ops as [|o r IH]; simpl; intros w Hw; [exact Hw|].
  apply IH, step_inv, Hw.
Qed.
End WorldInvariant.

Lemma assignProp_keys_cases id d c x :
  In x (map fst (assignProp id d c)) -> x = id \/ In x (map fst c).
Proof.
  induction c as [|[k v] r IH]; simpl.
  - intros [<-|[]]. now left.
  - destruct (String.eqb_spec id k) as [->|Hk]; simpl; intuition.
Qed.

Lemma countDocuments_all w :
  ConversationHistory.countDocuments JUndefined w
  = (Ok (Z.of_nat (List.length (collection w))), w).
Proof. reflexivity. Qed.

Section IdFacts.
Variable clock : nat -> string.

Lemma next_id_fresh w :
  Forall (generatedId w) (storedIds w) ->
  ~ In (mockId (S (idCounter w))) (storedIds w).
Proof.
  intros Hg Hin. rewrite Forall_forall in Hg.
  destruct (Hg _ Hin) as (k & Hk & E). apply mockId_inj in E. lia.
Qed.

Lemma ids_run ops :
  let w := run clock ops emptyWorld in
  NoDup (storedIds w) /\ Forall (generatedId w) (storedIds w).
Proof.
  apply (run_inv clock
           (fun w => NoDup (storedIds w) /\ Forall (generatedId w) (storedIds w))).
  - intros w [Hnd Hg]. split; assumption.
  - intros w d [Hnd Hg].
    pose proof (next_id_fresh w Hg) as Hfresh.
    unfold storedIds in *. cbn [collection store idCounter].
    rewrite assignProp_keys_fresh by assumption.
    split.
    + apply NoDup_app; [assumption|repeat constructor; intros []|].
      intros x Hx [<-|[]]. contradiction.
    + apply Forall_app. split.
      * eapply Forall_impl; [|exact Hg].
        intros x (k & Hk & E). exists k. split; [cbn [idCounter]; lia|exact E].
      * repeat constructor. exists (S (idCounter w)). split; [cbn [idCounter]; lia|reflexivity].
  - intros w id d d0 [Hnd Hg] _.
    unfold storedIds in *. cbn [collection store idCounter].
    now rewrite replaceDoc_keys.
  - intros w id [Hnd Hg].
    unfold storedIds in *. cbn [collection store idCounter].
    split; [now apply removeDoc_NoDup|].
    rewrite Forall_forall in *. intros x Hx.
    apply Hg. eapply removeDoc_keys_incl, Hx.
  - split; constructor.
Qed.

Lemma ids_invariant w :
  reachable clock w ->
  NoDup (storedIds w) /\ Forall (generatedId w) (storedIds w).
Proof. intros (ops & _ & <-). apply ids_run. Qed.

Lemma ids_since w0 ops :
  let w := run clock ops w0 in
  (idCounter w0 <= idCounter w)%nat
  /\ Forall (fun id => In id (storedIds w0) \/ generatedSince w0 w id)
            (storedIds w).
Proof.
  apply (run_inv clock
           (fun w => (idCounter w0 <= idCounter w)%nat
                     /\ Forall (fun id => In id (storedIds w0)
                                          \/ generatedSince w0 w id)
                               (storedIds w))).
  - intros w [Hc Hg]. split; assumption.
  - intros w d [Hc Hg]. cbn [idCounter]. split; [lia|].
    unfold storedIds in *. cbn [collection store].
    rewrite Forall_forall in *. intros x Hx.
    apply assignProp_keys_cases in Hx. destruct Hx as [->|Hx].
    + right. exists (S (idCounter w)). split; [cbn [idCounter]; lia|reflexivity].
    + destruct (Hg _ Hx) as [H|(k & Hk & E)]; [now left|].
      right. exists k. split; [cbn [idCounter]; lia|exact E].
  - intros w id d d0 [Hc Hg] _. split; [exact Hc|].
    unfold storedIds in *. cbn [collection store].
    now rewrite replaceDoc_keys.
  - intros w id [Hc Hg]. split; [exact Hc|].
    unfold storedIds in *. cbn [collection store].
    rewrite Forall_forall in *. intros x Hx.
    apply Hg. eapply removeDoc_keys_incl, Hx.
  - split; [lia|].
    rewrite Forall_forall. intros x Hx. now left.
Qed.
End IdFacts.

(** The ids of stored conversations are generated ones, and no
    generated id is a name the collection inherits. *)
Lemma stored_id_plain clock w id d :
  reachable clock w -> lookupDoc id (collection w) = Some d ->
  inherited id = None /\ (id =? "__proto__") = false.
Proof.
  intros Hr Hl. destruct (ids_invariant clock w Hr) as [_ Hg].
  rewrite Forall_forall in Hg.
  destruct (Hg id) as (k & _ & ->); [|split; reflexivity].
  unfold storedIds. apply in_map_iff. exists (id, d).
  split; [reflexivity|now apply lookupDoc_In].
Qed.

(** X1. In every store the repository can produce, the ids of the
    stored conversations are pairwise distinct, each of them is an id
    the store generated ([mock-id-k] with [1 <= k <= idCounter]), and
    the id the next creation will receive is not in use. *)
Theorem stored_ids_distinct (clock : nat -> string) (w : World) :
  reachable clock w ->
  NoDup (storedIds w)
  /\ Forall (generatedId w) (storedIds w)
  /\ lookupDoc (mockId (S (idCounter w))) (collection w) = None.
Proof.
  intros Hr. destruct (ids_invariant clock w Hr) as [Hnd Hg].
  repeat split; try assumption.
  apply lookupDoc_None. now apply next_id_fresh.
Qed.

Lemma stored_ids_distinct_witness :
  NoDup (storedIds threeStored)
  /\ Forall (generatedId threeStored) (storedIds threeStored)
  /\ lookupDoc (mockId (S (idCounter threeStored))) (collection threeStored)
     = None.
Proof.
  exact (stored_ids_distinct sampleClock threeStored threeStored_reachable).
Defined.

(** X2. An id is never given twice: an id the store has generated and
    that is no longer in use (its conversation was deleted) is not the
    id of any conversation in any later state, whatever is created,
    appended or deleted afterwards. *)
Theorem deleted_id_never_reused
        (clock : nat -> string) (w : World) (ops : list Op) (id : string) :
  generatedId w id -> ~ In id (storedIds w) ->
  ~ In id (storedIds (run clock ops w)).
Proof.
  intros (k & Hk & ->) Hout Hin.
  destruct (ids_since clock w ops) as [_ Hs].
  rewrite Forall_forall in Hs.
  destruct (Hs _ Hin) as [H|(k' & Hk' & E)]; [contradiction|].
  apply mockId_inj in E. lia.
Qed.

Lemma deleted_id_never_reused_witness :
  ~ In "mock-id-1" (storedIds (run sampleClock [Create samplePayload] afterDelete)).
Proof.
  apply (deleted_id_never_reused sampleClock afterDelete
           [Create samplePayload] "mock-id-1").
  - exists 1%nat. split; [cbn; lia|reflexivity].
  - cbn. tauto.
Defined.

(** ** Copies *)

Lemma jsonValue_defined v : jsonValue v = true -> v <> JUndefined.
Proof. intros H ->. discriminate. Qed.

Lemma cloneElem_defined x : x <> JUndefined -> cloneElem x = jsonClone x.
Proof. destruct x; simpl; intros H; try reflexivity; congruence. Qed.

Lemma jsonClone_of_jsonValue v : jsonValue v = true -> jsonClone v = v.
Proof.
  induction v as [| |b|n|s|l IH|ps IH] using JsVal_nested_ind;
    intros Hv; try reflexivity.
  - rewrite jsonClone_arr. f_equal. cbn [jsonValue] in Hv.
    induction IH as [|x r Hx _ IHr]; [reflexivity|].
    cbn [forallb] in Hv. apply andb_prop in Hv. destruct Hv as [Hx' Hr].
    cbn [map]. rewrite cloneElem_defined by now apply jsonValue_defined.
    now rewrite (Hx Hx'), (IHr Hr).
  - rewrite jsonClone_obj. f_equal. cbn [jsonValue] in Hv.
    induction IH as [|[k x] r Hx _ IHr]; [reflexivity|].
    cbn [forallb snd] in Hv. apply andb_prop in Hv. destruct Hv as [Hx' Hr].
    rewrite cloneProps_defined by now apply jsonValue_defined.
    cbn [snd] in Hx. now rewrite (Hx Hx'), (IHr Hr).
Qed.

Lemma jsonValue_jsonClone v : v <> JUndefined -> jsonValue (jsonClone v) = true.
Proof.
  induction v as [| |b|n|s|l IH|ps IH] using JsVal_nested_ind;
    intros Hv; try reflexivity; try congruence.
  - rewrite jsonClone_arr. cbn [jsonValue].
    induction IH as [|x r Hx _ IHr]; [reflexivity|].
    cbn [map forallb]. rewrite IHr by discriminate.
    destruct x; try reflexivity; rewrite andb_true_r;
      apply Hx; discriminate.
  - rewrite jsonClone_obj. cbn [jsonValue].
    induction IH as [|[k x] r Hx _ IHr]; [reflexivity|].
    cbn [snd] in Hx. specialize (IHr ltac:(discriminate)).
    destruct x; cbn [cloneProps]; try exact IHr;
      cbn [forallb snd]; rewrite IHr, andb_true_r;
      apply Hx; discriminate.
Qed.

Lemma jsonClone_idempotent v : jsonClone (jsonClone v) = jsonClone v.
Proof.
  destruct v; try reflexivity;
    apply jsonClone_of_jsonValue, jsonValue_jsonClone; discriminate.
Qed.

(** ** Creating, reading back and deleting *)

Lemma withId_field id ps k :
  NoDup (map fst ps) -> k <> "id" ->
  getField (withId id (JObj ps)) k = lookupProp k ps.
Proof.
  intros Hnd Hk. unfold withId, getField.
  rewrite lookupProp_spread by assumption.
  destruct (in_dec string_dec k (map fst ps)) as [Hin|Hout]; [reflexivity|].
  rewrite (lookupProp_absent k ps Hout).
  simpl. destruct (String.eqb_spec k "id"); [contradiction|reflexivity].
Qed.

Lemma withId_id id ps :
  NoDup (map fst ps) -> ~ In "id" (map fst ps) ->
  getField (withId id (JObj ps)) "id" = JStr id.
Proof.
  intros Hnd Hout. unfold withId, getField.
  rewrite lookupProp_spread by assumption.
  destruct (in_dec string_dec "id" (map fst ps)); [contradiction|reflexivity].
Qed.

(** Reading a record built from the copy of a document gives the copies
    of the fields of the record built from the document itself. *)
Lemma withId_clone id ps k :
  NoDup (map fst ps) -> ~ In "id" (map fst ps) ->
  getField (withId id (jsonClone (JObj ps))) k
  = jsonClone (getField (withId id (JObj ps)) k).
Proof.
  intros Hnd Hout.
  destruct (string_dec k "id") as [->|Hk].
  - rewrite withId_id by assumption.
    rewrite jsonClone_obj, withId_id; [reflexivity|now apply cloneProps_NoDup|].
    intros Hin. apply Hout. now apply cloneProps_keys_incl.
  - rewrite record_field, withId_field by assumption. reflexivity.
Qed.

Lemma truthy_withId id v : truthy (withId id v) = true.
Proof. destruct v; reflexivity. Qed.

Lemma findById_found id d w :
  lookupDoc id (collection w) = Some d -> truthy d = true ->
  ConversationHistory.findById id w = (Ok (withId id (jsonClone d)), w).
Proof.
  intros Hl Ht.
  unfold ConversationHistory.findById, bind, docGet, snapExists.
  cbn [snapData]. rewrite (entry_stored _ _ _ Hl). cbn [negb].
  unfold lift. rewrite toRecord_value. unfold entryRecord.
  cbn [fst snd]. now rewrite Ht.
Qed.

Lemma findById_absent id w :
  entry id w = None ->
  ConversationHistory.findById id w = (Ok JNull, w).
Proof.
  intros He.
  unfold ConversationHistory.findById, bind, docGet, snapExists.
  cbn [snapData]. now rewrite He.
Qed.

(** Under [__proto__] the store finds [Object.prototype], whose copy is
    the empty object; under the name of an inherited function it finds
    the function, whose copy cannot be made. *)
Lemma findById_prototype id w :
  entry id w = Some (Inherited ObjectPrototype) ->
  ConversationHistory.findById id w = (Ok (JObj [("id", JStr id)]), w).
Proof.
  intros He.
  unfold ConversationHistory.findById, bind, docGet, snapExists.
  cbn [snapData]. now rewrite He.
Qed.

Lemma findById_function id w name :
  entry id w = Some (Inherited (NativeFunction name)) ->
  ConversationHistory.findById id w = (Throw SyntaxError, w).
Proof.
  intros He.
  unfold ConversationHistory.findById, bind, docGet, snapExists.
  cbn [snapData]. now rewrite He.
Qed.

Section RecordFacts.
Variable clock : nat -> string.

(** X3. On a store produced by the repository, creating a single
    record adds exactly one document: its id was not in use, it is put
    behind the stored ones, every document stored before is still
    stored unchanged under its id, and [countDocuments()] grows by
    one. *)
Theorem create_adds_one_document (data : JsVal) (w : World) :
  reachable clock w -> singleRecord data ->
  exists r w' n,
    ConversationHistory.create clock data w = (Ok r, w')
    /\ getField r "id" = JStr (mockId (S (idCounter w)))
    /\ ~ In (mockId (S (idCounter w))) (storedIds w)
    /\ storedIds w' = storedIds w ++ [mockId (S (idCounter w))]
    /\ (forall id d, lookupDoc id (collection w) = Some d ->
                     lookupDoc id (collection w') = Some d)
    /\ ConversationHistory.countDocuments JUndefined w = (Ok n, w)
    /\ ConversationHistory.countDocuments JUndefined w' = (Ok (n + 1)%Z, w').
Proof.
  intros Hr (Ha & Hn & msgs & Hm & Hmsgs).
  destruct (ids_invariant clock w Hr) as [Hnd Hg].
  pose proof (next_id_fresh w Hg) as Hfresh.
  pose proof (create_result clock data w msgs Ha Hn Hm Hmsgs) as Heq.
  cbv zeta in Heq.
  do 3 eexists. split; [exact Heq|].
  split; [reflexivity|]. split; [exact Hfresh|].
  unfold storedIds in *. rewrite collection_some.
  split; [now apply assignProp_keys_fresh|].
  split.
  - intros id d Hl. rewrite lookupDoc_assign_other; [exact Hl|].
    intros <-. apply lookupDoc_None in Hfresh. congruence.
  - rewrite !countDocuments_all, collection_some.
    split; [reflexivity|].
    rewrite assignProp_length_fresh by assumption.
    do 2 f_equal. lia.
Qed.

(** X4. A conversation just created can be read back by the id it was
    given: [findById] returns, without changing the store, a record
    each of whose fields is the JSON copy of the same field of the
    record [create] returned. *)
Theorem create_then_findById (data : JsVal) (w : World) :
  singleRecord data ->
  exists r w' r',
    ConversationHistory.create clock data w = (Ok r, w')
    /\ ConversationHistory.findById (mockId (S (idCounter w))) w' = (Ok r', w')
    /\ forall k, getField r' k = jsonClone (getField r k).
Proof.
  intros (Ha & Hn & msgs & Hm & Hmsgs).
  pose proof (create_result clock data w msgs Ha Hn Hm Hmsgs) as Heq.
  cbv zeta in Heq.
  set (doc := ConversationHistory.newDocument (clock (tick w)) data
                (map (stamped (clock (tick w))) msgs)) in *.
  set (id := mockId (S (idCounter w))) in *.
  eexists. eexists. exists (withId id (jsonClone doc)).
  split; [exact Heq|]. split.
  - rewrite (findById_found id (jsonClone doc)).
    + now rewrite jsonClone_idempotent.
    + rewrite collection_some. apply lookupDoc_assign_same.
    + reflexivity.
  - intros k. unfold doc, ConversationHistory.newDocument.
    apply withId_clone; [distinct_keys|].
    simpl. intuition discriminate.
Qed.
End RecordFacts.

Lemma create_adds_one_document_witness :
  exists r w' n,
    ConversationHistory.create sampleClock samplePayload threeStored = (Ok r, w')
    /\ getField r "id" = JStr "mock-id-4"
    /\ ConversationHistory.countDocuments JUndefined threeStored
       = (Ok n, threeStored)
    /\ ConversationHistory.countDocuments JUndefined w' = (Ok (n + 1)%Z, w').
Proof.
  destruct (create_adds_one_document sampleClock samplePayload threeStored
              threeStored_reachable)
    as (r & w' & n & Heq & Hid & _ & _ & _ & Hc & Hc').
  - repeat split. exists [chatMessage "user" "Hello"].
    split; [reflexivity|repeat constructor].
  - exists r, w', n. repeat split; assumption.
Defined.

Lemma create_then_findById_witness :
  exists r w' r',
    ConversationHistory.create sampleClock samplePayload emptyWorld = (Ok r, w')
    /\ ConversationHistory.findById "mock-id-1" w' = (Ok r', w')
    /\ forall k, getField r' k = jsonClone (getField r k).
Proof.
  apply (create_then_findById sampleClock samplePayload emptyWorld).
  repeat split. exists [chatMessage "user" "Hello"].
  split; [reflexivity|repeat constructor].
Defined.

Lemma store_of_lookup id d w :
  lookupDoc id (collection w) = Some d -> store w = Some (collection w).
Proof.
  unfold collection. destruct (store w); [reflexivity|discriminate].
Qed.

Lemma deleteById_found id d w :
  lookupDoc id (collection w) = Some d ->
  ConversationHistory.deleteById id w
  = (Ok (entryRecord (id, d)),
     mkWorld (Some (removeDoc id (collection w))) (idCounter w) (tick w)).
Proof.
  intros Hl.
  unfold ConversationHistory.deleteById, bind, docGet, snapExists.
  cbn [snapData]. rewrite (entry_stored _ _ _ Hl). cbn [negb].
  unfold lift. rewrite toRecord_value.
  unfold docDelete. rewrite (store_of_lookup id d w Hl). reflexivity.
Qed.

Lemma deleteById_absent id w :
  entry id w = None ->
  ConversationHistory.deleteById id w = (Ok JNull, w).
Proof.
  intros He.
  unfold ConversationHistory.deleteById, bind, docGet, snapExists.
  cbn [snapData]. now rewrite He.
Qed.

Lemma removeDoc_absent id c : lookupDoc id c = None -> removeDoc id c = c.
Proof.
  induction c as [|[k v] r IH]; simpl; [reflexivity|].
  destruct (id =? k); [discriminate|]. intros H. now rewrite IH.
Qed.

(** Under [__proto__] there is nothing of the collection's own to
    delete; under the name of an inherited function the copy of the
    data fails before the deletion. *)
Lemma deleteById_prototype id w :
  entry id w = Some (Inherited ObjectPrototype) ->
  ConversationHistory.deleteById id w = (Ok (JObj [("id", JStr id)]), w).
Proof.
  intros He.
  unfold ConversationHistory.deleteById, bind, docGet, snapExists.
  cbn [snapData]. rewrite He. cbn [negb].
  unfold entry in He. unfold docDelete.
  destruct w as [[c|] n t]; cbn [store] in *; [|discriminate].
  destruct (lookupDoc id c) eqn:Hl; [discriminate|].
  cbn. now rewrite (removeDoc_absent _ _ Hl).
Qed.

Lemma deleteById_function id w name :
  entry id w = Some (Inherited (NativeFunction name)) ->
  ConversationHistory.deleteById id w = (Throw SyntaxError, w).
Proof.
  intros He.
  unfold ConversationHistory.deleteById, bind, docGet, snapExists.
  cbn [snapData]. now rewrite He.
Qed.

(** X6. On a store produced by the repository, [deleteById] of an
    existing conversation returns the record [findById] gave for it,
    and removes exactly that document: afterwards [findById] of the id
    returns null, every other id reads as before, and
    [countDocuments()] is one less. *)
Theorem deleteById_removes_exactly_one
        (clock : nat -> string) (id : string) (d : JsVal) (w : World) :
  reachable clock w ->
  lookupDoc id (collection w) = Some d ->
  exists r w' n,
    ConversationHistory.deleteById id w = (Ok r, w')
    /\ ConversationHistory.findById id w = (Ok r, w)
    /\ ConversationHistory.findById id w' = (Ok JNull, w')
    /\ (forall id', id' <> id ->
                    lookupDoc id' (collection w') = lookupDoc id' (collection w))
    /\ ConversationHistory.countDocuments JUndefined w = (Ok (n + 1)%Z, w)
    /\ ConversationHistory.countDocuments JUndefined w' = (Ok n, w').
Proof.
  intros Hr Hl.
  destruct (ids_invariant clock w Hr) as [Hnd _].
  destruct (stored_id_plain clock w id d Hr Hl) as [Hplain _].
  do 2 eexists. exists (Z.of_nat (List.length (removeDoc id (collection w)))).
  split; [apply (deleteById_found id d w Hl)|].
  split.
  { unfold ConversationHistory.findById, bind, docGet, snapExists.
    cbn [snapData]. now rewrite (entry_stored _ _ _ Hl). }
  split.
  { apply findById_absent, entry_missing; [|exact Hplain].
    rewrite collection_some. now apply lookupDoc_remove_same. }
  split.
  { intros id' Hne. rewrite collection_some.
    apply lookupDoc_remove_other. congruence. }
  rewrite !countDocuments_all, collection_some.
  split; [|reflexivity].
  rewrite <- (removeDoc_length id d _ Hl). do 2 f_equal. lia.
Qed.

Lemma deleteById_removes_exactly_one_witness :
  exists r w' n,
    ConversationHistory.deleteById "mock-id-2" threeStored = (Ok r, w')
    /\ ConversationHistory.findById "mock-id-2" threeStored = (Ok r, threeStored)
    /\ ConversationHistory.findById "mock-id-2" w' = (Ok JNull, w')
    /\ (forall id', id' <> "mock-id-2" ->
                    lookupDoc id' (collection w')
                    = lookupDoc id' (collection threeStored))
    /\ ConversationHistory.countDocuments JUndefined threeStored
       = (Ok (n + 1)%Z, threeStored)
    /\ ConversationHistory.countDocuments JUndefined w' = (Ok n, w').
Proof.
  refine (deleteById_removes_exactly_one sampleClock "mock-id-2" _ threeStored
            threeStored_reachable _).
  reflexivity.
Defined.

(** ** What an append leaves alone *)

Lemma mapM_storedMessage_throw now l :
  Exists (fun m => isNullish m = true) l ->
  mapM (ConversationHistory.storedMessage now) l = Throw TypeError.
Proof.
  induction l as [|m r IH]; intros H; [inversion H|].
  cbn [mapM]. unfold ConversationHistory.storedMessage at 1.
  destruct (isNullish m) eqn:E; [reflexivity|]. cbn [resBind].
  rewrite IH; [reflexivity|].
  inversion H as [? ? Hm|? ? Hr]; subst; [congruence|exact Hr].
Qed.

Lemma appendMessages_invalid_writes_nothing_aux clock id l w existing :
  lookupDoc id (collection w) = Some existing ->
  Exists (fun m => isNullish m = true) l ->
  ConversationHistory.appendMessages clock id (JArr l) w
  = (Throw TypeError, mkWorld (store w) (idCounter w) (S (tick w))).
Proof.
  intros Hl H.
  unfold ConversationHistory.appendMessages, bind, docGet, snapExists.
  cbn [snapData]. rewrite (entry_stored _ _ _ Hl). cbn [negb].
  unfold ConversationHistory.nowISO, lift. cbn [tick arrayMap].
  now rewrite mapM_storedMessage_throw.
Qed.

Section AppendFrame.
Variable clock : nat -> string.

(** X7. On a store produced by the repository, a successful append
    touches one document only, and of it only [messages] and
    [updatedAt]: the ids in the store and their order, the documents
    under every other id, and the other fields of the target
    ([sessionId], [userId], [metadata], [createdAt], ...) are as
    before; the id counter is unchanged. *)
Theorem appendMessages_frame
        (id : string) (msgs : list JsVal) (w : World) (existing : JsVal) :
  reachable clock w ->
  lookupDoc id (collection w) = Some existing ->
  Forall (fun m => isNullish m = false) msgs ->
  exists r w' stored,
    ConversationHistory.appendMessages clock id (JArr msgs) w = (Ok r, w')
    /\ lookupDoc id (collection w') = Some stored
    /\ storedIds w' = storedIds w
    /\ idCounter w' = idCounter w
    /\ (forall id', id' <> id ->
                    lookupDoc id' (collection w') = lookupDoc id' (collection w))
    /\ (forall k, k <> "messages" -> k <> "updatedAt" ->
                  getField stored k = getField existing k).
Proof.
  intros Hr Hl Hmsgs.
  apply reachable_wf in Hr.
  destruct (Forall_lookupDoc _ id existing _ Hr Hl)
    as (ps & -> & Hnd & (old & Hm) & _).
  pose proof (appendMessages_ok clock id msgs w ps old Hl Hm Hmsgs) as Heq.
  cbv zeta in Heq.
  do 3 eexists. split; [exact Heq|].
  unfold storedIds. rewrite collection_some.
  split; [eapply lookupDoc_replace_same, Hl|].
  split; [apply replaceDoc_keys|].
  split; [reflexivity|].
  split.
  - intros id' Hne. apply lookupDoc_replace_other. congruence.
  - intros k Hk1 Hk2. cbn [getField].
    now rewrite !lookupProp_assign_other by congruence.
Qed.

(** X8. The record a successful append returns is the record a
    [findById] of the same id returns right afterwards. *)
Theorem appendMessages_then_findById
        (id : string) (msgs : list JsVal) (w : World) (existing : JsVal) :
  reachable clock w ->
  lookupDoc id (collection w) = Some existing ->
  Forall (fun m => isNullish m = false) msgs ->
  exists r w',
    ConversationHistory.appendMessages clock id (JArr msgs) w = (Ok r, w')
    /\ ConversationHistory.findById id w' = (Ok r, w').
Proof.
  intros Hr Hl Hmsgs.
  apply reachable_wf in Hr.
  destruct (Forall_lookupDoc _ id existing _ Hr Hl)
    as (ps & -> & Hnd & (old & Hm) & _).
  pose proof (appendMessages_ok clock id msgs w ps old Hl Hm Hmsgs) as Heq.
  cbv zeta in Heq.
  do 2 eexists. split; [exact Heq|].
  apply findById_found; [|reflexivity].
  rewrite collection_some. eapply lookupDoc_replace_same, Hl.
Qed.

(** X9. An append whose messages are not an array, or hold a null or
    undefined element, throws a TypeError before anything is written:
    the documents in the store are exactly as before (only the clock
    has been read). *)
Theorem appendMessages_invalid_writes_nothing
        (id : string) (messages : JsVal) (w : World) (existing : JsVal) :
  lookupDoc id (collection w) = Some existing ->
  isArray messages = false
  \/ (exists l, messages = JArr l /\ Exists (fun m => isNullish m = true) l) ->
  ConversationHistory.appendMessages clock id messages w
  = (Throw TypeError, mkWorld (store w) (idCounter w) (S (tick w))).
Proof.
  intros Hl H.
  unfold ConversationHistory.appendMessages, bind, docGet, snapExists.
  cbn [snapData]. rewrite (entry_stored _ _ _ Hl). cbn [negb].
  unfold ConversationHistory.nowISO, lift. cbn [tick].
  destruct H as [H|(l & -> & H)].
  - destruct messages; try reflexivity. discriminate.
  - cbn [arrayMap]. now rewrite mapM_storedMessage_throw.
Qed.
End AppendFrame.

Lemma appendMessages_frame_witness :
  exists r w' stored,
    ConversationHistory.appendMessages sampleClock "mock-id-1"
      (JArr [chatMessage "assistant" "Hi there!"]) oneStored = (Ok r, w')
    /\ lookupDoc "mock-id-1" (collection w') = Some stored
    /\ storedIds w' = storedIds oneStored
    /\ getField stored "userId" = JStr "user-1".
Proof.
  destruct (appendMessages_frame sampleClock "mock-id-1"
              [chatMessage "assistant" "Hi there!"] oneStored _
              oneStored_reachable eq_refl
              ltac:(repeat constructor))
    as (r & w' & stored & Heq & Hl & Hids & _ & _ & Hk).
  exists r, w', stored. repeat split; try assumption.
  rewrite Hk by discriminate. reflexivity.
Defined.

Lemma appendMessages_then_findById_witness :
  exists r w',
    ConversationHistory.appendMessages sampleClock "mock-id-1"
      (JArr [chatMessage "assistant" "Hi there!"]) oneStored = (Ok r, w')
    /\ ConversationHistory.findById "mock-id-1" w' = (Ok r, w').
Proof.
  refine (appendMessages_then_findById sampleClock "mock-id-1"
            [chatMessage "assistant" "Hi there!"] oneStored _
            oneStored_reachable eq_refl _).
  repeat constructor.
Defined.

Lemma appendMessages_invalid_writes_nothing_witness :
  ConversationHistory.appendMessages sampleClock "mock-id-1"
    (JArr [chatMessage "assistant" "Hi"; JNull]) oneStored
  = (Throw TypeError,
     mkWorld (store oneStored) (idCounter oneStored) (S (tick oneStored))).
Proof.
  refine (appendMessages_invalid_writes_nothing sampleClock "mock-id-1"
            _ oneStored _ eq_refl _).
  right. eexists. split; [reflexivity|].
  apply Exists_cons_tl, Exists_cons_hd. reflexivity.
Defined.

(** ** Creating a batch *)

Lemma add_generated w d t :
  Forall (generatedId w) (storedIds w) ->
  let w1 := mkWorld (Some (assignProp (mockId (S (idCounter w))) d
                                      (collection w)))
                    (S (idCounter w)) t in
  Forall (generatedId w1) (storedIds w1)
  /\ List.length (collection w1) = S (List.length (collection w)).
Proof.
  intros Hg w1.
  pose proof (next_id_fresh w Hg) as Hfresh.
  unfold storedIds in *. subst w1. rewrite collection_some.
  split; [|now apply assignProp_length_fresh].
  rewrite assignProp_keys_fresh by assumption.
  apply Forall_app. split.
  - eapply Forall_impl; [|exact Hg].
    intros x (k & Hk & E). exists k. split; [cbn [idCounter]; lia|exact E].
  - repeat constructor. exists (S (idCounter w)).
    split; [cbn [idCounter]; lia|reflexivity].
Qed.

Section BatchFacts.
Variable clock : nat -> string.

Lemma createEach_singles items :
  Forall singleRecord items ->
  forall w,
    Forall (generatedId w) (storedIds w) ->
    exists rs w',
      createEach clock items w = (Ok rs, w')
      /\ List.length rs = List.length items
      /\ idCounter w' = (idCounter w + List.length items)%nat
      /\ Forall (generatedId w') (storedIds w')
      /\ List.length (collection w')
         = (List.length (collection w) + List.length items)%nat
      /\ (forall i r, nth_error rs i = Some r ->
                      getField r "id" = JStr (mockId (idCounter w + S i))).
Proof.
  induction 1 as [|item rest Hitem _ IH]; intros w Hg.
  - exists [], w. cbn. repeat split; auto; try lia.
    intros [|i] r H; discriminate.
  - destruct Hitem as (Ha & Hn & msgs & Hm & Hmsgs).
    pose proof (create_result clock item w msgs Ha Hn Hm Hmsgs) as Heq.
    cbv zeta in Heq.
    set (r0 := withId (mockId (S (idCounter w)))
                 (ConversationHistory.newDocument (clock (tick w)) item
                    (map (stamped (clock (tick w))) msgs))) in *.
    set (w1 := mkWorld _ _ _) in Heq.
    destruct (add_generated w
                (jsonClone (ConversationHistory.newDocument
                              (clock (tick w)) item
                              (map (stamped (clock (tick w))) msgs)))
                (S (tick w)) Hg) as [Hg1 Hlen1].
    fold w1 in Hg1, Hlen1.
    destruct (IH w1 Hg1) as (rs & w' & Hrs & Hlen & Hc & Hg' & Hlen' & Hids).
    exists (r0 :: rs), w'.
    split.
    { cbn [createEach]. unfold bind. rewrite Heq.
      fold (createEach clock). now rewrite Hrs. }
    split; [cbn [List.length]; now rewrite Hlen|].
    split; [rewrite Hc; cbn; lia|].
    split; [exact Hg'|].
    split; [rewrite Hlen', Hlen1; cbn [List.length]; lia|].
    intros [|i] r Hr.
    + cbn in Hr. injection Hr as <-.
      replace (idCounter w + 1)%nat with (S (idCounter w)) by lia.
      reflexivity.
    + cbn [nth_error] in Hr. rewrite (Hids i r Hr). do 2 f_equal.
      cbn [idCounter w1]. unfold w1. cbn [idCounter]. lia.
Qed.

(** X10. On a store produced by the repository, [create] on an array
    of single records creates them one after the other: it returns as
    many records as items, the i-th (from 0) with the id
    [mock-id-(idCounter + i + 1)], and [countDocuments()] grows by the
    number of items. *)
Theorem create_batch (items : list JsVal) (w : World) :
  reachable clock w -> Forall singleRecord items ->
  exists rs w' n,
    ConversationHistory.create clock (JArr items) w = (Ok (JArr rs), w')
    /\ List.length rs = List.length items
    /\ (forall i r, nth_error rs i = Some r ->
                    getField r "id" = JStr (mockId (idCounter w + S i)))
    /\ ConversationHistory.countDocuments JUndefined w = (Ok n, w)
    /\ ConversationHistory.countDocuments JUndefined w'
       = (Ok (n + Z.of_nat (List.length items))%Z, w').
Proof.
  intros Hr Hitems.
  destruct (ids_invariant clock w Hr) as [_ Hg].
  destruct (createEach_singles items Hitems w Hg)
    as (rs & w' & Hrs & Hlen & _ & _ & Hlen' & Hids).
  exists rs, w', (Z.of_nat (List.length (collection w))).
  split; [rewrite create_array; unfold bind; now rewrite Hrs|].
  split; [exact Hlen|]. split; [exact Hids|].
  rewrite !countDocuments_all. split; [reflexivity|].
  rewrite Hlen'. do 2 f_equal. lia.
Qed.

(** X11. A batch is not created as a whole: when an item of the array
    is null or undefined and the items before it are single records,
    [create] throws a TypeError, and the records before the bad item
    have been stored all the same ([countDocuments()] has grown by
    their number); the items behind it are not looked at. *)
Theorem create_batch_stops_at_bad_item
        (items : list JsVal) (bad : JsVal) (rest : list JsVal) (w : World) :
  reachable clock w -> Forall singleRecord items -> isNullish bad = true ->
  exists w' n,
    ConversationHistory.create clock (JArr (items ++ bad :: rest)) w
    = (Throw TypeError, w')
    /\ ConversationHistory.countDocuments JUndefined w = (Ok n, w)
    /\ ConversationHistory.countDocuments JUndefined w'
       = (Ok (n + Z.of_nat (List.length items))%Z, w').
Proof.
  intros Hr Hitems Hbad.
  destruct (ids_invariant clock w Hr) as [_ Hg].
  assert (Heach : forall w,
             Forall (generatedId w) (storedIds w) ->
             exists w',
               createEach clock (items ++ bad :: rest) w = (Throw TypeError, w')
               /\ List.length (collection w')
                  = (List.length (collection w) + List.length items)%nat).
  { clear w Hr Hg.
    induction Hitems as [|item more Hitem _ IH]; intros w Hg.
    - eexists. cbn [app createEach]. unfold bind.
      rewrite create_single by (destruct bad; try reflexivity; discriminate).
      unfold ConversationHistory.createOne, bind, ConversationHistory.nowISO.
      rewrite Hbad. unfold throw. split; [reflexivity|].
      rewrite collection_same_store. cbn. lia.
    - destruct Hitem as (Ha & Hn & msgs & Hm & Hmsgs).
      pose proof (create_result clock item w msgs Ha Hn Hm Hmsgs) as Heq.
      cbv zeta in Heq.
      set (w1 := mkWorld _ _ _) in Heq.
      destruct (add_generated w
                  (jsonClone (ConversationHistory.newDocument
                                (clock (tick w)) item
                                (map (stamped (clock (tick w))) msgs)))
                  (S (tick w)) Hg) as [Hg1 Hlen1].
      fold w1 in Hg1, Hlen1.
      destruct (IH w1 Hg1) as (w' & Hrs & Hlen').
      exists w'. split.
      + cbn [app createEach]. unfold bind. rewrite Heq.
        fold (createEach clock). now rewrite Hrs.
      + rewrite Hlen', Hlen1. cbn [List.length]. lia. }
  destruct (Heach w Hg) as (w' & Hrs & Hlen').
  exists w', (Z.of_nat (List.length (collection w))).
  split; [rewrite create_array; unfold bind; now rewrite Hrs|].
  rewrite !countDocuments_all. split; [reflexivity|].
  rewrite Hlen'. do 2 f_equal. lia.
Qed.
End BatchFacts.

Lemma sessionRecord_single sessionId userId :
  singleRecord (sessionRecord sessionId userId).
Proof.
  repeat split. exists []. split; [reflexivity|constructor].
Qed.

Lemma emptyWorld_reachable clock : reachable clock emptyWorld.
Proof. exists []. split; [constructor|reflexivity]. Qed.

Lemma create_batch_witness :
  exists rs w' n,
    ConversationHistory.create sampleClock threeConversations emptyWorld
    = (Ok (JArr rs), w')
    /\ List.length rs = 3%nat
    /\ (forall i r, nth_error rs i = Some r ->
                    getField r "id" = JStr (mockId (0 + S i)))
    /\ ConversationHistory.countDocuments JUndefined emptyWorld
       = (Ok n, emptyWorld)
    /\ ConversationHistory.countDocuments JUndefined w' = (Ok (n + 3)%Z, w').
Proof.
  refine (create_batch sampleClock
            [sessionRecord "s1" "user-1"; sessionRecord "s2" "user-1";
             sessionRecord "s3" "user-2"]
            emptyWorld (emptyWorld_reachable _) _).
  repeat constructor; apply sessionRecord_single.
Defined.

Lemma create_batch_stops_at_bad_item_witness :
  exists w' n,
    ConversationHistory.create sampleClock
      (JArr [sessionRecord "s1" "user-1"; JNull; sessionRecord "s3" "user-2"])
      emptyWorld
    = (Throw TypeError, w')
    /\ ConversationHistory.countDocuments JUndefined emptyWorld
       = (Ok n, emptyWorld)
    /\ ConversationHistory.countDocuments JUndefined w' = (Ok (n + 1)%Z, w').
Proof.
  refine (create_batch_stops_at_bad_item sampleClock
            [sessionRecord "s1" "user-1"] JNull [sessionRecord "s3" "user-2"]
            emptyWorld (emptyWorld_reachable _) _ eq_refl).
  repeat constructor; apply sessionRecord_single.
Defined.

(** ** Counting and paging *)

Lemma filter_filter {A} (f g : A -> bool) l :
  filter f (filter g l) = filter (fun x => g x && f x) l.
Proof.
  induction l as [|x r IH]; simpl; [reflexivity|].
  destruct (g x); simpl; [destruct (f x)|]; now rewrite IH.
Qed.

Lemma where_all_filters entries :
  forall q,
    filters (fold_left (fun query kv => where_ query (fst kv) "==" (snd kv))
                       entries q)
    = filters q ++ map (fun kv => mkFilter (fst kv) "==" (snd kv)) entries.
Proof.
  induction entries as [|e r IH]; intros q; simpl.
  - now rewrite List.app_nil_r.
  - rewrite IH. cbn [where_ filters]. now rewrite <- List.app_assoc.
Qed.

Lemma filter_each_entry entries :
  forall docs,
    fold_left (fun docs f => filter (matches f) docs)
              (map (fun kv => mkFilter (fst kv) "==" (snd kv)) entries) docs
    = filter (matchesAll entries) docs.
Proof.
  induction entries as [|e r IH]; intros docs; simpl.
  - induction docs as [|d ds IHd]; simpl; [reflexivity|now rewrite <- IHd].
  - rewrite IH, filter_filter. apply filter_ext. intros d. reflexivity.
Qed.

Lemma countDocuments_object ps w :
  ConversationHistory.countDocuments (JObj ps) w
  = (Ok (Z.of_nat (List.length (filter (matchesAll ps) (collection w)))), w).
Proof.
  unfold ConversationHistory.countDocuments, bind, lift. cbn [objectEntries].
  unfold queryCount, getFilteredDocs.
  rewrite where_all_filters. cbn [filters collectionRef app].
  now rewrite filter_each_entry.
Qed.

(** Whatever the page and the limit, absent or given, the listing
    succeeds and leaves the store alone. *)
Lemma findByUserId_total userId page limit w :
  exists r,
    ConversationHistory.findByUserId userId page limit w = (Ok r, w)
    /\ ConversationHistory.total r
       = Z.of_nat (List.length (filter (ownedBy userId) (collection w)))
    /\ exists docs, ConversationHistory.conversations r = map entryRecord docs.
Proof.
  assert (E : ConversationHistory.findByUserId userId page limit w
              = ConversationHistory.findByUserId userId
                  (Some (match page with Some p => p | None => 1%Z end))
                  (Some (match limit with Some l => l | None => 20%Z end)) w)
    by reflexivity.
  rewrite E, findByUserId_eq. eexists. split; [reflexivity|].
  split; [reflexivity|]. eexists. reflexivity.
Qed.

Lemma matchesAll_plain ps d :
  Forall (fun kv => inherited (fst kv) = None) ps ->
  matchesAll ps d
  = forallb (fun kv => strictEq (getField (snd d) (fst kv)) (snd kv)) ps.
Proof.
  induction 1 as [|kv r Hkv _ IH]; [reflexivity|].
  cbn [matchesAll forallb]. rewrite (getProp_plain _ _ Hkv).
  f_equal. exact IH.
Qed.

(** X12. [countDocuments(filter)] leaves the store alone and counts the
    documents in which, for every entry of the filter object, what is
    read under the entry's name is strictly equal to the entry's value;
    for names that are not inherited from [Object.prototype] that is a
    field of the document.  Under an inherited name that no document
    has as a field of its own a built-in is read, which no value of the
    filter equals: the count is 0.  Without a filter all documents are
    counted; with [{ userId }] the count is the [total] that
    [findByUserId] reports for that owner, whatever the page; a null
    filter throws a TypeError. *)
Theorem countDocuments_counts_matches :
  (forall ps w,
      ConversationHistory.countDocuments (JObj ps) w
      = (Ok (Z.of_nat (List.length (filter (matchesAll ps) (collection w)))),
         w))
  /\ (forall ps w,
         Forall (fun kv => inherited (fst kv) = None) ps ->
         ConversationHistory.countDocuments (JObj ps) w
         = (Ok (Z.of_nat
                  (List.length
                     (filter
                        (fun d =>
                           forallb (fun kv => strictEq (getField (snd d) (fst kv))
                                                       (snd kv)) ps)
                        (collection w)))),
            w))
  /\ (forall k v ps w,
         inherited k <> None ->
         Forall (fun d => exists props,
                     snd d = JObj props /\ hasOwn k props = false)
                (collection w) ->
         ConversationHistory.countDocuments (JObj ((k, v) :: ps)) w
         = (Ok 0%Z, w))
  /\ (forall w,
         ConversationHistory.countDocuments JUndefined w
         = (Ok (Z.of_nat (List.length (collection w))), w))
  /\ (forall userId page limit w,
         exists r,
           ConversationHistory.findByUserId userId page limit w = (Ok r, w)
           /\ ConversationHistory.countDocuments (JObj [("userId", userId)]) w
              = (Ok (ConversationHistory.total r), w))
  /\ (forall w,
         ConversationHistory.countDocuments JNull w = (Throw TypeError, w)).
Proof.
  split; [exact countDocuments_object|].
  split.
  { intros ps w Hps. rewrite countDocuments_object. do 4 f_equal.
    apply filter_ext. intros d. now apply matchesAll_plain. }
  split.
  { intros k v ps w Hk Hdocs. rewrite countDocuments_object.
    do 2 f_equal.
    replace (filter (matchesAll ((k, v) :: ps)) (collection w))
      with (@nil (string * JsVal)); [reflexivity|].
    symmetry. induction Hdocs as [|d r (props & Hd & Hown) _ IH];
      [reflexivity|].
    cbn [filter]. rewrite IH.
    unfold matchesAll. cbn [forallb fst snd]. rewrite Hd.
    cbn [getProp]. rewrite Hown.
    destruct (inherited k); [reflexivity|congruence]. }
  split; [exact countDocuments_all|].
  split; [|reflexivity].
  intros userId page limit w.
  destruct (findByUserId_total userId page limit w) as (r & Heq & Ht & _).
  exists r. split; [exact Heq|].
  rewrite countDocuments_object, Ht. do 4 f_equal.
  apply filter_ext. intros d. unfold matchesAll, ownedBy. cbn [forallb fst snd].
  rewrite getProp_plain by reflexivity. cbn [slotEq].
  now rewrite andb_true_r.
Qed.

Lemma countDocuments_counts_matches_witness :
  ConversationHistory.countDocuments
    (JObj [("constructor", JUndefined)]) threeStored
  = (Ok 0%Z, threeStored)
  /\ ConversationHistory.countDocuments
       (JObj [("userId", JStr "user-1")]) threeStored
     = (Ok 2%Z, threeStored).
Proof.
  split.
  - refine (proj1 (proj2 (proj2 countDocuments_counts_matches))
                  "constructor" JUndefined [] threeStored _ _).
    + discriminate.
    + repeat constructor; eexists; split; reflexivity.
  - refine (eq_trans
              (proj1 (proj2 countDocuments_counts_matches)
                     [("userId", JStr "user-1")] threeStored _) _).
    + repeat constructor.
    + reflexivity.
Defined.

Lemma sort_length {A} (cmp : A -> A -> Z) l :
  List.length (sort cmp l) = List.length l.
Proof. apply Permutation_length, sort_perm. Qed.

(** X13. For [page >= 1] and [limit >= 1], the page [findByUserId]
    returns holds exactly [min(limit, max(0, total - (page-1)*limit))]
    conversations: full pages, then the remainder, then empty pages
    past the end. *)
Theorem findByUserId_page_size (userId : JsVal) (page limit : Z) (w : World) :
  (1 <= page)%Z -> (1 <= limit)%Z ->
  exists r,
    ConversationHistory.findByUserId userId (Some page) (Some limit) w
    = (Ok r, w)
    /\ Z.of_nat (List.length (ConversationHistory.conversations r))
       = Z.min limit
               (Z.max 0 (ConversationHistory.total r - (page - 1) * limit)).
Proof.
  intros Hp Hl. rewrite findByUserId_eq. eexists. split; [reflexivity|].
  cbn [ConversationHistory.conversations ConversationHistory.total].
  rewrite !length_map, slice_window by nia.
  rewrite length_firstn, length_skipn, sort_length.
  assert (0 <= (page - 1) * limit)%Z by nia.
  lia.
Qed.

Lemma findByUserId_page_size_witness :
  exists r,
    ConversationHistory.findByUserId (JStr "user-1") (Some 2%Z) (Some 1%Z)
                                     threeStored
    = (Ok r, threeStored)
    /\ Z.of_nat (List.length (ConversationHistory.conversations r))
       = Z.min 1 (Z.max 0 (ConversationHistory.total r - (2 - 1) * 1)).
Proof.
  apply (findByUserId_page_size (JStr "user-1") 2 1 threeStored); lia.
Defined.

Lemma firstn_add {A} n m (l : list A) :
  firstn (n + m) l = firstn n l ++ firstn m (skipn n l).
Proof.
  revert l. induction n as [|n IH]; intros l; [reflexivity|].
  destruct l as [|x r]; simpl; [now rewrite firstn_nil|].
  now rewrite IH.
Qed.

Lemma pages_concat {A B} (f : A -> B) (L : nat) (l : list A) k :
  flat_map (fun p => map f (firstn L (skipn ((p - 1) * L) l))) (seq 1 k)
  = map f (firstn (k * L) l).
Proof.
  induction k as [|k IH]; [reflexivity|].
  rewrite seq_S, flat_map_app, IH. cbn [flat_map].
  rewrite List.app_nil_r, <- map_app. f_equal.
  replace (1 + k - 1)%nat with k by lia.
  replace (S k * L)%nat with (k * L + L)%nat by lia.
  now rewrite firstn_add.
Qed.

Lemma flat_map_same {A B} (f g : A -> list B) l :
  (forall x, In x l -> f x = g x) -> flat_map f l = flat_map g l.
Proof.
  induction l as [|x r IH]; intros H; [reflexivity|].
  cbn [flat_map]. rewrite (H x) by now left.
  rewrite IH; [reflexivity|]. intros y Hy. apply H. now right.
Qed.

Lemma pageOf_eq userId limit w p :
  (1 <= limit)%Z -> (1 <= p)%nat ->
  pageOf userId limit w p
  = map entryRecord
        (firstn (Z.to_nat limit)
                (skipn ((p - 1) * Z.to_nat limit)
                       (sort (compareDocs "updatedAt" "desc")
                             (filter (ownedBy userId) (collection w))))).
Proof.
  intros Hl Hp. unfold pageOf. rewrite findByUserId_eq.
  cbn [fst ConversationHistory.conversations].
  rewrite slice_window by nia.
  do 3 f_equal. nia.
Qed.

(** X14. Paging loses and repeats nothing: for [limit >= 1] and any
    number [k] of pages with [k * limit >= total], the pages 1 to [k]
    of an owner, one after the other, are the records of a list that
    is a permutation of all the documents of that owner. *)
Theorem pages_cover_owner (userId : JsVal) (limit : Z) (w : World) (k : nat) :
  (1 <= limit)%Z ->
  (Z.of_nat (List.length (filter (ownedBy userId) (collection w)))
   <= Z.of_nat k * limit)%Z ->
  exists sorted,
    Permutation sorted (filter (ownedBy userId) (collection w))
    /\ flat_map (pageOf userId limit w) (seq 1 k)
       = map entryRecord
             sorted.
Proof.
  intros Hl Hk.
  exists (sort (compareDocs "updatedAt" "desc")
               (filter (ownedBy userId) (collection w))).
  split; [apply sort_perm|].
  rewrite (flat_map_same _
             (fun p => map entryRecord
                           (firstn (Z.to_nat limit)
                              (skipn ((p - 1) * Z.to_nat limit)
                                 (sort (compareDocs "updatedAt" "desc")
                                    (filter (ownedBy userId) (collection w))))))).
  - rewrite pages_concat, firstn_all2; [reflexivity|].
    rewrite sort_length. nia.
  - intros p Hp. apply in_seq in Hp. apply pageOf_eq; lia.
Qed.

Lemma pages_cover_owner_witness :
  exists sorted,
    Permutation sorted (filter (ownedBy (JStr "user-1")) (collection threeStored))
    /\ flat_map (pageOf (JStr "user-1") 1 threeStored) (seq 1 2)
       = map entryRecord
             sorted.
Proof.
  apply (pages_cover_owner (JStr "user-1") 1 threeStored 2); [lia|].
  vm_compute. discriminate.
Defined.

(** ** The latest conversation comes first *)

Lemma run_snoc clock ops o w :
  run clock (ops ++ [o]) w = step clock (run clock ops w) o.
Proof. unfold run. now rewrite fold_left_app. Qed.

Lemma reachable_step clock w o :
  writesPrototype o = false ->
  reachable clock w -> reachable clock (step clock w o).
Proof.
  intros Ho (ops & Hops & <-). exists (ops ++ [o]).
  split; [|apply run_snoc].
  apply Forall_app. split; [exact Hops|]. now constructor.
Qed.

(** An append under [__proto__] leaves in the store what an append
    under [constructor] leaves: histories that stay clear of the former
    reach every store that any history reaches. *)
Lemma generated_not_inherited w id :
  Forall (generatedId w) (storedIds w) -> inherited id <> None ->
  lookupDoc id (collection w) = None.
Proof.
  intros Hg Hi. apply lookupDoc_None. intros Hin.
  rewrite Forall_forall in Hg. destruct (Hg _ Hin) as (k & _ & ->).
  now apply Hi, mockId_plain.
Qed.

Lemma appendMessages_inherited_any clock id id' messages w :
  lookupDoc id (collection w) = None -> inherited id <> None ->
  lookupDoc id' (collection w) = None -> inherited id' <> None ->
  snd (ConversationHistory.appendMessages clock id messages w)
  = snd (ConversationHistory.appendMessages clock id' messages w).
Proof.
  intros Hl Hi Hl' Hi'.
  destruct (inherited id) as [b|] eqn:Eb; [|congruence].
  destruct (inherited id') as [b'|] eqn:Eb'; [|congruence].
  destruct (store w) as [c|] eqn:Hs.
  - unfold collection in Hl, Hl'. rewrite Hs in Hl, Hl'.
    rewrite (appendMessages_inherited clock id messages w b
               (entry_inherited _ _ c _ Hs Hl Eb)).
    now rewrite (appendMessages_inherited clock id' messages w b'
                   (entry_inherited _ _ c _ Hs Hl' Eb')).
  - now rewrite !appendMessages_missing by now apply entry_no_collection.
Qed.

Lemma reachable_any_history clock ops :
  reachable clock (run clock ops emptyWorld).
Proof.
  induction ops as [|o ops IH] using rev_ind;
    [apply emptyWorld_reachable|].
  rewrite run_snoc.
  destruct (writesPrototype o) eqn:Ho; [|now apply reachable_step].
  destruct o as [d|id messages|id]; try discriminate.
  cbn [writesPrototype] in Ho. apply String.eqb_eq in Ho. subst id.
  destruct (ids_run clock ops) as [_ Hg].
  replace (step clock (run clock ops emptyWorld)
                (AppendMessages "__proto__" messages))
    with (step clock (run clock ops emptyWorld)
               (AppendMessages "constructor" messages)).
  - now apply reachable_step.
  - cbn [step].
    apply appendMessages_inherited_any;
      try (apply generated_not_inherited; [exact Hg|]); discriminate.
Qed.

(** X15. On a store produced by the repository, when the clock reads a
    time strictly later than all its earlier readings: after a
    successful append to a conversation, the first page of the listing
    of its owner starts with that conversation, as the very record the
    append returned. *)
Theorem appended_conversation_listed_first
        (clock : nat -> string) (id : string) (msgs : list JsVal) (w : World)
        (existing userId : JsVal) (limit : Z) :
  strictlyLater clock (tick w) -> reachable clock w ->
  lookupDoc id (collection w) = Some existing ->
  Forall (fun m => isNullish m = false) msgs ->
  strictEq (getField existing "userId") userId = true ->
  (1 <= limit)%Z ->
  exists r w' others,
    ConversationHistory.appendMessages clock id (JArr msgs) w = (Ok r, w')
    /\ pageOf userId limit w' 1 = r :: others.
Proof.
  intros Hstrict Hr Hl Hmsgs Hown Hlim.
  pose proof (reachable_wf clock w Hr) as Hwf.
  pose proof (step_wf clock w (AppendMessages id (JArr msgs)) Hwf) as Hr'.
  destruct (Forall_lookupDoc _ id existing _ Hwf Hl)
    as (ps & -> & Hnd & (old & Hm) & _).
  pose proof (appendMessages_ok clock id msgs w ps old Hl Hm Hmsgs) as Heq.
  cbv zeta in Heq. cbn [step] in Hr'. rewrite Heq in Hr'. cbn [snd] in Hr'.
  set (existing' := JObj (assignProp "updatedAt" _ _)) in *.
  set (w' := mkWorld _ _ _) in *.
  assert (Hupd : getField existing' "updatedAt" = JStr (clock (tick w)))
    by apply lookupProp_assign_same.
  set (e := (id, existing')).
  set (owned := filter (ownedBy userId) (collection w')).
  set (sorted := sort (compareDocs "updatedAt" "desc") owned).
  assert (Hts : Forall hasTimestamp owned).
  { unfold owned, wfStore in *. rewrite Forall_forall in *. intros x Hx.
    apply filter_In in Hx. eapply wfDoc_hasTimestamp, Hr', Hx. }
  assert (Hsorted : StronglySorted (fun a b => notOlder (snd a) (snd b)) sorted).
  { apply (sort_sorted _ _ hasTimestamp);
      [exact compareDocs_desc_le|exact compareDocs_desc_gt
      |exact notOlder_trans|exact Hts]. }
  assert (Hperm : Permutation sorted owned) by apply sort_perm.
  assert (He : In e sorted).
  { apply (Permutation_in _ (Permutation_sym Hperm)).
    unfold owned. apply filter_In. split.
    - unfold w'. rewrite collection_some.
      eapply In_replaceDoc_same, Hl.
    - unfold ownedBy, e, existing'. cbn [snd getField].
      rewrite !lookupProp_assign_other by discriminate. exact Hown. }
  assert (Hhead : exists tl, sorted = e :: tl).
  { clearbody sorted. destruct sorted as [|h tl]; [destruct He|].
    exists tl. f_equal.
    assert (Hh : In h (collection w')).
    { assert (Hin : In h owned)
        by (apply (Permutation_in _ Hperm); now left).
      unfold owned in Hin. now apply filter_In in Hin. }
    unfold w' in Hh. rewrite collection_some in Hh.
    apply In_replaceDoc in Hh. destruct Hh as [Hh|Hh]; [exact Hh|].
    destruct He as [He|He]; [exact He|]. exfalso.
    inversion Hsorted as [|? ? _ Hall]; subst.
    rewrite Forall_forall in Hall. specialize (Hall e He).
    unfold wfStore in Hwf. rewrite Forall_forall in Hwf.
    destruct (Hwf h Hh) as (hps & Ehps & _ & _ & i & j & Hij & _ & Hu).
    unfold notOlder, jsGe in Hall. cbn [snd e] in Hall.
    rewrite Hupd, Ehps in Hall. cbn [getField] in Hall. rewrite Hu in Hall.
    cbn [jsLess] in Hall.
    rewrite (Hstrict j) in Hall by lia. discriminate. }
  destruct Hhead as (tl & Etl).
  destruct (Z.to_nat limit) as [|n] eqn:En; [lia|].
  do 3 eexists. split; [exact Heq|].
  rewrite pageOf_eq by lia. fold owned. fold sorted. rewrite Etl, En.
  cbn [Nat.sub Nat.mul skipn firstn map]. reflexivity.
Qed.

Lemma appended_conversation_listed_first_witness :
  exists r w' others,
    ConversationHistory.appendMessages msClock "mock-id-1"
      (JArr [chatMessage "user" "Hello again"])
      (run msClock [Create threeConversations] emptyWorld) = (Ok r, w')
    /\ pageOf (JStr "user-1") 20 w' 1 = r :: others.
Proof.
  refine (appended_conversation_listed_first msClock "mock-id-1"
            [chatMessage "user" "Hello again"]
            (run msClock [Create threeConversations] emptyWorld)
            _ (JStr "user-1") 20 _ _ eq_refl _ eq_refl _).
  - intros [|[|[|j]]] Hj; try reflexivity. cbn in Hj. lia.
  - exists [Create threeConversations]. split; [|reflexivity].
    repeat constructor.
  - repeat constructor.
  - lia.
Defined.

(** ** The history endpoints *)

(** X16. [POST /history] with a body in which [sessionId] or [userId]
    is absent or falsy is answered 400 whatever the service would do
    (the service is not called), and the store is unchanged. *)
Theorem create_requires_session_and_user
        (createConversation : JsVal -> M JsVal)
        (req : Request) (w : World) :
  isNullish (body req) = false ->
  truthy (getField (body req) "sessionId") = false
  \/ truthy (getField (body req) "userId") = false ->
  historyController.create createConversation req w
  = (mkResponse 400 (JsonError (JStr "sessionId and userId are required")), w).
Proof.
  intros Hb H. unfold historyController.create, tryCatch. rewrite Hb.
  destruct H as [H|H]; rewrite H; [reflexivity|].
  now rewrite orb_true_r.
Qed.

Lemma create_requires_session_and_user_witness :
  historyController.create (historyService.createConversation sampleClock)
                           postWithoutUser oneStored
  = (mkResponse 400 (JsonError (JStr "sessionId and userId are required")),
     oneStored).
Proof.
  refine (create_requires_session_and_user _
            postWithoutUser oneStored eq_refl _).
  right. reflexivity.
Defined.

(** X17. [POST /history] with a truthy [sessionId] and [userId] and
    with messages that are absent or an array without null or
    undefined is answered 201 with the created record: it has the next
    generated id, the session and user ids of the body and as many
    messages as the body.  The record is stored: [findById] of its id
    then returns a record each of whose fields is the JSON copy of the
    same field of the record in the answer. *)
Theorem post_history_creates
        (clock : nat -> string) (req : Request) (w : World) (msgs : list JsVal) :
  isNullish (body req) = false ->
  truthy (getField (body req) "sessionId") = true ->
  truthy (getField (body req) "userId") = true ->
  jsOr (getField (body req) "messages") (JArr []) = JArr msgs ->
  Forall (fun m => isNullish m = false) msgs ->
  exists r w' r',
    historyController.create (historyService.createConversation clock) req w
    = (mkResponse 201 (Json r), w')
    /\ getField r "id" = JStr (mockId (S (idCounter w)))
    /\ getField r "sessionId" = getField (body req) "sessionId"
    /\ getField r "userId" = getField (body req) "userId"
    /\ messageCount r = Some (List.length msgs)
    /\ ConversationHistory.findById (mockId (S (idCounter w))) w' = (Ok r', w')
    /\ (forall k, getField r' k = jsonClone (getField r k)).
Proof.
  intros Hb Hs Hu Hm Hmsgs.
  unfold historyController.create, tryCatch. rewrite Hb, Hs, Hu.
  cbn [negb orb]. unfold bind, historyService.createConversation.
  cbn [isNullish].
  match goal with
  | |- context [ConversationHistory.create clock ?d w] =>
      pose proof (create_result clock d w msgs eq_refl eq_refl) as Heq
  end.
  cbn [getField lookupProp String.eqb Ascii.eqb Bool.eqb] in Heq.
  rewrite Hm in Heq. specialize (Heq eq_refl Hmsgs). cbv zeta in Heq.
  cbn [getField lookupProp String.eqb Ascii.eqb Bool.eqb].
  rewrite Hm. rewrite Heq. unfold ret.
  do 2 eexists.
  match goal with
  | |- context [withId ?i ?doc] => exists (withId i (jsonClone doc))
  end.
  split; [reflexivity|].
  split; [reflexivity|]. split; [reflexivity|]. split; [reflexivity|].
  split; [unfold messageCount; cbn; now rewrite length_map|].
  split.
  - erewrite findById_found;
      [|rewrite collection_some; apply lookupDoc_assign_same|reflexivity].
    now rewrite jsonClone_idempotent.
  - intros k. unfold ConversationHistory.newDocument.
    apply withId_clone; [distinct_keys|].
    simpl. intuition discriminate.
Qed.

Lemma post_history_creates_witness :
  exists r w' r',
    historyController.create (historyService.createConversation sampleClock)
                             postSample emptyWorld
    = (mkResponse 201 (Json r), w')
    /\ getField r "id" = JStr (mockId (S (idCounter emptyWorld)))
    /\ getField r "sessionId" = getField (body postSample) "sessionId"
    /\ getField r "userId" = getField (body postSample) "userId"
    /\ messageCount r = Some (List.length [chatMessage "user" "Hello"])
    /\ ConversationHistory.findById (mockId (S (idCounter emptyWorld))) w'
       = (Ok r', w')
    /\ (forall k, getField r' k = jsonClone (getField r k)).
Proof.
  refine (post_history_creates sampleClock postSample emptyWorld
            [chatMessage "user" "Hello"] eq_refl eq_refl eq_refl eq_refl _).
  repeat constructor.
Defined.

(** X18. [GET /history/:id] never changes the store.  It answers 404
    "Conversation not found" when the store holds nothing under the id
    and the id is not a name the collection object inherits (or there
    is no collection yet), and 200 with the JSON copy of the stored
    document, under its id, when the store holds one.  Once the
    collection exists, an id that names an inherited property is not
    answered 404: [__proto__] is answered 200 with a record that has
    the id only, and the name of an inherited function, such as
    [constructor], is answered 500 with the message of the SyntaxError
    that the copy of the data throws. *)
Theorem get_one_answers (req : Request) (w : World) :
  (lookupDoc (id req) (collection w) = None ->
   store w = None \/ inherited (id req) = None ->
   historyController.getOne historyService.getConversation req w
   = (mkResponse 404 (JsonError (JStr "Conversation not found")), w))
  /\ (forall d,
         lookupDoc (id req) (collection w) = Some d -> truthy d = true ->
         historyController.getOne historyService.getConversation req w
         = (mkResponse 200 (Json (withId (id req) (jsonClone d))), w))
  /\ (forall c,
         store w = Some c -> lookupDoc (id req) c = None ->
         id req = "__proto__" ->
         historyController.getOne historyService.getConversation req w
         = (mkResponse 200 (Json (JObj [("id", JStr "__proto__")])), w))
  /\ (forall c name,
         store w = Some c -> lookupDoc (id req) c = None ->
         inherited (id req) = Some (NativeFunction name) ->
         historyController.getOne historyService.getConversation req w
         = (mkResponse 500 (EngineError SyntaxError), w)).
Proof.
  split; [|split; [|split]].
  - intros Hl Hi. unfold historyController.getOne,
      historyService.getConversation, tryCatch, bind.
    rewrite findById_absent; [reflexivity|].
    destruct Hi as [Hs|Hi];
      [now apply entry_no_collection|now apply entry_missing].
  - intros d Hl Ht. unfold historyController.getOne,
      historyService.getConversation, tryCatch, bind.
    rewrite (findById_found _ _ _ Hl Ht).
    destruct (jsonClone d); reflexivity.
  - intros c Hs Hl Hid. unfold historyController.getOne,
      historyService.getConversation, tryCatch, bind.
    rewrite (findById_prototype (id req) w).
    + now rewrite Hid.
    + apply (entry_inherited _ _ c); [exact Hs|exact Hl|now rewrite Hid].
  - intros c name Hs Hl Hi. unfold historyController.getOne,
      historyService.getConversation, tryCatch, bind.
    now rewrite (findById_function _ _ name
                   (entry_inherited _ _ c _ Hs Hl Hi)).
Qed.

Lemma get_one_answers_witness :
  historyController.getOne historyService.getConversation requestOne emptyWorld
  = (mkResponse 404 (JsonError (JStr "Conversation not found")), emptyWorld)
  /\ historyController.getOne historyService.getConversation
       requestConstructor oneStored
     = (mkResponse 500 (EngineError SyntaxError), oneStored)
  /\ historyController.getOne historyService.getConversation
       requestPrototype oneStored
     = (mkResponse 200 (Json (JObj [("id", JStr "__proto__")])), oneStored).
Proof.
  split; [|split].
  - refine (proj1 (get_one_answers requestOne emptyWorld) eq_refl _).
    now left.
  - exact (proj2 (proj2 (proj2 (get_one_answers requestConstructor oneStored)))
                 _ "Object" eq_refl eq_refl eq_refl).
  - exact (proj1 (proj2 (proj2 (get_one_answers requestPrototype oneStored)))
                 _ eq_refl eq_refl eq_refl).
Defined.

(** X19. [DELETE /history/:id]: when the store holds nothing under the
    id and the id is not a name the collection object inherits (or
    there is no collection yet), the answer is 404 and the store is
    unchanged; on a store produced by the repository that holds a
    document under the id the answer is 204 without a body, and a [GET]
    of the same id is then answered 404.  Once the collection exists,
    [DELETE /history/__proto__] is answered 204 although nothing is
    deleted, and under the name of an inherited function, such as
    [constructor], the answer is 500; the store is unchanged in both
    cases. *)
Theorem remove_answers (clock : nat -> string) (req : Request) (w : World) :
  (lookupDoc (id req) (collection w) = None ->
   store w = None \/ inherited (id req) = None ->
   historyController.remove historyService.deleteConversation req w
   = (mkResponse 404 (JsonError (JStr "Conversation not found")), w))
  /\ (forall d,
         reachable clock w ->
         lookupDoc (id req) (collection w) = Some d ->
         exists w',
           historyController.remove historyService.deleteConversation req w
           = (mkResponse 204 NoBody, w')
           /\ historyController.getOne historyService.getConversation req w'
              = (mkResponse 404 (JsonError (JStr "Conversation not found")),
                 w'))
  /\ (forall c,
         store w = Some c -> lookupDoc (id req) c = None ->
         id req = "__proto__" ->
         historyController.remove historyService.deleteConversation req w
         = (mkResponse 204 NoBody, w))
  /\ (forall c name,
         store w = Some c -> lookupDoc (id req) c = None ->
         inherited (id req) = Some (NativeFunction name) ->
         historyController.remove historyService.deleteConversation req w
         = (mkResponse 500 (EngineError SyntaxError), w)).
Proof.
  split; [|split; [|split]].
  - intros Hl Hi. unfold historyController.remove,
      historyService.deleteConversation, tryCatch, bind.
    rewrite deleteById_absent; [reflexivity|].
    destruct Hi as [Hs|Hi];
      [now apply entry_no_collection|now apply entry_missing].
  - intros d Hr Hl.
    destruct (ids_invariant clock w Hr) as [Hnd _].
    destruct (stored_id_plain clock w (id req) d Hr Hl) as [Hplain _].
    eexists. split.
    + unfold historyController.remove,
        historyService.deleteConversation, tryCatch, bind.
      rewrite (deleteById_found _ _ _ Hl).
      unfold entryRecord. now rewrite truthy_withId.
    + unfold historyController.getOne,
        historyService.getConversation, tryCatch, bind.
      rewrite findById_absent; [reflexivity|].
      apply entry_missing; [|exact Hplain].
      rewrite collection_some. now apply lookupDoc_remove_same.
  - intros c Hs Hl Hid. unfold historyController.remove,
      historyService.deleteConversation, tryCatch, bind.
    rewrite (deleteById_prototype (id req) w); [reflexivity|].
    apply (entry_inherited _ _ c); [exact Hs|exact Hl|now rewrite Hid].
  - intros c name Hs Hl Hi. unfold historyController.remove,
      historyService.deleteConversation, tryCatch, bind.
    now rewrite (deleteById_function _ _ name
                   (entry_inherited _ _ c _ Hs Hl Hi)).
Qed.

Lemma remove_answers_witness :
  (exists w',
      historyController.remove historyService.deleteConversation
                               requestOne oneStored
      = (mkResponse 204 NoBody, w')
      /\ historyController.getOne historyService.getConversation requestOne w'
         = (mkResponse 404 (JsonError (JStr "Conversation not found")), w'))
  /\ historyController.remove historyService.deleteConversation
       requestConstructor oneStored
     = (mkResponse 500 (EngineError SyntaxError), oneStored).
Proof.
  split.
  - refine (proj1 (proj2 (remove_answers sampleClock requestOne oneStored)) _
                  oneStored_reachable _).
    reflexivity.
  - exact (proj2 (proj2 (proj2 (remove_answers sampleClock requestConstructor
                                               oneStored)))
                 _ "Object" eq_refl eq_refl eq_refl).
Defined.

(** X20. On a store produced by the repository, [PUT /history/:id] for
    an existing conversation with a non-empty array of messages, none
    of them null or undefined, is answered 200 with the updated
    record, which has the messages stored before plus all the new
    ones; [findById] then returns the same record. *)
Theorem put_history_appends
        (clock : nat -> string) (req : Request) (w : World)
        (existing : JsVal) (m : JsVal) (ms : list JsVal) :
  reachable clock w ->
  lookupDoc (id req) (collection w) = Some existing ->
  isNullish (body req) = false ->
  getField (body req) "messages" = JArr (m :: ms) ->
  Forall (fun x => isNullish x = false) (m :: ms) ->
  exists old r w',
    getField existing "messages" = JArr old
    /\ historyController.update (historyService.appendMessages clock) req w
       = (mkResponse 200 (Json r), w')
    /\ messageCount r = Some (List.length old + S (List.length ms))%nat
    /\ ConversationHistory.findById (id req) w' = (Ok r, w').
Proof.
  intros Hr Hl Hb Hm Hmsgs.
  pose proof (reachable_wf clock w Hr) as Hwf.
  destruct (Forall_lookupDoc _ _ existing _ Hwf Hl)
    as (ps & -> & Hnd & (old & Hold) & _).
  pose proof (appendMessages_ok clock (id req) (m :: ms) w ps old
                Hl Hold Hmsgs) as Hok.
  cbv zeta in Hok.
  set (new := old ++ map (stamped (clock (tick w))) (m :: ms)) in *.
  set (ps' := assignProp "updatedAt" (JStr (clock (tick w)))
                (assignProp "messages" (JArr new) ps)) in *.
  set (w' := mkWorld _ _ _) in *.
  exists old, (withId (id req) (jsonClone (JObj ps'))), w'.
  split; [exact Hold|]. split; [|split].
  - unfold historyController.update, historyService.appendMessages,
      tryCatch, bind.
    rewrite Hb, Hm. cbn [truthy isArray negb orb List.length Nat.eqb].
    rewrite Hok, truthy_withId. reflexivity.
  - unfold messageCount.
    rewrite record_field by (try discriminate; unfold ps';
                             now repeat apply assignProp_NoDup).
    unfold ps'. rewrite lookupProp_assign_other by discriminate.
    rewrite lookupProp_assign_same, jsonClone_arr.
    unfold new. rewrite length_map, length_app, length_map. reflexivity.
  - apply findById_found; [|reflexivity].
    unfold w'. rewrite collection_some. eapply lookupDoc_replace_same, Hl.
Qed.

(** X21. [PUT /history/:id] for an existing conversation with a
    message array that holds a null or undefined element passes the
    controller's check, fails in the repository with a TypeError and is
    answered 500, with the message the engine gave that TypeError; no
    document is changed. *)
Theorem put_history_null_message
        (clock : nat -> string) (req : Request) (w : World)
        (existing : JsVal) (l : list JsVal) :
  lookupDoc (id req) (collection w) = Some existing ->
  isNullish (body req) = false ->
  getField (body req) "messages" = JArr l ->
  Exists (fun x => isNullish x = true) l ->
  exists w',
    historyController.update (historyService.appendMessages clock) req w
    = (mkResponse 500 (EngineError TypeError), w')
    /\ collection w' = collection w.
Proof.
  intros Hl Hb Hm Hex.
  eexists. split.
  - unfold historyController.update, historyService.appendMessages,
      tryCatch, bind.
    rewrite Hb, Hm. cbn [truthy isArray negb orb].
    destruct l as [|x r]; [inversion Hex|]. cbn [List.length Nat.eqb].
    rewrite (appendMessages_invalid_writes_nothing_aux clock (id req)
               (x :: r) w existing Hl Hex).
    reflexivity.
  - reflexivity.
Qed.

(** X22. [GET /history] without a [userId] query parameter, or with an
    empty one, is answered 400 whatever the service would do, and the
    store is unchanged. *)
Theorem list_requires_user
        (listConversations : JsVal -> option Z -> option Z
                             -> M historyService.ListResult)
        (req : Request) (w : World) :
  param "userId" (query req) = None \/ param "userId" (query req) = Some "" ->
  historyController.list listConversations req w
  = (mkResponse 400 (JsonError (JStr "userId query parameter is required")),
     w).
Proof.
  intros [H|H]; unfold historyController.list, tryCatch; now rewrite H.
Qed.

Lemma put_history_appends_witness :
  exists old r w',
    getField (jsonClone (ConversationHistory.newDocument
                           (sampleClock 0) samplePayload
                           [stamped (sampleClock 0) (chatMessage "user" "Hello")]))
             "messages" = JArr old
    /\ historyController.update (historyService.appendMessages sampleClock)
                                putReply oneStored
       = (mkResponse 200 (Json r), w')
    /\ messageCount r = Some (List.length old + 1)%nat
    /\ ConversationHistory.findById (id putReply) w' = (Ok r, w').
Proof.
  refine (put_history_appends sampleClock putReply oneStored _
            (chatMessage "assistant" "Hi there!") []
            oneStored_reachable eq_refl eq_refl eq_refl _).
  repeat constructor.
Defined.

Lemma put_history_null_message_witness :
  exists w',
    historyController.update (historyService.appendMessages sampleClock)
                             putWithNull oneStored
    = (mkResponse 500 (EngineError TypeError), w')
    /\ collection w' = collection oneStored.
Proof.
  refine (put_history_null_message sampleClock putWithNull oneStored _
            [chatMessage "user" "Hi"; JNull] eq_refl eq_refl eq_refl _).
  apply Exists_cons_tl, Exists_cons_hd. reflexivity.
Defined.

Lemma list_requires_user_witness :
  historyController.list historyService.listConversations
                         listWithoutUser threeStored
  = (mkResponse 400 (JsonError (JStr "userId query parameter is required")),
     threeStored).
Proof.
  apply (list_requires_user historyService.listConversations
           listWithoutUser threeStored).
  left. reflexivity.
Defined.

(** ** The agent endpoints *)

(** X23. [POST /agent/chat] with a body in which [message] is absent or
    falsy is answered 400 "message is required" whatever the proxy
    would do: the upstream is not contacted. *)
Theorem chat_requires_message
        (chatService : JsVal -> Result JsVal) (req : Request) :
  isNullish (body req) = false ->
  truthy (getField (body req) "message") = false ->
  agentController.chat chatService req
  = mkResponse 400 (JsonError (JStr "message is required")).
Proof.
  intros Hb Hm. unfold agentController.chat. now rewrite Hb, Hm.
Qed.

Lemma chat_requires_message_witness :
  agentController.chat (agentService.chat (fun _ _ => badInput))
                       chatWithoutMessage
  = mkResponse 400 (JsonError (JStr "message is required")).
Proof.
  apply (chat_requires_message _ chatWithoutMessage); reflexivity.
Defined.

(** X24. [POST /agent/chat] with a message sends to the upstream, at
    [/api/chat], exactly the [message], [sessionId] and [userId] of the
    body, and answers by what comes back: 200 with the upstream's data;
    502 "Agent Server unavailable" when there is no upstream response;
    and, for an upstream error response with a non-zero status, that
    status. *)
Theorem chat_endpoint_answers
        (post : string -> JsVal -> agentService.AxiosResult) (req : Request) :
  isNullish (body req) = false ->
  truthy (getField (body req) "message") = true ->
  (forall upstream,
      post "/api/chat" (forwarded req) = agentService.Resolved upstream ->
      agentController.chat (agentService.chat post) req
      = mkResponse 200 (Json upstream))
  /\ (post "/api/chat" (forwarded req) = agentService.Rejected None ->
      agentController.chat (agentService.chat post) req
      = mkResponse 502 (JsonError (JStr "Agent Server unavailable")))
  /\ (forall code upstream,
         post "/api/chat" (forwarded req)
         = agentService.Rejected (Some (code, upstream)) ->
         code <> 0%Z ->
         exists msg,
           agentController.chat (agentService.chat post) req
           = mkResponse code (JsonError msg)
           /\ truthy msg = true).
Proof.
  intros Hb Hm.
  assert (Hc : agentController.chat (agentService.chat post) req
               = agentController.respond
                   (resBind (agentService.chat post (forwarded req))
                            (fun result => Ok (mkResponse 200 (Json result))))).
  { unfold agentController.chat. now rewrite Hb, Hm. }
  rewrite Hc. unfold agentService.chat.
  split; [|split].
  - intros upstream H. now rewrite H.
  - intros H. now rewrite H.
  - intros code upstream H Hcode. rewrite H.
    cbn [resBind agentController.respond errorHandler statusCode message].
    apply Z.eqb_neq in Hcode. rewrite Hcode.
    eexists. split; [reflexivity|].
    unfold jsOr.
    destruct (truthy (optField (optField upstream "error") "message")) eqn:E.
    + now rewrite E.
    + reflexivity.
Qed.

Lemma chat_endpoint_answers_witness :
  agentController.chat (agentService.chat (fun _ _ => unreachable)) chatRequest
  = mkResponse 502 (JsonError (JStr "Agent Server unavailable")).
Proof.
  exact (proj1 (proj2 (chat_endpoint_answers (fun _ _ => unreachable)
                         chatRequest eq_refl eq_refl)) eq_refl).
Defined.

(** X25. [GET /agent/status] has two answers only: 200 with the
    upstream's data when the probe succeeds, and 502 "Agent Server
    unavailable" in every other case. *)
Theorem status_endpoint_answers (get : string -> agentService.AxiosResult) :
  (forall upstream,
      get "/api/health" = agentService.Resolved upstream ->
      agentController.status (agentService.getStatus get)
      = mkResponse 200 (Json upstream))
  /\ (forall response,
         get "/api/health" = agentService.Rejected response ->
         agentController.status (agentService.getStatus get)
         = mkResponse 502 (JsonError (JStr "Agent Server unavailable"))).
Proof.
  unfold agentController.status, agentService.getStatus.
  split; intros x H; now rewrite H.
Qed.

Lemma status_endpoint_answers_witness :
  agentController.status (agentService.getStatus (fun _ => overloaded))
  = mkResponse 502 (JsonError (JStr "Agent Server unavailable")).
Proof.
  exact (proj2 (status_endpoint_answers (fun _ => overloaded)) _ eq_refl).
Defined.

(** ** Numbers in the query string *)

Lemma string_append_empty (s : string) : (s ++ "")%string = s.
Proof. induction s as [|c s IH]; simpl; [reflexivity|now rewrite IH]. Qed.

Lemma digits_stop rest acc :
  startsWithDigit rest = false -> digits rest acc = acc.
Proof.
  destruct rest as [|c r]; [reflexivity|].
  cbn [startsWithDigit digits]. now intros ->.
Qed.

Lemma digits_step c r acc :
  isDigit c = true ->
  digits (String c r) acc
  = digits r (Some (10 * match acc with Some n => n | None => 0 end
                    + Z.of_nat (byte c - 48))%Z).
Proof. intros H. cbn [digits]. now rewrite H. Qed.

Lemma digits_decimal d rest :
  startsWithDigit rest = false ->
  forall a,
    digits (NilEmpty.string_of_uint d ++ rest) (Some (Z.of_nat a))
    = Some (Z.of_nat (Nat.of_uint_acc d a)).
Proof.
  intros Hrest.
  induction d as [|d IH|d IH|d IH|d IH|d IH|d IH|d IH|d IH|d IH|d IH];
    intros a;
    cbn [NilEmpty.string_of_uint String.append Nat.of_uint_acc];
    [now apply digits_stop|..];
    rewrite digits_step by reflexivity; digit_value;
    rewrite <- IH; do 2 f_equal; rewrite Nat.tail_mul_spec; lia.
Qed.

Lemma digits_decimal_start d rest :
  d <> Decimal.Nil -> startsWithDigit rest = false ->
  digits (NilEmpty.string_of_uint d ++ rest) None
  = Some (Z.of_nat (Nat.of_uint d)).
Proof.
  intros Hd Hrest. unfold Nat.of_uint.
  destruct d; [congruence|..];
    cbn [NilEmpty.string_of_uint String.append Nat.of_uint_acc];
    rewrite digits_step by reflexivity; digit_value;
    rewrite <- (digits_decimal _ _ Hrest); reflexivity.
Qed.

Lemma to_uint_nonnil n : Nat.to_uint n <> Decimal.Nil.
Proof.
  rewrite <- (Unsigned.of_to n) at 1. rewrite Unsigned.to_of.
  apply unorm_nonnil.
Qed.

Lemma trimStart_digit c r :
  isDigit c = true -> trimStart (String c r) = String c r.
Proof.
  intros H.
  destruct c as [[] [] [] [] [] [] [] []]; vm_compute in H; try discriminate;
    destruct r as [|b [|c' r3]]; reflexivity.
Qed.

Lemma parseIntString_digit c r :
  isDigit c = true -> parseIntString (String c r) = digits (String c r) None.
Proof.
  intros H. unfold parseIntString. rewrite trimStart_digit by assumption.
  destruct c as [[] [] [] [] [] [] [] []]; vm_compute in H; try discriminate;
    reflexivity.
Qed.

Lemma decimal_head n :
  exists c r, NilEmpty.string_of_uint (Nat.to_uint n) = String c r
              /\ isDigit c = true.
Proof.
  pose proof (to_uint_nonnil n) as H.
  destruct (Nat.to_uint n); [congruence|..];
    cbn [NilEmpty.string_of_uint]; do 2 eexists; split; reflexivity.
Qed.

Lemma parseIntString_decimal n rest :
  startsWithDigit rest = false ->
  parseIntString (decimal n ++ rest)%string = Some (Z.of_nat n).
Proof.
  intros Hrest. unfold decimal, indexKey.
  destruct (decimal_head n) as (c & r & E & Hc).
  pose proof (digits_decimal_start _ rest (to_uint_nonnil n) Hrest) as Hd.
  rewrite Unsigned.of_to in Hd. rewrite E in *. cbn [String.append] in *.
  now rewrite parseIntString_digit.
Qed.

(** X26. [parseInt] reads back a number up to 2^53 (the integers the
    engine's numbers hold exactly) written in decimal, whatever follows
    the digits (as long as it is not another digit), and with a leading
    minus sign its opposite.  So on [GET /history] a page and a limit
    written as positive decimal numbers up to 2^53 reach the service as
    those numbers. *)
Theorem parseInt_decimal (n : nat) (rest : string) :
  startsWithDigit rest = false ->
  (Z.of_nat n <= 2 ^ 53)%Z ->
  parseInt (Some (decimal n ++ rest)%string) = Some (Z.of_nat n)
  /\ parseInt (Some ("-" ++ decimal n ++ rest)%string) = Some (- Z.of_nat n)%Z
  /\ (forall listConversations req w u p,
         param "userId" (query req) = Some u -> u <> "" ->
         param "page" (query req) = Some (decimal (S p)) ->
         (Z.of_nat (S p) <= 2 ^ 53)%Z ->
         param "limit" (query req) = Some (decimal n ++ rest)%string ->
         n <> 0%nat ->
         historyController.list listConversations req w
         = tryCatch (result <- listConversations (JStr u)
                                 (Some (Z.of_nat (S p))) (Some (Z.of_nat n)) ;;
                     ret (mkResponse 200 (JsonList result))) w).
Proof.
  intros Hrest _.
  pose proof (parseIntString_decimal n rest Hrest) as Hn.
  split; [exact Hn|]. split.
  - cbn [parseInt]. unfold decimal, indexKey in *.
    destruct (decimal_head n) as (c & r & E & Hc).
    pose proof (digits_decimal_start _ rest (to_uint_nonnil n) Hrest) as Hd.
    rewrite Unsigned.of_to in Hd. rewrite E in *.
    cbn [String.append] in *. unfold parseIntString.
    cbn [trimStart]. change (isSpace1 "-") with false. cbv iota.
    change (isSpace2 "-" c) with false. cbv iota.
    replace (match (r ++ rest)%string with
             | EmptyString => String "-" (String c (r ++ rest))
             | String c0 r3 =>
                 if isSpace3 "-" c c0 then trimStart r3
                 else String "-" (String c (r ++ rest))
             end) with (String "-" (String c (r ++ rest)))
      by (destruct (r ++ rest)%string; reflexivity).
    now rewrite Hd.
  - intros listConversations req w u p Hu Hne Hp _ Hl Hn0.
    unfold historyController.list. rewrite Hu, Hp, Hl.
    cbn [truthy parseInt].
    destruct (String.eqb_spec u "") as [->|_]; [congruence|].
    cbn [negb]. rewrite Hn.
    pose proof (parseIntString_decimal (S p) "" eq_refl) as Hp'.
    rewrite string_append_empty in Hp'. rewrite Hp'.
    unfold numOr.
    destruct (Z.eqb_spec (Z.of_nat (S p)) 0); [lia|].
    destruct (Z.eqb_spec (Z.of_nat n) 0); [lia|]. reflexivity.
Qed.

Lemma parseInt_decimal_witness :
  parseInt (Some (decimal 25 ++ "px")%string) = Some 25%Z.
Proof.
  refine (proj1 (parseInt_decimal 25 "px" eq_refl _)).
  vm_compute. discriminate.
Defined.

(** ** What a read returns *)

Lemma jsonValue_withId id v :
  v = JUndefined \/ jsonValue v = true -> jsonValue (withId id v) = true.
Proof.
  intros Hv. unfold withId.
  destruct v as [| | | | | |ps]; try reflexivity.
  destruct Hv as [Hv|Hv]; [discriminate|].
  cbn [jsonValue] in *.
  assert (Hgen : forall acc,
             forallb (fun kv => jsonValue (snd kv)) acc = true ->
             forallb (fun kv => jsonValue (snd kv))
                     (fold_left (fun a kv => assignProp (fst kv) (snd kv) a)
                                ps acc) = true).
  { induction ps as [|[k x] r IH]; intros acc Hacc; [exact Hacc|].
    cbn [forallb snd] in Hv. apply andb_prop in Hv. destruct Hv as [Hx Hr].
    cbn [fold_left fst snd]. apply IH; [exact Hr|].
    apply forallb_forall. rewrite forallb_forall in Hacc.
    pose proof (Forall_assignProp (fun v => jsonValue v = true) k x acc) as HF.
    rewrite !Forall_forall in HF. intros e He. apply HF; auto. }
  apply Hgen. reflexivity.
Qed.

Lemma jsonValue_entryRecord e : jsonValue (entryRecord e) = true.
Proof.
  unfold entryRecord. apply jsonValue_withId.
  destruct (truthy (snd e)) eqn:Ht; [|now left].
  right. apply jsonValue_jsonClone. intros E. rewrite E in Ht. discriminate.
Qed.

(** X5. Whatever is read from the store is plain JSON.  [findById]
    returns a record or null that holds no [undefined] anywhere, and
    that a further [JSON.parse(JSON.stringify(..))] leaves as it is,
    for every id but the names of the functions that the collection
    object inherits, once the collection exists: there it throws a
    SyntaxError.  [findByUserId] always returns, and every conversation
    it lists is plain JSON in the same sense.  (The record [create]
    returns is the document before it is copied, and may hold
    [undefined] fields that a read will not show.) *)
Theorem reads_return_json :
  (forall id w,
      lookupDoc id (collection w) <> None
      \/ store w = None
      \/ (forall name, inherited id <> Some (NativeFunction name)) ->
      exists r, ConversationHistory.findById id w = (Ok r, w)
                /\ jsonValue r = true /\ jsonClone r = r)
  /\ (forall id w c name,
         store w = Some c -> lookupDoc id c = None ->
         inherited id = Some (NativeFunction name) ->
         ConversationHistory.findById id w = (Throw SyntaxError, w))
  /\ (forall userId page limit w,
         exists res,
           ConversationHistory.findByUserId userId page limit w = (Ok res, w)
           /\ Forall (fun r => jsonValue r = true /\ jsonClone r = r)
                     (ConversationHistory.conversations res)).
Proof.
  split; [|split].
  - intros id w H.
    assert (Hj : forall r, jsonValue r = true ->
                           jsonValue r = true /\ jsonClone r = r)
      by (intros r Hr; split; [exact Hr|now apply jsonClone_of_jsonValue]).
    destruct (entry_cases id w) as [(d & Hl & He)|[Hl [He|[b He]]]].
    + exists (entryRecord (id, d)). split; [|apply Hj, jsonValue_entryRecord].
      unfold ConversationHistory.findById, bind, docGet, snapExists.
      cbn [snapData]. now rewrite He.
    + exists JNull. split; [now apply findById_absent|now apply Hj].
    + destruct b as [|name].
      * exists (JObj [("id", JStr id)]).
        split; [now apply findById_prototype|now apply Hj].
      * exfalso. unfold entry, collection in *.
        destruct (store w) as [c|]; [|discriminate].
        destruct H as [H|[H|H]]; [congruence|discriminate|].
        rewrite Hl in He. destruct (inherited id) as [b|] eqn:Hi;
          [|discriminate].
        injection He as ->. now apply (H name).
  - intros id w c name Hs Hl Hi.
    apply (findById_function _ _ name), (entry_inherited _ _ c); assumption.
  - intros userId page limit w.
    destruct (findByUserId_total userId page limit w)
      as (res & Heq & _ & docs & Hdocs).
    exists res. split; [exact Heq|]. rewrite Hdocs.
    apply Forall_forall. intros r Hr. apply in_map_iff in Hr.
    destruct Hr as (e & <- & _).
    pose proof (jsonValue_entryRecord e) as H.
    split; [exact H|now apply jsonClone_of_jsonValue].
Qed.

Lemma reads_return_json_witness :
  (exists r, ConversationHistory.findById "mock-id-1" oneStored
             = (Ok r, oneStored)
             /\ jsonValue r = true /\ jsonClone r = r)
  /\ ConversationHistory.findById "toString" oneStored
     = (Throw SyntaxError, oneStored).
Proof.
  split.
  - refine (proj1 reads_return_json "mock-id-1" oneStored _).
    left. discriminate.
  - exact (proj1 (proj2 reads_return_json) "toString" oneStored _ "toString"
                 eq_refl eq_refl eq_refl).
Defined.

(** X27. The service fills in what the caller leaves out: created from
    fields with neither [messages] nor [metadata], a conversation has an
    empty message list and the source ["web"], in the record returned
    and in the document stored. *)
Theorem createConversation_fills_defaults
        (clock : nat -> string) (fields : JsVal) (w : World) :
  isNullish fields = false ->
  getField fields "messages" = JUndefined ->
  getField fields "metadata" = JUndefined ->
  exists r w' stored,
    historyService.createConversation clock fields w = (Ok r, w')
    /\ lookupDoc (mockId (S (idCounter w))) (collection w') = Some stored
    /\ getField r "messages" = JArr []
    /\ getField stored "messages" = JArr []
    /\ getField (getField r "metadata") "source" = JStr "web"
    /\ getField (getField stored "metadata") "source" = JStr "web".
Proof.
  intros Hn Hu Hmd.
  unfold historyService.createConversation. rewrite Hn, Hu, Hmd.
  match goal with
  | |- context [ConversationHistory.create clock ?d w] =>
      destruct (create_fields clock d w []
                  eq_refl eq_refl eq_refl (Forall_nil _))
      as (r & w' & stored & Heq & Hl & _ & _ & _ & _ & _ & Hrm & Hsm & _ & _
          & Hsrc)
  end.
  destruct (Hsrc eq_refl) as [Hr Hs].
  exists r, w', stored.
  split; [exact Heq|]. split; [exact Hl|]. split; [exact Hrm|].
  split; [exact Hsm|]. split; [exact Hr|exact Hs].
Qed.

Lemma createConversation_fills_defaults_witness :
  exists r w' stored,
    historyService.createConversation sampleClock
      (JObj [("sessionId", JStr "session-2"); ("userId", JStr "user-1")])
      emptyWorld = (Ok r, w')
    /\ lookupDoc (mockId 1) (collection w') = Some stored
    /\ getField r "messages" = JArr []
    /\ getField stored "messages" = JArr []
    /\ getField (getField r "metadata") "source" = JStr "web"
    /\ getField (getField stored "metadata") "source" = JStr "web".
Proof.
  exact (createConversation_fills_defaults sampleClock
           (JObj [("sessionId", JStr "session-2"); ("userId", JStr "user-1")])
           emptyWorld eq_refl eq_refl eq_refl).
Defined.

(** ** Pages below the first *)

(** X28. [findByUserId] does not reject a page number below 1.  With
    [limit >= 1], page 0 is always empty, and a negative page is a
    window counted from the end of the owner's listing: with [total]
    conversations it holds those at positions
    [max(0, total + (page-1)*limit)] up to [max(0, total + page*limit)]
    of the order by [updatedAt], newest first.  [total] is reported as
    for any other page and the store is not changed. *)
Theorem findByUserId_page_below_one
        (userId : JsVal) (page limit : Z) (w : World) :
  (1 <= limit)%Z -> (page <= 0)%Z ->
  let sorted := sort (compareDocs "updatedAt" "desc")
                     (filter (ownedBy userId) (collection w)) in
  let total := Z.of_nat (List.length sorted) in
  let first := Z.max (total + (page - 1) * limit) 0 in
  let last := Z.max (total + page * limit) 0 in
  exists r,
    ConversationHistory.findByUserId userId (Some page) (Some limit) w
    = (Ok r, w)
    /\ ConversationHistory.total r = total
    /\ (page = 0%Z -> ConversationHistory.conversations r = [])
    /\ ((page < 0)%Z ->
        ConversationHistory.conversations r
        = map entryRecord (firstn (Z.to_nat (last - first))
                                  (skipn (Z.to_nat first) sorted))).
Proof.
  intros Hl Hp sorted total first last.
  rewrite findByUserId_eq. eexists. split; [reflexivity|].
  cbn [ConversationHistory.conversations ConversationHistory.total].
  fold sorted.
  split; [subst total sorted; now rewrite sort_length|].
  unfold slice. fold total.
  split.
  - intros ->.
    destruct ((0 - 1) * limit <? 0)%Z eqn:E1; [|lia].
    destruct ((0 - 1) * limit + limit <? 0)%Z eqn:E2; [lia|].
    replace (Z.to_nat _) with 0%nat by lia. reflexivity.
  - intros Hneg.
    destruct ((page - 1) * limit <? 0)%Z eqn:E1; [|nia].
    destruct ((page - 1) * limit + limit <? 0)%Z eqn:E2; [|nia].
    subst first last.
    replace (total + ((page - 1) * limit + limit))%Z
      with (total + page * limit)%Z by lia.
    reflexivity.
Qed.

Lemma findByUserId_page_below_one_witness :
  exists r,
    ConversationHistory.findByUserId (JStr "user-1") (Some (-1)%Z) (Some 1%Z)
                                     threeStored
    = (Ok r, threeStored)
    /\ ConversationHistory.total r = 2%Z
    /\ map (fun c => getField c "sessionId") (ConversationHistory.conversations r)
       = [JStr "s2"].
Proof.
  destruct (findByUserId_page_below_one (JStr "user-1") (-1) 1 threeStored
              ltac:(lia) ltac:(lia)) as (r & Heq & Ht & _ & Hneg).
  exists r. split; [exact Heq|]. split; [rewrite Ht; reflexivity|].
  rewrite (Hneg ltac:(lia)). reflexivity.
Defined.

(** ** Filters of the query builder *)

Lemma getFilteredDocs_where q f o v w :
  getFilteredDocs (where_ q f o v) w
  = filter (matches (mkFilter f o v)) (getFilteredDocs q w).
Proof.
  unfold getFilteredDocs, where_. cbn [filters].
  now rewrite fold_left_app.
Qed.

Lemma filter_all {A} (p : A -> bool) l :
  (forall x, p x = true) -> filter p l = l.
Proof.
  intros Hp. induction l as [|x r IH]; simpl; [reflexivity|].
  now rewrite Hp, IH.
Qed.

Lemma filter_split_length {A} (p : A -> bool) l :
  (List.length (filter p l) + List.length (filter (fun x => negb (p x)) l)
   = List.length l)%nat.
Proof.
  induction l as [|x r IH]; simpl; [reflexivity|].
  destruct (p x); simpl; lia.
Qed.

(** X29. Filters added with [where] apply one after the other, so their
    order does not matter; a [where] with an operator the mock does not
    know keeps every document; and the documents counted with [==] and
    with [!=] on the same field and value are together all the
    documents of the query. *)
Theorem where_filters (q : MockQuery) (w : World) :
  (forall f o v,
      ~ In o ["=="; "!="; ">"; ">="; "<"; "<="] ->
      getFilteredDocs (where_ q f o v) w = getFilteredDocs q w)
  /\ (forall f v,
         (queryCount (where_ q f "==" v) w + queryCount (where_ q f "!=" v) w
          = queryCount q w)%Z)
  /\ (forall f1 o1 v1 f2 o2 v2,
         getFilteredDocs (where_ (where_ q f1 o1 v1) f2 o2 v2) w
         = getFilteredDocs (where_ (where_ q f2 o2 v2) f1 o1 v1) w).
Proof.
  split; [|split].
  - intros f o v Ho. rewrite getFilteredDocs_where. apply filter_all.
    intros d. unfold matches. cbn [op].
    repeat match goal with
           | |- context [String.eqb o ?s] =>
               destruct (String.eqb_spec o s) as [->|_];
               [exfalso; apply Ho; cbn; tauto|]
           end.
    reflexivity.
  - intros f v. unfold queryCount. rewrite !getFilteredDocs_where.
    rewrite <- Nat2Z.inj_add. f_equal.
    rewrite <- (filter_split_length (matches (mkFilter f "==" v))
                                    (getFilteredDocs q w)).
    reflexivity.
  - intros f1 o1 v1 f2 o2 v2. rewrite !getFilteredDocs_where, !filter_filter.
    apply filter_ext. intros d. apply andb_comm.
Qed.

Lemma where_filters_witness :
  getFilteredDocs (where_ collectionRef "userId" "in" (JStr "user-1")) threeStored
  = getFilteredDocs collectionRef threeStored.
Proof.
  refine (proj1 (where_filters collectionRef threeStored)
                "userId" "in" (JStr "user-1") _).
  cbn. intros [H|[H|[H|[H|[H|[H|[]]]]]]]; discriminate H.
Defined.
